(** * Mask2CAD prediction head: a shallow embedding of [models.py]

    The development follows the layout of the Python module: Python
    exceptions are the [Raise] branch of a small result monad, tensors are
    nested lists, dictionaries and name spaces are finite maps, and the two
    classes [Mask2CAD] and [ShapeRetrieval] are Rocq modules whose
    definitions carry the names of the methods they embed.

    Numbers are idealised: a tensor element is a real number, widened by the
    IEEE special values where the source introduces them ([float('inf')],
    a logarithm of a non-positive ratio, a mean over no element).

    The samplers and data sets of [datasets.py], which feed the two
    classes, follow: a dictionary is an association list in insertion
    order, and the file system and the image reader are a record of
    functions. *)

From Stdlib Require Import Reals Lra.
From stdpp Require Import base decidable option list sorting strings gmap.
From stdpp Require Import pretty.

(** ** Exceptions *)

Inductive exn : Type :=
| NameError (name : string)
| AttributeError (attr : string)
| KeyError (key : string)
| IndexError
| TypeError
| RuntimeError
| ZeroDivisionError.

Inductive result (A : Type) : Type :=
| Ok (a : A)
| Raise (e : exn).
Arguments Ok {A} a.
Arguments Raise {A} e.

#[global] Instance result_ret : MRet result := λ A a, Ok a.
#[global] Instance result_bind : MBind result := λ A B f m,
  match m with
  | Ok a => f a
  | Raise e => Raise e
  end.
#[global] Instance result_fmap : FMap result := λ A B f m,
  match m with
  | Ok a => Ok (f a)
  | Raise e => Raise e
  end.

Definition returns {A} (m : result A) : Prop := ∃ a, m = Ok a.

(** Using an optional value; [None] raises [e]. *)
Definition unwrap {A} (e : exn) (o : option A) : result A :=
  match o with
  | Some a => Ok a
  | None => Raise e
  end.

(** [for x in l: f x] with the first exception escaping the loop. *)
Fixpoint for_each {A B} (f : A → result B) (l : list A) : result (list B) :=
  match l with
  | [] => Ok []
  | x :: l => y ← f x; ys ← for_each f l; Ok (y :: ys)
  end.

(** ** Tensor elements *)

#[global] Instance R_eq_dec : EqDecision R := Req_dec_T.
#[global] Instance Rle_decision (x y : R) : Decision (x <= y)%R := Rle_dec x y.
#[global] Instance Rlt_decision (x y : R) : Decision (x < y)%R := Rlt_dec x y.

(** A float as the losses see it: a real, or one of the IEEE specials.
    Rounding and overflow are left out and zero has no sign. *)
Inductive fnum : Type :=
| Fin (r : R)
| PInf
| NInf
| NaN.

Definition finite (x : fnum) : Prop := ∃ r, x = Fin r.

Definition fneg (x : fnum) : fnum :=
  match x with
  | Fin r => Fin (- r)
  | PInf => NInf
  | NInf => PInf
  | NaN => NaN
  end.

Definition fadd (x y : fnum) : fnum :=
  match x, y with
  | NaN, _ | _, NaN => NaN
  | Fin a, Fin b => Fin (a + b)
  | PInf, NInf | NInf, PInf => NaN
  | PInf, _ | _, PInf => PInf
  | NInf, _ | _, NInf => NInf
  end.

(** The infinity whose sign is the sign of [r]; [inf * 0] is not a number. *)
Definition signed_inf (positive : bool) (r : R) : fnum :=
  if decide (r = 0)%R then NaN
  else if decide (0 < r)%R then (if positive then PInf else NInf)
  else (if positive then NInf else PInf).

Definition fmul (x y : fnum) : fnum :=
  match x, y with
  | NaN, _ | _, NaN => NaN
  | Fin a, Fin b => Fin (a * b)
  | Fin a, PInf | PInf, Fin a => signed_inf true a
  | Fin a, NInf | NInf, Fin a => signed_inf false a
  | PInf, PInf | NInf, NInf => PInf
  | PInf, NInf | NInf, PInf => NInf
  end.

Definition fdiv (x y : fnum) : fnum :=
  match x, y with
  | NaN, _ | _, NaN => NaN
  | Fin a, Fin b => if decide (b = 0)%R then signed_inf true a else Fin (a / b)
  | Fin _, (PInf | NInf) => Fin 0
  | PInf, Fin b => if decide (b < 0)%R then NInf else PInf
  | NInf, Fin b => if decide (b < 0)%R then PInf else NInf
  | (PInf | NInf), (PInf | NInf) => NaN
  end.

Definition flog (x : fnum) : fnum :=
  match x with
  | Fin a => if decide (0 < a)%R then Fin (ln a)
             else if decide (a = 0)%R then NInf else NaN
  | PInf => PInf
  | NInf | NaN => NaN
  end.

(** The order [sort] and [topk] use: [-inf < reals < inf < nan]. *)
Definition fle (x y : fnum) : Prop :=
  match x, y with
  | _, NaN => True
  | NaN, _ => False
  | _, PInf => True
  | PInf, _ => False
  | NInf, _ => True
  | _, NInf => False
  | Fin a, Fin b => (a <= b)%R
  end.

#[global] Instance fle_dec (x y : fnum) : Decision (fle x y).
Proof. destruct x, y; simpl; apply _. Defined.

Definition fsum (l : list fnum) : fnum := foldr fadd (Fin 0) l.

(** [Tensor.mean()]: the sum over the number of elements, [0 / 0] on none. *)
Definition fmean (l : list fnum) : fnum := fdiv (fsum l) (Fin (INR (length l))).

Definition Rsum (l : list R) : R := foldr Rplus 0%R l.

Definition dot (u v : list R) : R := Rsum (zip_with Rmult u v).

Definition norm (v : list R) : R := sqrt (dot v v).

(** [F.normalize(v, dim = -1)] with its default [eps]. *)
Definition normalize_eps : R := (/ 1000000000000)%R.
Definition normalize (v : list R) : list R :=
  let d := Rmax (norm v) normalize_eps in (λ x, x / d)%R <$> v.

(** ** Tensor operations *)

(** [t[i]] for a non-negative index. *)
Definition index {A} (t : list A) (i : nat) : result A :=
  match t !! i with
  | Some x => Ok x
  | None => Raise IndexError
  end.

(** [row.argmin()] and [row.argmax()]: the first position of the extreme
    value, [IndexError] on an empty row. *)
Fixpoint argmin_from (best_i : nat) (best : R) (i : nat) (row : list R) : nat :=
  match row with
  | [] => best_i
  | x :: row =>
      if decide (x < best)%R then argmin_from i x (S i) row
      else argmin_from best_i best (S i) row
  end.

Definition argmin (row : list R) : result nat :=
  match row with
  | [] => Raise IndexError
  | x :: row => Ok (argmin_from 0 x 1 row)
  end.

Fixpoint argmax_from (best_i : nat) (best : R) (i : nat) (row : list R) : nat :=
  match row with
  | [] => best_i
  | x :: row =>
      if decide (best < x)%R then argmax_from i x (S i) row
      else argmax_from best_i best (S i) row
  end.

Definition argmax (row : list R) : result nat :=
  match row with
  | [] => Raise IndexError
  | x :: row => Ok (argmax_from 0 x 1 row)
  end.

(** [torch.where(mask, D, fill)] on one row. *)
Definition where_ (mask : list bool) (row : list R) (fill : fnum) : list fnum :=
  zip_with (λ (m : bool) d, if m then Fin d else fill) mask row.

(** [t.unflatten(0, (B, Q))]. *)
Fixpoint chunks {A} (B Q : nat) (t : list A) : list (list A) :=
  match B with
  | 0 => []
  | S B => take Q t :: chunks B Q (drop Q t)
  end.

Definition unflatten {A} (B Q : nat) (t : list A) : result (list (list A)) :=
  if decide (length t = B * Q) then Ok (chunks B Q t) else Raise RuntimeError.

(** [torch.cat(ts)] along dimension 0; an empty list is refused. *)
Definition cat {A} (ts : list (list A)) : result (list A) :=
  match ts with
  | [] => Raise RuntimeError
  | _ => Ok (mjoin ts)
  end.

(** [t.split(sizes)] along dimension 0. *)
Fixpoint split_sizes {A} (t : list A) (sizes : list nat) : list (list A) :=
  match sizes with
  | [] => []
  | n :: sizes => take n t :: split_sizes (drop n t) sizes
  end.

Definition split {A} (t : list A) (sizes : list nat) : result (list (list A)) :=
  if decide (sum_list sizes = length t) then Ok (split_sizes t sizes)
  else Raise RuntimeError.

(** [Mask2CAD.gather_incomplete(tensor, I)] for a one-dimensional [I]:
    [tensor.gather(1, ...)] picks [tensor[i][I[i]]]; [gather] wants the
    index no longer than the tensor along dimension 0 and every entry in
    range. *)
Definition gather_incomplete {A} (tensor : list (list A)) (I : list nat) : result (list A) :=
  if decide (length I ≤ length tensor) then
    for_each (λ '(row, i), match row !! i with Some x => Ok x | None => Raise RuntimeError end)
             (zip tensor I)
  else Raise RuntimeError.

(** The same call for an index of shape (B, Q): [tensor.gather(2, ...)]. *)
Definition gather_incomplete2 {A} (tensor : list (list (list A))) (I : list (list nat))
  : result (list (list A)) :=
  if decide (length I ≤ length tensor) then
    for_each (λ '(t, i), gather_incomplete t i) (zip tensor I)
  else Raise RuntimeError.

(** Elementwise operations on tensors with the same leading (B, Q). *)
Definition bq_map {A B} (f : A → B) (t : list (list A)) : list (list B) :=
  (λ row : list A, f <$> row) <$> t.
Definition bq_map2 {A B C} (f : A → B → C) (t : list (list A)) (u : list (list B))
  : list (list C) :=
  zip_with (zip_with f) t u.

(** ** quat.py

    The module is imported by [models.py] and is not among the sources:
    its three functions are modelled from section 4.1 of the
    specification, over exact reals. *)

Module quat.
Local Open Scope R_scope.

(** A quaternion, scalar last: (x, y, z, w). *)
Record quaternion : Type := Quat { qx : R; qy : R; qz : R; qw : R }.

Definition quatneg (a : quaternion) : quaternion :=
  Quat (- qx a) (- qy a) (- qz a) (- qw a).

Definition normsq (a : quaternion) : R :=
  qx a * qx a + qy a * qy a + qz a * qz a + qw a * qw a.

Definition is_unit (a : quaternion) : Prop := normsq a = 1.

Definition identity : quaternion := Quat 0 0 0 1.

(** Modelled from the spec: [quat.py] is not among the sources; this is
    the spec's [compose(a, b)], the rotation-composition (Hamilton)
    product of two scalar-last quaternions. *)
Definition quatprod (a b : quaternion) : quaternion :=
  Quat (qw a * qx b + qx a * qw b + qy a * qz b - qz a * qy b)
       (qw a * qy b - qx a * qz b + qy a * qw b + qz a * qx b)
       (qw a * qz b + qx a * qy b - qy a * qx b + qz a * qw b)
       (qw a * qw b - qx a * qx b - qy a * qy b - qz a * qz b).

(** Modelled from the spec: the spec's [inverse(a)], the quaternion whose
    product with [a] is the identity. *)
Definition quatinv (a : quaternion) : quaternion :=
  let n := normsq a in
  Quat (- qx a / n) (- qy a / n) (- qz a / n) (qw a / n).

(** Modelled from the spec: [quat.quatprodinv] is called in
    [compute_rotation_location_targets] and not among the sources; this is
    the spec's [relative(a, b) = compose(inverse(a), b)], the delta [d]
    with [compose(a, d) = b]. *)
Definition quatprodinv (a b : quaternion) : quaternion :=
  quatprod (quatinv a) b.

(** Modelled from the spec: the chordal distance of two quaternions, the
    Euclidean distance of their components. *)
Definition chordal (a b : quaternion) : R :=
  sqrt ((qx a - qx b) * (qx a - qx b) + (qy a - qy b) * (qy a - qy b)
        + (qz a - qz b) * (qz a - qz b) + (qw a - qw b) * (qw a - qw b)).

(** Modelled from the spec: [quat.quatcdist] is not among the sources;
    this is the spec's [pairwiseDistance(A, B)], for every row of [A] and
    every row of [B] the smaller of the two chordal distances obtained
    from [b] and [-b]. *)
Definition quatcdist (A B : list quaternion) : list (list R) :=
  (λ a, (λ b, Rmin (chordal a b) (chordal a (quatneg b))) <$> B) <$> A.
End quat.

(** ** The name space of the module

    [models.py] binds these names at top level: the imports and the three
    classes.  A bare name in a method body is looked up here and then among
    the builtins. *)

Inductive pyobject : Type :=
| PyModule (name : string)
| PyClass (name : string)
| PyBuiltin (name : string).

Definition module_globals : gmap string pyobject :=
  list_to_map
    [("math", PyModule "math"); ("torch", PyModule "torch");
     ("nn", PyModule "torch.nn"); ("F", PyModule "torch.nn.functional");
     ("torchvision", PyModule "torchvision"); ("quat", PyModule "quat");
     ("ShapeRetrieval", PyClass "ShapeRetrieval"); ("Mask2CAD", PyClass "Mask2CAD");
     ("CacheInputOutput", PyClass "CacheInputOutput")]%string.

(** The builtins the module mentions. *)
Definition builtins : gmap string pyobject :=
  list_to_map
    [("super", PyBuiltin "super"); ("len", PyBuiltin "len"); ("zip", PyBuiltin "zip");
     ("tuple", PyBuiltin "tuple"); ("dict", PyBuiltin "dict"); ("range", PyBuiltin "range");
     ("float", PyBuiltin "float")]%string.

Definition lookup_name (name : string) : result pyobject :=
  match module_globals !! name with
  | Some o => Ok o
  | None =>
      match builtins !! name with
      | Some o => Ok o
      | None => Raise (NameError name)
      end
  end.

(** [d[key]] on a dictionary. *)
Definition getitem {V} (d : gmap string V) (key : string) : result V :=
  match d !! key with
  | Some v => Ok v
  | None => Raise (KeyError key)
  end.

(** ** Shapes shared by the two classes *)

Abbreviation vec := (list R).
(** A map of C channels, H rows, W columns. *)
Abbreviation feature_map := (list (list (list R))).
Abbreviation prob_map := (list (list R)).
Abbreviation image := (list (list (list R))).
(** A box as (x1, y1, x2, y2), or as (center_x, center_y, width, height). *)
Abbreviation box := (R * R * R * R)%type.
Abbreviation location := (R * R * R)%type.
(** What the backbone returns; only passed on to the pooling. *)
Abbreviation features := (list feature_map).
Abbreviation roi_args := (features * list (list box) * list (nat * nat))%type.

(** [len] of the first row: [t.shape[1]] of a tensor with a batch. *)
Definition shape1 {A} (t : list (list A)) : nat := length (default [] (head t)).

(** ** class CacheInputOutput *)

Module CacheInputOutput.
Record t (A B : Type) : Type := Build {
  model : A → B;
  output : option B;
  args : option A;
}.
Arguments Build {A B} _ _ _.
Arguments model {A B} _.
Arguments output {A B} _.
Arguments args {A B} _.

Definition init {A B} (model : A → B) : t A B := Build model None None.

(** [forward] stores its arguments and its output on the instance. *)
Definition forward {A B} (self : t A B) (a : A) : t A B * B :=
  let out := model self a in
  (Build (model self) (Some out) (Some a), out).
End CacheInputOutput.

(** ** class Mask2CAD *)

Module Mask2CAD.
Import quat.

(** What [torchvision]'s detector offers to [forward].  Calling the
    detector runs the two wrapped heads, which record what went through
    them. *)
Record detection : Type := Detection {
  boxes : list box;
  labels : list nat;
  location3d : option (list (list location));
  rotation3d_quat : option (list (list vec));
  shape_embedding : option (list (list vec));
  shape_idx : option (list (list nat));
}.

Record detector : Type := Detector {
  transform : list image → list image * list (nat * nat);
  backbone : list image → features;
  box_roi_pool : roi_args → list feature_map;
  mask_roi_pool : CacheInputOutput.t roi_args (list feature_map);
  mask_predictor : CacheInputOutput.t (list feature_map) (list (list prob_map));
  detect :
    CacheInputOutput.t roi_args (list feature_map) →
    CacheInputOutput.t (list feature_map) (list (list prob_map)) →
    list image →
    result (list detection
            * CacheInputOutput.t roi_args (list feature_map)
            * CacheInputOutput.t (list feature_map) (list (list prob_map)));
}.

(** The instance: the fields [__init__] sets.  Each branch is a function
    of one region's feature map. *)
Record t : Type := Build {
  training : bool;
  object_rotation_quat : option (list (list quaternion));
  num_rotation_clusters : nat;
  num_categories_with_bg : nat;
  rendered_view_encoder : image → vec;
  object_detector : detector;
  shape_embedding_branch : feature_map → vec;
  pose_classification_branch : feature_map → vec;
  pose_refinement_branch : feature_map → vec;
  center_regression_branch : feature_map → vec;
}.

(** The ground truth of a training batch: the keyword arguments that
    default to [None]. *)
Record targets : Type := Targets {
  category_idx : list (list nat);
  tshape_idx : list (list nat);
  bbox : list (list box);
  object_location : list (list location);
  tobject_rotation_quat : list (list quaternion);
}.

Inductive output : Type :=
| Loss (loss : fnum)
| Detections (detections : list detection).

Definition components (q : quaternion) : vec := [qx q; qy q; qz q; qw q].

(** *** Static methods *)

Definition cxcywh (b : box) : box :=
  let '(x1, y1, x2, y2) := b in
  let width := (x2 - x1)%R in
  let height := (y2 - y1)%R in
  let center_x := (x1 + width / 2)%R in
  let center_y := (y1 + height / 2)%R in
  (center_x, center_y, width, height).

(** The method indexes with [...]: it maps over whatever leads the last
    dimension, here (B, Q). *)
Definition xyxy_to_cxcywh (bbox : list (list box)) : list (list box) :=
  bq_map cxcywh bbox.

Definition compute_rotation_location_targets (self : t)
    (bbox : list (list box)) (object_location : list (list location))
    (object_rotation_quat0 : list (list quaternion)) (category_idx : list (list nat))
  : result (list (list nat) * list (list quaternion) * list (list (R * R))) :=
  anchors ← unwrap TypeError (object_rotation_quat self);
  anchor_quat ← for_each (for_each (index anchors)) category_idx;
  object_rotation_bins ←
    for_each (for_each argmin)
      (bq_map2 (λ q A, mjoin (quatcdist [q] A)) object_rotation_quat0 anchor_quat);
  anchor_quat ← gather_incomplete2 anchor_quat object_rotation_bins;
  let object_rotation_delta := bq_map2 quatprodinv anchor_quat object_rotation_quat0 in
  let center_delta :=
    bq_map2 (λ (l : location) (b : box),
      let '(lx, ly, _) := l in
      let '(center_x, center_y, width, height) := b in
      ((lx - center_x) / width, (ly - center_y) / height)%R)
      object_location (xyxy_to_cxcywh bbox) in
  Ok (object_rotation_bins, object_rotation_delta, center_delta).

(** [F.cross_entropy] of one row of logits against a class index. *)
Definition cross_entropy_row (logits : vec) (target : nat) : result fnum :=
  match logits !! target with
  | Some x => Ok (Fin (ln (Rsum (exp <$> logits)) - x))
  | None => Raise IndexError
  end.

Definition huber (delta x y : R) : R :=
  let d := Rabs (x - y) in
  if decide (d < delta)%R then (d * d / 2)%R else (delta * (d - delta / 2))%R.

(** [F.huber_loss(pred, true, delta = delta)], the mean over all elements. *)
Definition huber_loss (delta : R) (pred true : list R) : fnum :=
  fmean (Fin <$> zip_with (huber delta) pred true).

Definition pose_estimation_loss
    (pred_object_rotation_bins : list (list vec))
    (pred_object_rotation_delta : list (list vec))
    (pred_center_delta : list (list vec))
    (true_object_rotation_bins : list (list nat))
    (true_object_rotation_delta : list (list quaternion))
    (true_center_delta : list (list (R * R)))
    (delta : R)
  : result (fnum * fnum * fnum) :=
  rows ← for_each (λ '(logits, target), cross_entropy_row logits target)
           (zip (mjoin pred_object_rotation_bins) (mjoin true_object_rotation_bins));
  let pose_classification_loss := fmean rows in
  let pose_regression_loss :=
    huber_loss delta (mjoin (mjoin pred_object_rotation_delta))
      (mjoin (components <$> mjoin true_object_rotation_delta)) in
  let center_regression_loss :=
    huber_loss delta (mjoin (mjoin pred_center_delta))
      (mjoin ((λ '(dx, dy), [dx; dy]) <$> mjoin true_center_delta)) in
  Ok (pose_classification_loss, pose_regression_loss, center_regression_loss).

(** [idx.unsqueeze(-1).expand(-1, -1, V).reshape(1, -1)]: every entry
    repeated once per rendered view. *)
Definition expand_views (V : nat) (idx : list (list nat)) : list nat :=
  mjoin idx ≫= replicate V.

(** [idx.reshape(-1, 1) == expand_views V idx], a (B Q) x (B Q V) mask. *)
Definition same (V : nat) (idx : list (list nat)) : list (list bool) :=
  (λ i, (λ j, bool_decide (i = j)) <$> expand_views V idx) <$> mjoin idx.

(** [M.topk(k, dim = -1, largest = ...).values] on a matrix of [ncols]
    columns: of every row the [k] extreme values in sorted order; [k]
    beyond the columns is a [RuntimeError]. *)
Definition topk_rows (k : nat) (largest : bool) (ncols : nat) (M : list (list fnum))
  : result (list (list fnum)) :=
  if decide (k ≤ ncols) then
    Ok ((λ row, take k (if largest then merge_sort (flip fle) row
                        else merge_sort fle row)) <$> M)
  else Raise RuntimeError.

Definition shape_embedding_loss
    (img_region_features : list (list vec))
    (rendered_view_features : list (list (list vec)))
    (category_idx shape_idx : list (list nat))
    (C tau : R) (P N : nat) : result fnum :=
  let img_region_features := bq_map normalize img_region_features in
  let rendered_view_features := bq_map (λ views, normalize <$> views) rendered_view_features in
  let views := mjoin (mjoin rendered_view_features) in
  let D := (λ u, (λ v, dot u v / tau)%R <$> views) <$> mjoin img_region_features in
  let V := shape1 (mjoin rendered_view_features) in
  let same_shape := same V shape_idx in
  let same_category := same V category_idx in
  Dpos ← topk_rows P false (length views)
           (zip_with (λ m d, where_ m d PInf) same_shape D);
  Dneg ← topk_rows N true (length views)
           (zip_with (λ m d, where_ m d NInf) same_category D);
  let loss :=
    zip_with (λ dpos dneg,
      fneg (fsum ((λ p, flog (fdiv p (fadd p (fmul (Fin C) (fsum dneg))))) <$> dpos)))
      Dpos Dneg in
  Ok (fmean loss).

(** *** forward *)

Definition sigmoid (x : R) : R := (1 / (1 + exp (- x)))%R.

(** [F.interpolate(x, size)], nearest neighbour. *)
Definition interpolate (x : feature_map) (size : nat * nat) : feature_map :=
  (λ chan : list (list R),
     (λ i, let row := default [] (chan !! (i * length chan / size.1)) in
           (λ j, default 0%R (row !! (j * length row / size.2))) <$> seq 0 size.2)
     <$> seq 0 size.1) <$> x.

(** [x * p.unsqueeze(-3)]: every channel times the probability map. *)
Definition mask_mul (x : feature_map) (p : prob_map) : feature_map :=
  (λ chan, zip_with (zip_with Rmult) chan p) <$> x.

(** Lines 82-85: the four branches on the same [box_features], each
    unflattened to (B, Q) and, but for the embedding, to one slice per
    category. *)
Definition branches (self : t) (B Q : nat) (box_features : list feature_map)
  : result (list (list vec) * list (list (list vec)) * list (list (list vec))
            * list (list (list vec))) :=
  let per_category (width : nat) (out : list vec) :=
    t ← unflatten B Q out;
    for_each (for_each (unflatten (num_categories_with_bg self) width)) t in
  shape_embedding ← unflatten B Q (shape_embedding_branch self <$> box_features);
  object_rotation_bins ←
    per_category (num_rotation_clusters self) (pose_classification_branch self <$> box_features);
  object_rotation_delta ← per_category 4 (pose_refinement_branch self <$> box_features);
  center_delta ← per_category 2 (center_regression_branch self <$> box_features);
  Ok (shape_embedding, object_rotation_bins, object_rotation_delta, center_delta).

(** Line 96. *)
Definition weighted_loss (loss_weights : gmap string R)
    (shape_embedding_loss pose_classification_loss pose_regression_loss
       center_regression_loss : fnum) : result fnum :=
  w_shape ← getitem loss_weights "shape_embedding";
  w_class ← getitem loss_weights "pose_classification";
  w_rot ← getitem loss_weights "pose_regression";
  w_center ← getitem loss_weights "pose_regression";
  Ok (fadd (fadd (fadd (fmul (Fin w_shape) shape_embedding_loss)
                       (fmul (Fin w_class) pose_classification_loss))
                 (fmul (Fin w_rot) pose_regression_loss))
           (fmul (Fin w_center) center_regression_loss)).

(** The default of the keyword [loss_weights]. *)
Definition default_loss_weights : gmap string R :=
  list_to_map [("shape_embedding", 0.5%R); ("pose_classification", 0.25%R);
               ("pose_regression", 5%R)]%string.

(** The features the branches read when [self.training] holds
    (lines 68-70). *)
Definition training_box_features (self : t) (img : list image) (bbox : list (list box))
  : list feature_map :=
  let det := object_detector self in
  let images := transform det img in
  let img_features := backbone det images.1 in
  box_roi_pool det (img_features, bbox, images.2).

(** Lines 65-98 when [self.training] holds.  [rendered] holds, per image,
    the rendered views of all its boxes: [rendered.shape[-4] // Q] is the
    number [V] of views per box.  The ground truth is read first on line 70
    ([bbox.unbind()]). *)
Definition forward_training (self : t) (img : list image) (rendered : list (list image))
    (tg : option targets) (loss_weights : gmap string R) (P N : nat) : result output :=
  let B := length img in
  tg ← unwrap (AttributeError "unbind") tg;
  let box_features := training_box_features self img (bbox tg) in
  let Q := shape1 (bbox tg) in
  '(shape_embedding, object_rotation_bins, object_rotation_delta, center_delta) ←
    branches self B Q box_features;
  object_rotation_bins ← gather_incomplete2 object_rotation_bins (category_idx tg);
  object_rotation_delta ← gather_incomplete2 object_rotation_delta (category_idx tg);
  center_delta ← gather_incomplete2 center_delta (category_idx tg);
  V ← (if decide (Q = 0) then Raise ZeroDivisionError else Ok (shape1 rendered / Q));
  views ← unflatten (B * Q) V (rendered_view_encoder self <$> mjoin rendered);
  rendered_view_features ← unflatten B Q views;
  '(target_object_rotation_bins, target_object_rotation_delta, target_center_delta) ←
    compute_rotation_location_targets self (bbox tg) (object_location tg)
      (tobject_rotation_quat tg) (category_idx tg);
  shape_embedding_loss ←
    shape_embedding_loss shape_embedding rendered_view_features
      (category_idx tg) (tshape_idx tg) 1.5%R 0.15%R P N;
  '(pose_classification_loss, pose_regression_loss, center_regression_loss) ←
    pose_estimation_loss object_rotation_bins object_rotation_delta center_delta
      target_object_rotation_bins target_object_rotation_delta target_center_delta 0.15%R;
  loss ← weighted_loss loss_weights shape_embedding_loss pose_classification_loss
           pose_regression_loss center_regression_loss;
  Ok (Loss loss).

(** The features the branches read otherwise (lines 72-79), with the
    labels and boxes of the detections. *)
Definition eval_box_features (self : t) (img : list image)
  : result (list detection * list feature_map * list nat * list box) :=
  let det := object_detector self in
  '(detections, roi_pool, predictor) ← detect det (mask_roi_pool det) (mask_predictor det) img;
  args ← unwrap TypeError (CacheInputOutput.args roi_pool);
  let box_features := box_roi_pool det args in
  let mask_logits := CacheInputOutput.output predictor in
  category_idx ← cat (labels <$> detections);
  mask_logits ← unwrap (AttributeError "gather") mask_logits;
  mask_logits ← gather_incomplete mask_logits category_idx;
  let mask_probs := (λ m : prob_map, (λ row : list R, sigmoid <$> row) <$> m) <$> mask_logits in
  let size := (shape1 mask_probs, shape1 (default [] (head mask_probs))) in
  let box_features :=
    zip_with (λ x p, mask_mul (interpolate x size) p) box_features mask_probs in
  bbox ← cat (boxes <$> detections);
  Ok (detections, box_features, category_idx, bbox).

(** Calling what a bare name is bound to, on two tensors.  The name
    space holds modules and classes only: none is a function of two
    tensors. *)
Definition call (callee : pyobject) (a : list (list R)) (b : list (list vec))
  : result (list (list vec)) :=
  Raise TypeError.

(** Lines 72-101 when [self.training] does not hold: the detections and
    what the rotation composition and the location read. *)
Definition eval_predictions (self : t) (img : list image)
  : result (list detection * list box * list (list vec) * list (list R)
            * list (list vec) * list (list vec)) :=
  let B := length img in
  '(detections, box_features, category_idx, bbox) ← eval_box_features self img;
  (* bbox.shape[1] of the concatenated (n, 4) boxes *)
  let Q := 4 in
  '(shape_embedding, object_rotation_bins, object_rotation_delta, center_delta) ←
    branches self B Q box_features;
  object_rotation_bins ← gather_incomplete object_rotation_bins category_idx;
  object_rotation_delta ← gather_incomplete object_rotation_delta category_idx;
  center_delta ← gather_incomplete center_delta category_idx;
  anchors ← unwrap TypeError (object_rotation_quat self);
  anchor_quat ← for_each (index anchors) category_idx;
  bins ← for_each (for_each argmax) object_rotation_bins;
  anchor_quat ← gather_incomplete2 (bq_map components anchor_quat) bins;
  Ok (detections, bbox, shape_embedding, anchor_quat, object_rotation_delta, center_delta).

(** Lines 102-111: the name [quatprod] is resolved, called, and the
    detections are completed with location, rotation and embedding. *)
Definition forward_eval (self : t) (img : list image) (tg : option targets)
  : result output :=
  '(detections, bbox, shape_embedding, anchor_quat, object_rotation_delta, center_delta) ←
    eval_predictions self img;
  let num_boxes := (λ d, length (boxes d)) <$> detections in
  quatprod ← lookup_name "quatprod";
  object_rotation ← call quatprod anchor_quat object_rotation_delta;
  let boxes_cxcywh := cxcywh <$> bbox in
  tg ← unwrap TypeError tg;
  let object_location :=
    zip_with (λ (row : list vec) (zs : list location),
      zip_with (λ '(cd, z) '(center_x, center_y, width, height),
        (center_x + default 0 (cd !! 0%nat) * width,
         center_y + default 0 (cd !! 1%nat) * height, z.2)%R)
        (zip row zs) boxes_cxcywh)
      center_delta (object_location tg) in
  ls ← split object_location num_boxes;
  rs ← split object_rotation num_boxes;
  ss ← split shape_embedding num_boxes;
  Ok (Detections
        (zip_with (λ d '(l, r, s),
           Detection (boxes d) (labels d) (Some l) (Some r) (Some s) (shape_idx d))
           detections (zip (zip ls rs) ss))).

Definition forward (self : t) (img : list image) (rendered : list (list image))
    (tg : option targets) (loss_weights : gmap string R) (P N : nat) : result output :=
  if training self then forward_training self img rendered tg loss_weights P N
  else forward_eval self img tg.

(** *** reset_parameters *)

(** [bias[start::step] = v]: the entries at [start], [start + step], ... *)
Definition set_slice (start step : nat) (v : R) (bias : vec) : vec :=
  imap (λ i x, if decide (start ≤ i ∧ (i - start) mod step = 0) then v else x) bias.

(** Lines 60-62, on the bias of the last layer of
    [pose_refinement_branch]: [zero_()], then [bias[3::4] = quat_fill]. *)
Definition reset_parameters (quat_fill : R) (bias : vec) : vec :=
  set_slice 3 4 quat_fill ((λ _, 0%R) <$> bias).
End Mask2CAD.

(** ** class ShapeRetrieval *)

Module ShapeRetrieval.

(** What an attribute of the instance can hold. *)
Inductive attr : Type :=
| AModel (m : Mask2CAD.t)
| AList (rows : list vec)
| AIndices (idx : list nat)
| AVector (v : vec)
| AMatrix (m : list vec).

(** The instance is its attribute dictionary. *)
Abbreviation t := (gmap string attr).

Definition getattr (self : t) (name : string) : result attr :=
  match self !! name with
  | Some a => Ok a
  | None => Raise (AttributeError name)
  end.

(** One item of the rendered-views dataset: image, target dictionary (its
    index-tensor entries), views. *)
Abbreviation item := (image * gmap string (list nat) * list image)%type.

(** [self.<name>.extend(rows)]: iterating a tensor yields its rows. *)
Definition extend_rows (self : t) (name : string) (rows : list vec) : result t :=
  a ← getattr self name;
  match a with
  | AList l => Ok (<[name := AList (l ++ rows)]> self)
  | _ => Raise (AttributeError "extend")
  end.

Definition extend_indices (self : t) (name : string) (idx : list nat) : result t :=
  a ← getattr self name;
  match a with
  | AIndices l => Ok (<[name := AIndices (l ++ idx)]> self)
  | _ => Raise (AttributeError "extend")
  end.

(** The body of the loop, lines 17-18. *)
Definition collect (model : Mask2CAD.t) (self : t) (it : item) : result t :=
  let '(img, extra, views) := it in
  self ← extend_rows self "shape_embedding" (Mask2CAD.rendered_view_encoder model <$> views);
  shape_idx ← getitem extra "shape_idx";
  extend_indices self "shape_indices" shape_idx.

Fixpoint for_fold {S A} (f : S → A → result S) (s : S) (l : list A) : result S :=
  match l with
  | [] => Ok s
  | x :: l => s ← f s x; for_fold f s l
  end.

(** [torch.cat] of what an attribute holds: a list of one-dimensional
    tensors is joined end to end. *)
Definition cat_attr (a : attr) : result vec :=
  match a with
  | AList rows => cat rows
  | AIndices _ => Raise RuntimeError
  | _ => Raise TypeError
  end.

Definition __init__ (model : Mask2CAD.t) (rendered_views_dataset : list item) : result t :=
  let self : t := ∅ in
  let self := <["model" := AModel model]> self in
  let self := <["shape_embedding" := AList []]> self in
  let self := <["shape_indices" := AIndices []]> self in
  self ← for_fold (collect model) self rendered_views_dataset;
  shape_embedding ← getattr self "shape_embedding";
  shape_embedding ← cat_attr shape_embedding;
  let self := <["shape_embedding" := AVector (normalize shape_embedding)]> self in
  shape_idx ← getattr self "shape_idx";
  shape_idx ← cat_attr shape_idx;
  let self := <["shape_idx" := AVector shape_idx]> self in
  Ok self.

(** [self.shape_embedding.transpose(-2, -1)] wants two dimensions. *)
Definition catalog (self : t) : result (list vec) :=
  a ← getattr self "shape_embedding";
  match a with
  | AMatrix m => Ok m
  | AVector _ => Raise IndexError
  | _ => Raise (AttributeError "transpose")
  end.

(** Lines 24-31, on the detections the wrapped model returned. *)
Definition retrieve (self : t) (detections : list Mask2CAD.detection)
  : result (list Mask2CAD.detection) :=
  let num_boxes := (λ d, length (Mask2CAD.boxes d)) <$> detections in
  embeddings ←
    for_each (λ d, unwrap (KeyError "shape_embedding") (Mask2CAD.shape_embedding d))
      detections;
  shape_embedding ← cat embeddings;
  let shape_embedding := bq_map normalize shape_embedding in
  catalog ← catalog self;
  shape_idx ←
    for_each (for_each (λ e : vec, argmax ((λ v, dot e v) <$> catalog))) shape_embedding;
  idx ← split shape_idx num_boxes;
  Ok (zip_with (λ d i,
        Mask2CAD.Detection (Mask2CAD.boxes d) (Mask2CAD.labels d) (Mask2CAD.location3d d)
          (Mask2CAD.rotation3d_quat d) (Mask2CAD.shape_embedding d) (Some i))
        detections idx).

Definition forward (self : t) (img : list image) (rendered : list (list image))
    (tg : option Mask2CAD.targets) (loss_weights : gmap string R) (P N : nat)
  : result (list Mask2CAD.detection) :=
  model ← getattr self "model";
  model ← match model with
          | AModel m => Ok m
          | _ => Raise TypeError
          end;
  out ← Mask2CAD.forward model img rendered tg loss_weights P N;
  detections ← match out with
               | Mask2CAD.Detections ds => Ok ds
               | Mask2CAD.Loss _ => Raise TypeError
               end;
  retrieve self detections.
End ShapeRetrieval.

(** ** The contrastive objective as the specification words it

    Section 4.4 of the specification, to be compared with
    [Mask2CAD.shape_embedding_loss]: every detection and every rendered view
    carries a unit embedding; a view has the shape and the category of the
    detection it was rendered for. *)

Module Spec.
Record detection : Type := Detection {
  det_embed : vec;
  det_shape : nat;
  det_category : nat;
}.

Record view : Type := View {
  view_embed : vec;
  view_shape : nat;
  view_category : nat;
}.

(** Step 1: the batch, every embedding L2-normalized. *)
Definition detections (img_region_features : list (list vec))
    (category_idx shape_idx : list (list nat)) : list detection :=
  zip_with (λ e '(s, c), Detection (normalize e) s c)
    (mjoin img_region_features) (zip (mjoin shape_idx) (mjoin category_idx)).

Definition views (rendered_view_features : list (list (list vec)))
    (category_idx shape_idx : list (list nat)) : list view :=
  mjoin (zip_with (λ (vs : list vec) '(s, c), (λ v, View (normalize v) s c) <$> vs)
            (mjoin rendered_view_features)
            (zip (mjoin shape_idx) (mjoin category_idx))).

(** Step 2: one entry of the cross similarity matrix. *)
Definition similarity (temperature : R) (d : detection) (v : view) : R :=
  (dot (det_embed d) (view_embed v) / temperature)%R.

(** Step 3: the similarities of a detection to the views of its shape,
    and to the views of its category. *)
Definition same_shape_similarities (temperature : R) (vs : list view) (d : detection)
  : list R :=
  similarity temperature d <$> filter (λ v, det_shape d = view_shape v) vs.

Definition same_category_similarities (temperature : R) (vs : list view) (d : detection)
  : list R :=
  similarity temperature d <$> filter (λ v, det_category d = view_category v) vs.

(** Step 4: the [P] smallest similarities among the views of the
    detection's shape. *)
Definition hardest_positives (temperature : R) (P : nat) (vs : list view) (d : detection)
  : list R :=
  take P (merge_sort Rle (same_shape_similarities temperature vs d)).

(** Step 5: the [N] largest similarities among the views of the
    detection's category. *)
Definition hardest_negatives (temperature : R) (N : nat) (vs : list view) (d : detection)
  : list R :=
  take N (merge_sort (flip Rle) (same_category_similarities temperature vs d)).

(** Step 6: [-log(Dpos / (Dpos + C * sum(Dneg)))] summed over the
    positives of a detection, then averaged over the detections. *)
Definition detection_loss (C temperature : R) (P N : nat) (vs : list view) (d : detection)
  : fnum :=
  let Dneg := hardest_negatives temperature N vs d in
  fsum ((λ Dpos, fneg (flog (fdiv (Fin Dpos) (Fin (Dpos + C * Rsum Dneg)))))
          <$> hardest_positives temperature P vs d).

Definition shape_embedding_loss
    (img_region_features : list (list vec))
    (rendered_view_features : list (list (list vec)))
    (category_idx shape_idx : list (list nat))
    (C temperature : R) (P N : nat) : fnum :=
  let vs := views rendered_view_features category_idx shape_idx in
  fmean (detection_loss C temperature P N vs
           <$> detections img_region_features category_idx shape_idx).

(** Every detection comes with [V] rendered views, and the four tensors
    have the same (B, Q). *)
Definition well_shaped
    (img_region_features : list (list vec))
    (rendered_view_features : list (list (list vec)))
    (category_idx shape_idx : list (list nat)) : Prop :=
  let V := shape1 (mjoin rendered_view_features) in
  length (mjoin category_idx) = length (mjoin img_region_features)
  ∧ length (mjoin shape_idx) = length (mjoin img_region_features)
  ∧ length (mjoin rendered_view_features) = length (mjoin img_region_features)
  ∧ Forall (λ vs, length vs = V) (mjoin rendered_view_features).
End Spec.

(** [t[b][q]] of a tensor with leading (B, Q). *)
Definition at_ {A} (t : list (list A)) (b q : nat) : option A :=
  t !! b ≫= (.!! q).

(** ** A small instance

    One category with one anchor, branches that answer constants, and a
    detector that reports one box per image. *)

Module Examples.
Import quat.

Definition one_map : feature_map := [[[1%R]]].

Definition pool : roi_args → list feature_map :=
  λ '(_, boxes, _), (λ _, one_map) <$> mjoin boxes.

Definition example_detector : Mask2CAD.detector :=
  {| Mask2CAD.transform := λ img, (img, (λ _, (1, 1)) <$> img);
     Mask2CAD.backbone := λ img, img;
     Mask2CAD.box_roi_pool := pool;
     Mask2CAD.mask_roi_pool := CacheInputOutput.init pool;
     Mask2CAD.mask_predictor :=
       CacheInputOutput.init (λ maps, (λ _, [[[0%R]]]) <$> maps);
     Mask2CAD.detect := λ roi_pool predictor img,
       let detections :=
         (λ _, Mask2CAD.Detection [(0, 0, 2, 2)%R] [0] None None None None) <$> img in
       let '(roi_pool, pooled) :=
         CacheInputOutput.forward roi_pool
           (img, Mask2CAD.boxes <$> detections, (λ _, (1, 1)) <$> img) in
       let '(predictor, _) := CacheInputOutput.forward predictor pooled in
       Ok (detections, roi_pool, predictor) |}.

Definition example_model (training : bool) : Mask2CAD.t :=
  {| Mask2CAD.training := training;
     Mask2CAD.object_rotation_quat := Some [[identity]];
     Mask2CAD.num_rotation_clusters := 1;
     Mask2CAD.num_categories_with_bg := 1;
     Mask2CAD.rendered_view_encoder := λ _, [1%R];
     Mask2CAD.object_detector := example_detector;
     Mask2CAD.shape_embedding_branch := λ _, [1%R];
     Mask2CAD.pose_classification_branch := λ _, [0%R];
     Mask2CAD.pose_refinement_branch := λ _, [0; 0; 0; 1]%R;
     Mask2CAD.center_regression_branch := λ _, [0; 0]%R |}.

Definition example_image : image := [[[0%R]]].

Definition example_targets : Mask2CAD.targets :=
  {| Mask2CAD.category_idx := [[0]];
     Mask2CAD.tshape_idx := [[0]];
     Mask2CAD.bbox := [[(0, 0, 2, 2)%R]];
     Mask2CAD.object_location := [[(1, 1, 5)%R]];
     Mask2CAD.tobject_rotation_quat := [[identity]] |}.
End Examples.

(** * datasets.py: samplers and datasets *)

(** ** Python dictionaries

    A [dict] keeps its keys in insertion order, and assigning to a key
    that is there keeps the key's place: an association list with unique
    keys. *)

Module dict.
Section dict.
Context {K V : Type} `{EqDecision K}.

Fixpoint set (d : list (K * V)) (k : K) (v : V) : list (K * V) :=
  match d with
  | [] => [(k, v)]
  | (k', v') :: d => if decide (k = k') then (k, v) :: d else (k', v') :: set d k v
  end.

Fixpoint get (d : list (K * V)) (k : K) : option V :=
  match d with
  | [] => None
  | (k', v) :: d => if decide (k = k') then Some v else get d k
  end.

(** [{k: v for k, v in kvs}]. *)
Definition comprehension (kvs : list (K * V)) : list (K * V) :=
  foldl (λ d '(k, v), set d k v) [] kvs.

Definition keys (d : list (K * V)) : list K := d.*1.
Definition values (d : list (K * V)) : list V := d.*2.
End dict.
End dict.

(** [enumerate(l)]. *)
Definition enumerate {A} (l : list A) : list (nat * A) := imap (λ i x, (i, x)) l.

(** ** class RenderedViewsSequentialSampler *)

Module RenderedViewsSequentialSampler.
Record t : Type := Build {
  num_examples : nat;
  num_rendered_views : nat;
  idx : list (list nat);
}.

(** [arange(1, 1 + num_rendered_views)], one copy per example. *)
Definition __init__ (num_examples num_rendered_views : nat) : t :=
  Build num_examples num_rendered_views
    (replicate num_examples (seq 1 num_rendered_views)).

Definition __iter__ (self : t) : list (list nat) := idx self.
Definition __len__ (self : t) : nat := length (idx self).
End RenderedViewsSequentialSampler.

(** ** class RenderedViewsRandomSampler *)

(** [row.argsort()]: the positions of the entries in ascending order of
    their values.  Equal values come in the order of the merge sort; torch
    leaves their order open. *)
Definition argsort (row : list R) : list nat :=
  (merge_sort (λ a b : R * nat, a.1 <= b.1)%R (zip row (seq 0 (length row)))).*2.

(** [t.reshape(n, -1)] of a matrix: the entries in row-major order, cut
    into [n] rows.  The row length must be determined. *)
Definition reshape_rows {A} (n : nat) (t : list (list A)) : result (list (list A)) :=
  let flat := mjoin t in
  if decide (n = 0) then Raise RuntimeError
  else if decide (length flat mod n = 0) then Ok (chunks n (length flat / n) flat)
  else Raise RuntimeError.

Module RenderedViewsRandomSampler.
Record t : Type := Build {
  num_examples : nat;
  num_rendered_views : nat;
  num_sampled_views : nat;
  num_sampled_boxes : nat;
  idx : option (list (list nat));
}.

Definition __init__ (num_examples num_rendered_views num_sampled_views num_sampled_boxes : nat)
  : t :=
  Build num_examples num_rendered_views num_sampled_views num_sampled_boxes None.

(** [rand seed rows columns] stands for [torch.rand(rows, columns,
    generator = rng)] with [rng] seeded by [seed]. *)
Definition set_epoch (rand : nat → nat → nat → list (list R)) (self : t) (epoch : nat)
  : result t :=
  let example_idx := seq 0 (num_examples self) in
  let u := rand epoch (num_examples self * num_sampled_boxes self) (num_rendered_views self) in
  let sampled := (λ row, take (num_sampled_views self) (argsort row)) <$> u in
  novel_view_idx ← reshape_rows (num_examples self) sampled;
  let novel_view_idx := (λ row : list nat, S <$> row) <$> novel_view_idx in
  Ok (Build (num_examples self) (num_rendered_views self) (num_sampled_views self)
        (num_sampled_boxes self) (Some (zip_with cons example_idx novel_view_idx))).

(** [self.idx.tolist()] and [len(self.idx)]; [idx] is [None] until
    [set_epoch] has run. *)
Definition __iter__ (self : t) : result (list (list nat)) :=
  unwrap (AttributeError "tolist") (idx self).
Definition __len__ (self : t) : result nat :=
  unwrap TypeError (length <$> idx self).
End RenderedViewsRandomSampler.

(** ** class UniqueShapeRenderedViewsSequentialSampler *)

Module UniqueShapeRenderedViewsSequentialSampler.
Record t : Type := Build { idx : list (list nat) }.

(** [models] are the [m['model']] of [dataset.dataset.metadata], in
    order. *)
Definition __init__ (models : list string) (num_rendered_views : nat) : t :=
  let shape2idx := dict.comprehension ((λ '(i, m), (m, i)) <$> enumerate models) in
  Build ((λ i, i :: seq 1 num_rendered_views) <$> dict.values shape2idx).

Definition __iter__ (self : t) : list (list nat) := idx self.
Definition __len__ (self : t) : nat := length (idx self).
End UniqueShapeRenderedViewsSequentialSampler.

(** ** class RenderedViews *)

(** What a target dictionary holds. *)
Inductive value : Type :=
| VStr (s : string)
| VInts (l : list Z)
| VFloats (t : list (list R))
| VMasks (t : list (list (list bool))).

Abbreviation target := (gmap string value).

(** [torch.stack(ts)]: at least one tensor, all of one shape ([shape]
    gives the shape of an entry). *)
Definition stack {A} (shape : A → list nat) (ts : list A) : result (list A) :=
  match ts with
  | [] => Raise RuntimeError
  | t :: _ => if decide (Forall (λ t', shape t' = shape t) ts) then Ok ts
              else Raise RuntimeError
  end.

(** The shape (C, H, W) of an image. *)
Definition image_shape (x : image) : list nat :=
  [length x; shape1 x; shape1 (default [] (head x))].

Module RenderedViews.

(** What the class asks of the operating system and of the libraries:
    [os.path], [torchvision.io.read_image], [str.replace] and the
    formatting [f'{k:04}']. *)
Record library : Type := Library {
  join : string → string → string;
  exists_ : string → bool;
  dirname : string → string;
  basename : string → string;
  replace : string → string → string → string;
  read_image : string → result image;
  format04 : nat → string;
}.

(** The instance; [dataset] is the [__getitem__] of the wrapped dataset
    and [len_dataset] its [__len__]. *)
Record t : Type := Build {
  root : string;
  dataset : nat → result (image * target);
  len_dataset : nat;
  ext : string;
}.

(** The local functions of [__getitem__]. *)
Definition or_jpg (lib : library) (path : string) : result image :=
  read_image lib (if exists_ lib path then path else replace lib path ".png" ".jpg").

Definition no_img (idx : list nat) : list nat := filter (λ k, 0 < k) idx.

Definition fixup (lib : library) (path : string) : string :=
  if exists_ lib path then path
  else join lib (join lib (dirname lib (dirname lib path)) "model.obj") (basename lib path).

(** [d[key]] where a string is wanted. *)
Definition getstr (d : target) (key : string) : result string :=
  v ← getitem d key;
  match v with
  | VStr s => Ok s
  | _ => Raise TypeError
  end.

(** [views.expand(-1, 3, -1, -1)] on one view: three channels from one or
    from three. *)
Definition expand3 (view : image) : result image :=
  match view with
  | [c] => Ok [c; c; c]
  | [_; _; _] => Ok view
  | _ => Raise RuntimeError
  end.

(** [views / 255.0]. *)
Definition div255 (views : list image) : list image :=
  (λ view : image, bq_map (λ row : list R, (λ x, x / 255)%R <$> row) view) <$> views.

(** Lines 70-77 of [__getitem__]: the views numbered [ks] of the shape
    that the target names, stacked, with three channels, in [0, 1]. *)
Definition read_views (lib : library) (self : t) (extra : target) (ks : list nat)
  : result (list image) :=
  shape_path ← getstr extra "shape_path";
  let view_dir := join lib (root self) shape_path in
  views ← for_each (λ k,
             if decide (k = 0) then
               image_id ← getstr extra "image_id";
               or_jpg lib (join lib (root self) image_id)
             else or_jpg lib (fixup lib (join lib view_dir (format04 lib k +:+ ext self))))
             ks;
  views ← stack image_shape views;
  views ← for_each expand3 views;
  Ok (div255 views).

Definition __getitem__ (lib : library) (self : t) (idx : list nat)
  : result (image * target * list image) :=
  i ← index idx 0;
  '(img, extra) ← dataset self i;
  views ← read_views lib self extra (no_img (drop 1 idx));
  Ok (img, extra, views).

Definition __len__ (self : t) : nat := len_dataset self.
End RenderedViews.

(** ** Further exceptions

    [datasets.py] meets exception classes that [models.py] does not: a
    failed [assert], and [min] and [max] of nothing. *)

Inductive pyexn : Type :=
| Builtin (e : exn)
| AssertionError
| ValueError.

Inductive outcome (A : Type) : Type :=
| Return (a : A)
| Throw (e : pyexn).
Arguments Return {A} a.
Arguments Throw {A} e.

#[global] Instance outcome_ret : MRet outcome := λ A a, Return a.
#[global] Instance outcome_bind : MBind outcome := λ A B f m,
  match m with
  | Return a => f a
  | Throw e => Throw e
  end.

(** A call that raises one of the exceptions of [models.py]. *)
Definition lift {A} (r : result A) : outcome A :=
  match r with
  | Ok a => Return a
  | Raise e => Throw (Builtin e)
  end.

(** [assert b]. *)
Definition assert (b : bool) : outcome unit :=
  if b then Return () else Throw AssertionError.

(** [[f(x) for x in l]]. *)
Fixpoint comprehend {A B} (f : A → outcome B) (l : list A) : outcome (list B) :=
  match l with
  | [] => Return []
  | x :: l => y ← f x; ys ← comprehend f l; Return (y :: ys)
  end.

(** [all(f(x) for x in l)]: stops at the first false. *)
Fixpoint all_ {A} (f : A → outcome bool) (l : list A) : outcome bool :=
  match l with
  | [] => Return true
  | x :: l => b ← f x; if b : bool then all_ f l else Return false
  end.

(** [[x for x in l if f(x)]]. *)
Fixpoint select {A} (f : A → outcome bool) (l : list A) : outcome (list A) :=
  match l with
  | [] => Return []
  | x :: l => b ← f x; xs ← select f l; Return (if b : bool then x :: xs else xs)
  end.

(** [l[i]] for a Python integer: a negative index counts from the end. *)
Definition pyindex {A} (l : list A) (i : Z) : outcome A :=
  let n := Z.of_nat (length l) in
  if decide (0 ≤ i < n)%Z then lift (index l (Z.to_nat i))
  else if decide (- n ≤ i < 0)%Z then lift (index l (Z.to_nat (n + i)))
  else Throw (Builtin IndexError).

(** [min(l)] and [max(l)]. *)
Definition min_ (l : list Z) : outcome Z :=
  match l with
  | [] => Throw ValueError
  | x :: l => Return (foldl Z.min x l)
  end.
Definition max_ (l : list Z) : outcome Z :=
  match l with
  | [] => Throw ValueError
  | x :: l => Return (foldl Z.max x l)
  end.

(** [collections.Counter(l)]. *)
Definition Counter {K} `{EqDecision K} (l : list K) : list (K * nat) :=
  foldl (λ d x, dict.set d x (S (default 0 (dict.get d x)))) [] l.

(** The order of [sorted] on strings: by code points. *)
Definition str_le (s1 s2 : string) : Prop := String.leb s1 s2 = true.
#[global] Instance str_le_dec s1 s2 : Decision (str_le s1 s2).
Proof. unfold str_le. apply _. Defined.

(** [sorted(set(l))]. *)
Definition sorted_set (l : list string) : list string :=
  merge_sort str_le (remove_dups l).

(** ** class Pix3d *)

Module Pix3d.

Definition categories : list string :=
  ["bed"; "bookcase"; "chair"; "desk"; "misc"; "sofa"; "table"; "tool"; "wardrobe"].
Definition categories_coco_inds : list Z := [65; -1; 63; -1; -1; 63; 67; -1; -1]%Z.

(** One object of the metadata, with the keys the class reads.  The
    numbers of boxes and image sizes are integers. *)
Record entry : Type := Entry {
  img : string;
  img_size : list Z;
  bbox : list Z;
  mask : string;
  model : string;
  category : string;
  rot_mat : list (list R);
  trans_mat : list R;
  focal_length : R;
}.

(** A split file in the COCO layout: its images and its annotations. *)
Record split_image : Type := SplitImage {
  image_key : Z;
  file_name : string;
  width : Z;
  height : Z;
}.

Record annotation : Type := Annotation {
  a_bbox : list Z;
  segmentation : string;
  a_model : string;
  a_rot_mat : list (list R);
  a_trans_mat : list R;
  category_id : Z;
  K : list R;
  image_id : Z;
}.

Record split : Type := Split {
  images : list split_image;
  annotations : list annotation;
}.

(** An entry of [image_idx]. *)
Record image_info : Type := ImageInfo {
  info_m : entry;
  info_file_name : string;
  info_width : Z;
  info_height : Z;
}.

(** The instance. *)
Record t : Type := Build {
  root : string;
  target_image_size : option (list Z);
  read_image : bool;
  read_mask : bool;
  shape_idx : list (string * nat);
  category_idx : list (string * nat);
  metadata : list entry;
  image_idx : list (string * image_info);
  num_by_category : list (nat * nat);
  width_min_max : Z * Z;
  height_min_max : Z * Z;
  aspect_ratios : list R;
}.

(** [d[key]] on a dictionary in insertion order. *)
Definition lookup_key {K V} `{EqDecision K} (name : K → string) (d : list (K * V)) (key : K)
  : outcome V :=
  match dict.get d key with
  | Some v => Return v
  | None => Throw (Builtin (KeyError (name key)))
  end.

(** Line 102: the entry made of one annotation of the split. *)
Definition entry_of_annotation (images : list (Z * (string * list Z))) (a : annotation)
  : outcome entry :=
  x ← lift (index (a_bbox a) 0);
  w ← lift (index (a_bbox a) 2);
  y ← lift (index (a_bbox a) 1);
  h ← lift (index (a_bbox a) 3);
  let bbox := take 2 (a_bbox a) ++ [x + w - 1; y + h - 1]%Z in
  category ← pyindex categories (category_id a - 1);
  k0 ← lift (index (K a) 0);
  image ← lookup_key pretty images (image_id a);
  image_width ← lift (index image.2 0);
  focal_length ←
    (if decide (image_width = 0)%Z then Throw (Builtin ZeroDivisionError)
     else Return (k0 * 32 / IZR image_width)%R);
  image' ← lookup_key pretty images (image_id a);
  Return (Entry image'.1 image'.2 bbox (segmentation a) (a_model a) category
            (a_rot_mat a) (a_trans_mat a) focal_length).

(** Line 101: the images of the split by their id. *)
Definition images_by_id (images : list split_image) : list (Z * (string * list Z)) :=
  dict.comprehension ((λ i, (image_key i, (file_name i, [width i; height i]))) <$> images).

(** Line 106. *)
Definition bbox_ordered (m : entry) : outcome bool :=
  x1 ← lift (index (bbox m) 0);
  x2 ← lift (index (bbox m) 2);
  if decide (x1 ≤ x2)%Z then
    y1 ← lift (index (bbox m) 1);
    y2 ← lift (index (bbox m) 3);
    Return (bool_decide (y1 ≤ y2)%Z)
  else Return false.

(** Line 108: [max_image_size and sum(max_image_size)], as a truth
    value. *)
Definition drop_image_size (max_image_size : option (list Z)) : bool :=
  match max_image_size with
  | None | Some [] => false
  | Some l => bool_decide (foldr Z.add 0%Z l ≠ 0%Z)
  end.

(** Line 109: the condition of the filter. *)
Definition kept (drop_images : list string) (max_image_size : option (list Z)) (m : entry)
  : outcome bool :=
  if decide (img m ∈ drop_images) then Return false
  else if negb (drop_image_size max_image_size) then Return true
  else
    w ← lift (index (img_size m) 0);
    max_w ← lift (index (default [] max_image_size) 0);
    if decide (w ≤ max_w)%Z then
      h ← lift (index (img_size m) 1);
      max_h ← lift (index (default [] max_image_size) 1);
      Return (bool_decide (h ≤ max_h)%Z)
    else Return false.

Definition the_category_idx : list (string * nat) :=
  dict.comprehension ((λ '(i, category), (category, i)) <$> enumerate categories).

(** [__init__], from the parsed [pix3d.json] ([metadata_full]) and the
    parsed split file when [split_path] is given. *)
Definition __init__ (root : string) (metadata_full : list entry) (split : option split)
    (max_image_size : option (list Z)) (target_image_size : option (list Z))
    (drop_images : list string) (read_image read_mask : bool) : outcome t :=
  assert (bool_decide
            ((list_to_set (dict.values (Counter (img <$> metadata_full))) : gset nat) = {[1]}));;
  let shape_idx :=
    dict.comprehension ((λ '(i, t), (t, i)) <$> enumerate (sorted_set (model <$> metadata_full))) in
  let category_idx := the_category_idx in
  metadata ←
    match split with
    | Some split =>
        let images := images_by_id (images split) in
        comprehend (entry_of_annotation images) (annotations split)
    | None => Return metadata_full
    end;
  ordered ← all_ bbox_ordered metadata;
  assert ordered;;
  metadata ← select (kept drop_images max_image_size) metadata;
  image_idx ←
    comprehend (λ m,
      w ← lift (index (img_size m) 0);
      h ← lift (index (img_size m) 1);
      Return (img m, ImageInfo m (img m) w h)) metadata;
  let image_idx := dict.comprehension image_idx in
  by_category ← comprehend (λ m, lookup_key (λ key : string, key) category_idx (category m)) metadata;
  let num_by_category := Counter by_category in
  widths ← comprehend (λ m, lift (index (img_size m) 0)) metadata;
  width_min ← min_ widths;
  width_max ← max_ widths;
  heights ← comprehend (λ m, lift (index (img_size m) 1)) metadata;
  height_min ← min_ heights;
  height_max ← max_ heights;
  aspect_ratios ←
    comprehend (λ m,
      w ← lift (index (img_size m) 0);
      h ← lift (index (img_size m) 1);
      if decide (h = 0)%Z then Throw (Builtin ZeroDivisionError)
      else Return (IZR w / IZR h)%R) metadata;
  Return (Build root target_image_size read_image read_mask shape_idx category_idx metadata
            image_idx num_by_category (width_min, width_max) (height_min, height_max)
            aspect_ratios).

Definition __len__ (self : t) : nat := length (metadata self).

Definition getCatIds (self : t) : list Z := Z.of_nat <$> seq 0 (length categories).

(** [loadCats]: a dictionary with the one key [name] for every id. *)
Definition loadCats (self : t) (ids : list Z) : outcome (list string) :=
  comprehend (pyindex categories) ids.

Definition loadImgs (self : t) (ids : list string) : outcome (list image_info) :=
  comprehend (lookup_key (λ key : string, key) (image_idx self)) ids.

Definition getAnnIds (self : t) (imgIds : list string) : list string := imgIds.

(** What [loadAnns] and [as_coco_dataset] give for one entry. *)
Record loaded_annotation : Type := LoadedAnnotation {
  l_image_id : string;
  l_segmentation : string;
  l_rot_mat : list (list R);
  l_trans_mat : list R;
  l_model : string;
  l_category_id : nat;
  l_bbox : list Z;
  l_K : list R;
}.

(** Line 198, for one id.  The call first stops in the debugger
    ([breakpoint()]); this is what it returns when resumed. *)
Definition loadAnn (self : t) (i : string) : outcome loaded_annotation :=
  info ← lookup_key (λ key : string, key) (image_idx self) i;
  let m := info_m info in
  category_id ← lookup_key (λ key : string, key) (category_idx self) (category m);
  x2 ← lift (index (bbox m) 2);
  x1 ← lift (index (bbox m) 0);
  y2 ← lift (index (bbox m) 3);
  y1 ← lift (index (bbox m) 1);
  w ← lift (index (img_size m) 0);
  h ← lift (index (img_size m) 1);
  Return (LoadedAnnotation i (mask m) (rot_mat m) (trans_mat m) (model m) category_id
            (take 2 (bbox m) ++ [x2 - x1 + 1; y2 - y1 + 1]%Z)
            [focal_length m * IZR w / 32; IZR w / 2; IZR h / 2]%R).

Definition loadAnns (self : t) (ids : list string) : outcome (list loaded_annotation) :=
  comprehend (loadAnn self) ids.

Record coco_image : Type := CocoImage {
  c_id : string;
  c_height : Z;
  c_width : Z;
}.

Record coco_annotation (rle : Type) : Type := CocoAnnotation {
  ann_id : nat;
  ann_image_id : string;
  ann_bbox : list Z;
  ann_iscrowd : nat;
  ann_area : Z;
  ann_category_id : nat;
  ann_segmentation : rle;
}.
Arguments CocoAnnotation {rle} _ _ _ _ _ _ _.
Arguments ann_id {rle} _.
Arguments ann_image_id {rle} _.
Arguments ann_bbox {rle} _.
Arguments ann_iscrowd {rle} _.
Arguments ann_area {rle} _.
Arguments ann_category_id {rle} _.
Arguments ann_segmentation {rle} _.

Record coco_dataset (rle : Type) : Type := CocoDataset {
  coco_images : list coco_image;
  coco_categories : list (nat * string);
  coco_annotations : list (coco_annotation rle);
}.
Arguments CocoDataset {rle} _ _ _.
Arguments coco_images {rle} _.
Arguments coco_categories {rle} _.
Arguments coco_annotations {rle} _.

(** Line 176, for one entry; [encode_mask] reads the mask file and
    encodes it ([pycocotools.mask.encode] of [read_image]). *)
Definition annotation_of_entry {rle} (encode_mask : string → outcome rle) (self : t)
    (image_idx : nat) (m : entry) : outcome (coco_annotation rle) :=
  x1 ← lift (index (bbox m) 0);
  y1 ← lift (index (bbox m) 1);
  x2 ← lift (index (bbox m) 2);
  y2 ← lift (index (bbox m) 3);
  category_id ← lookup_key (λ key : string, key) (category_idx self) (category m);
  segmentation ← encode_mask (mask m);
  Return (CocoAnnotation (1 + image_idx) (img m) [x1; y1; x2 - x1; y2 - y1]%Z 0
            ((x2 - x1) * (y2 - y1))%Z (1 + category_id) segmentation).

(** [as_coco_dataset]: the dictionary handed to [pycocotools.coco.COCO]. *)
Definition as_coco_dataset {rle} (encode_mask : string → outcome rle) (self : t)
  : outcome (coco_dataset rle) :=
  images ←
    comprehend (λ m,
      h ← lift (index (img_size m) 1);
      w ← lift (index (img_size m) 0);
      Return (CocoImage (img m) h w)) (metadata self);
  let categories := (λ '(category_idx, category), (1 + category_idx, category))
                      <$> enumerate categories in
  annotations ←
    comprehend (λ '(image_idx, m), annotation_of_entry encode_mask self image_idx m)
      (enumerate (metadata self));
  Return (CocoDataset images categories annotations).
End Pix3d.

(** ** A small data set

    Two photographs of chairs, a split file that lists the first of them,
    and a file system where every path is there and every image has one
    white pixel. *)

Module DatasetExamples.

Definition example_library : RenderedViews.library :=
  {| RenderedViews.join := λ a b, a +:+ "/" +:+ b;
     RenderedViews.exists_ := λ _, true;
     RenderedViews.dirname := λ path, path;
     RenderedViews.basename := λ path, path;
     RenderedViews.replace := λ path _ _, path;
     RenderedViews.read_image := λ _, Ok [[[255%R]]];
     RenderedViews.format04 := λ k, "000" +:+ pretty k |}.

Definition example_target (image_id : string) : target :=
  {[ "image_id" := VStr image_id; "shape_path" := VStr "model/chair/a/model.obj" ]}.

Definition example_views : RenderedViews.t :=
  RenderedViews.Build "data"
    (λ i, Ok (Examples.example_image, example_target "img/chair/0001.png")) 2 ".jpg".

Definition example_entry (img model : string) : Pix3d.entry :=
  Pix3d.Entry img [640; 480]%Z [10; 20; 110; 220]%Z "mask/chair/0001.png" model "chair"
    [[1; 0; 0]; [0; 1; 0]; [0; 0; 1]]%R [0; 0; 1]%R 35%R.

Definition example_metadata : list Pix3d.entry :=
  [example_entry "img/chair/0001.png" "model/chair/b/model.obj";
   example_entry "img/chair/0002.png" "model/chair/a/model.obj"].

Definition example_annotation : Pix3d.annotation :=
  Pix3d.Annotation [10; 20; 101; 201]%Z "mask/chair/0001.png" "model/chair/b/model.obj"
    [[1; 0; 0]; [0; 1; 0]; [0; 0; 1]]%R [0; 0; 1]%R 3 [700; 320; 240]%R 7.

Definition example_split : Pix3d.split :=
  Pix3d.Split [Pix3d.SplitImage 7 "img/chair/0001.png" 640 480] [example_annotation].

(** The entry that line 102 makes of the annotation. *)
Definition example_split_entry : Pix3d.entry :=
  Pix3d.Entry "img/chair/0001.png" [640; 480]%Z [10; 20; 110; 220]%Z "mask/chair/0001.png"
    "model/chair/b/model.obj" "chair" [[1; 0; 0]; [0; 1; 0]; [0; 0; 1]]%R [0; 0; 1]%R
    (700 * 32 / IZR 640)%R.

(** An instance that holds this one entry. *)
Definition example_pix3d : Pix3d.t :=
  Pix3d.Build "data" None true true [("model/chair/b/model.obj", 0)] Pix3d.the_category_idx
    [example_split_entry]
    [("img/chair/0001.png", Pix3d.ImageInfo example_split_entry "img/chair/0001.png" 640 480)]
    [(2, 1)] (640, 640)%Z (480, 480)%Z [(IZR 640 / IZR 480)%R].
End DatasetExamples.

(** ** The instance of [ShapeRetrieval] when line 20 is reached *)

Module ShapeRetrievalCatalog.
Import ShapeRetrieval.

(** Lines 12-19 of [ShapeRetrieval.__init__]: the attributes as they are
    when line 20 is about to run. *)
Definition lines_12_19 (model : Mask2CAD.t) (rendered_views_dataset : list item)
  : result t :=
  let self : t := ∅ in
  let self := <["model" := AModel model]> self in
  let self := <["shape_embedding" := AList []]> self in
  let self := <["shape_indices" := AIndices []]> self in
  self ← for_fold (collect model) self rendered_views_dataset;
  shape_embedding ← getattr self "shape_embedding";
  shape_embedding ← cat_attr shape_embedding;
  Ok (<["shape_embedding" := AVector (normalize shape_embedding)]> self).

(** Building the catalog, then one query: [ShapeRetrieval(model,
    dataset)(img, ...)]. *)
Definition query (model : Mask2CAD.t) (rendered_views_dataset : list item)
    (img : list image) (rendered : list (list image)) (tg : option Mask2CAD.targets)
    (loss_weights : gmap string R) (P N : nat) : result (list Mask2CAD.detection) :=
  self ← __init__ model rendered_views_dataset;
  forward self img rendered tg loss_weights P N.
End ShapeRetrievalCatalog.

(** ** Two anchors, two catalog entries

    A model with the two rotation anchors (0, 0, 0, 1) and (1, 0, 0, 0)
    for its one category, whose view encoder answers v1 = [1, 0] on a
    view with one channel and v2 = [0, 1] on any other; and a
    rendered-views dataset with one view of the shape 5 and one of the
    shape 9. *)

Module RotationExamples.
Import quat.

Definition gray_view : image := [[[0%R]]].
Definition colour_view : image := [[[0%R]]; [[0%R]]; [[0%R]]].

Definition view_encoder (view : image) : vec :=
  if decide (length view = 1) then [1; 0]%R else [0; 1]%R.

Definition two_anchor_model (training : bool) : Mask2CAD.t :=
  {| Mask2CAD.training := training;
     Mask2CAD.object_rotation_quat := Some [[identity; Quat 1 0 0 0]];
     Mask2CAD.num_rotation_clusters := 2;
     Mask2CAD.num_categories_with_bg := 1;
     Mask2CAD.rendered_view_encoder := view_encoder;
     Mask2CAD.object_detector := Examples.example_detector;
     Mask2CAD.shape_embedding_branch := λ _, [0.9; 0.1]%R;
     Mask2CAD.pose_classification_branch := λ _, [0; 1]%R;
     Mask2CAD.pose_refinement_branch := λ _, [0; 0; 0; 1; 0; 0; 0; -1]%R;
     Mask2CAD.center_regression_branch := λ _, [0; 0; 0; 0]%R |}.

Definition two_view_dataset : list ShapeRetrieval.item :=
  [(Examples.example_image, {["shape_idx" := [5]]}, [gray_view]);
   (Examples.example_image, {["shape_idx" := [9]]}, [colour_view])].
End RotationExamples.

(** * Properties *)

(** ** Loops and gathers *)

Ltac bind_ok H :=
  repeat match type of H with
    | (mbind _ ?m = Ok _) =>
        let E := fresh "E" in
        destruct m eqn:E; simpl in H; [|discriminate H]
    | (match ?m with Ok _ => _ | Raise _ => _ end = Ok _) =>
        let E := fresh "E" in
        destruct m eqn:E; simpl in H; [|discriminate H]
    end.

Lemma bind_Ok {A B} (f : A → result B) a : (Ok a ≫= f) = f a.
Proof. done. Qed.

Lemma bind_Raise {A B} (f : A → result B) e : (Raise e ≫= f) = Raise e.
Proof. done. Qed.

Lemma for_each_Forall2 {A B} (f : A → result B) l ys :
  for_each f l = Ok ys → Forall2 (λ x y, f x = Ok y) l ys.
Proof.
  revert ys. induction l as [|x l IH]; intros ys H; simpl in H.
  - injection H as <-. constructor.
  - bind_ok H. injection H as <-. constructor; auto.
Qed.

Lemma for_each_returns {A B} (f : A → result B) l :
  Forall (λ x, returns (f x)) l → returns (for_each f l).
Proof.
  induction 1 as [|x l [y Hy] _ [ys Hys]]; simpl.
  - by eexists.
  - rewrite Hy. simpl. rewrite Hys. simpl. by eexists.
Qed.

Lemma for_each_lookup {A B} (f : A → result B) l ys i x :
  for_each f l = Ok ys → l !! i = Some x → ∃ y, ys !! i = Some y ∧ f x = Ok y.
Proof.
  intros H Hx. apply for_each_Forall2 in H.
  destruct (Forall2_lookup_l _ _ _ _ _ H Hx) as (y & ? & ?). eauto.
Qed.

Lemma gather_incomplete_lookup {A} (tensor : list (list A)) I out i k :
  gather_incomplete tensor I = Ok out → I !! i = Some k →
  ∃ row x, tensor !! i = Some row ∧ row !! k = Some x ∧ out !! i = Some x.
Proof.
  unfold gather_incomplete. intros H Hk. case_decide as Hlen; [|discriminate].
  destruct (lookup_lt_is_Some_2 tensor i) as [row Hrow].
  { apply lookup_lt_Some in Hk. lia. }
  assert (zip tensor I !! i = Some (row, k)) as Hz.
  { rewrite lookup_zip_with, Hrow; simpl. by rewrite Hk. }
  destruct (for_each_lookup _ _ _ _ _ H Hz) as (x & Hx & Hf).
  simpl in Hf. destruct (row !! k) as [x'|] eqn:Hr; [|discriminate].
  injection Hf as ->. eauto.
Qed.

Lemma argmin_from_lt best_i best i row :
  best_i < i → argmin_from best_i best i row < i + length row.
Proof.
  revert best_i best i. induction row as [|x row IH]; intros best_i best i Hi; simpl; [lia|].
  case_decide.
  - specialize (IH i x (S i)). lia.
  - specialize (IH best_i best (S i)). lia.
Qed.

Lemma argmin_lt row i : argmin row = Ok i → i < length row.
Proof.
  destruct row as [|x row]; [done|]. intros [= <-]. simpl.
  pose proof (argmin_from_lt 0 x 1 row). lia.
Qed.

Lemma gather_incomplete_returns {A} (tensor : list (list A)) I :
  length I ≤ length tensor →
  (∀ i k, I !! i = Some k → ∃ row, tensor !! i = Some row ∧ k < length row) →
  returns (gather_incomplete tensor I).
Proof.
  intros Hlen Hin. unfold gather_incomplete. rewrite decide_True by done.
  apply for_each_returns, Forall_lookup. intros i [row k] Hz.
  apply lookup_zip_with_Some in Hz as (row' & k' & [= <- <-] & Hrow & Hk).
  destruct (Hin _ _ Hk) as (row' & Hrow' & Hlt).
  rewrite Hrow in Hrow'. injection Hrow' as <-.
  destruct (lookup_lt_is_Some_2 row k Hlt) as [x Hx]. rewrite Hx. by eexists.
Qed.

Lemma gather_incomplete2_returns {A} (tensor : list (list (list A))) I :
  length I ≤ length tensor →
  (∀ b q k, at_ I b q = Some k → ∃ row, at_ tensor b q = Some row ∧ k < length row) →
  returns (gather_incomplete2 tensor I).
Proof.
  intros Hlen Hin. unfold gather_incomplete2. rewrite decide_True by done.
  apply for_each_returns, Forall_lookup. intros b [t Ib] Hz.
  apply lookup_zip_with_Some in Hz as (t' & Ib' & [= <- <-] & Ht & Hb).
  apply gather_incomplete_returns.
  - destruct (decide (length Ib = 0)) as [->|Hn]; [lia|].
    destruct (lookup_lt_is_Some_2 Ib (length Ib - 1)) as [k Hk]; [lia|].
    destruct (Hin b (length Ib - 1) k) as (row & Hrow & _).
    { unfold at_. rewrite Hb. done. }
    unfold at_ in Hrow. rewrite Ht in Hrow. simpl in Hrow.
    apply lookup_lt_Some in Hrow. lia.
  - intros q k Hk. destruct (Hin b q k) as (row & Hrow & Hlt).
    { unfold at_. by rewrite Hb. }
    unfold at_ in Hrow. rewrite Ht in Hrow. eauto.
Qed.

Lemma gather_incomplete2_lookup {A} (tensor : list (list (list A))) I out b Ib q k :
  gather_incomplete2 tensor I = Ok out → I !! b = Some Ib → Ib !! q = Some k →
  ∃ t row x, tensor !! b = Some t ∧ t !! q = Some row ∧ row !! k = Some x
             ∧ out !! b ≫= (.!! q) = Some x.
Proof.
  unfold gather_incomplete2. intros H Hb Hq. case_decide as Hlen; [|discriminate].
  destruct (lookup_lt_is_Some_2 tensor b) as [t Ht].
  { apply lookup_lt_Some in Hb. lia. }
  assert (zip tensor I !! b = Some (t, Ib)) as Hz.
  { rewrite lookup_zip_with, Ht; simpl. by rewrite Hb. }
  destruct (for_each_lookup _ _ _ _ _ H Hz) as (o & Ho & Hf). simpl in Hf.
  destruct (gather_incomplete_lookup _ _ _ _ _ Hf Hq) as (row & x & ? & ? & Hx).
  exists t, row, x. rewrite Ho. simpl. auto.
Qed.

Lemma at_Some {A} (t : list (list A)) b q x :
  at_ t b q = Some x ↔ ∃ row, t !! b = Some row ∧ row !! q = Some x.
Proof.
  unfold at_. destruct (t !! b) as [row|]; simpl.
  - split; [eauto|]. by intros (? & [= <-] & ?).
  - split; [done|]. by intros (? & ? & ?).
Qed.

Lemma at_bq_map {A B} (f : A → B) t b q : at_ (bq_map f t) b q = f <$> at_ t b q.
Proof.
  unfold at_, bq_map. rewrite list_lookup_fmap.
  destruct (t !! b) as [row|]; simpl; [|done]. by rewrite list_lookup_fmap.
Qed.

Lemma at_bq_map2 {A B C} (f : A → B → C) t u b q x y :
  at_ t b q = Some x → at_ u b q = Some y → at_ (bq_map2 f t u) b q = Some (f x y).
Proof.
  rewrite !at_Some. intros (r1 & Hb1 & Hq1) (r2 & Hb2 & Hq2).
  exists (zip_with f r1 r2). unfold bq_map2.
  rewrite !lookup_zip_with, Hb1, Hq1; simpl. by rewrite Hb2, Hq2.
Qed.

Lemma at_bq_map2_inv {A B C} (f : A → B → C) t u b q z :
  at_ (bq_map2 f t u) b q = Some z →
  ∃ x y, at_ t b q = Some x ∧ at_ u b q = Some y ∧ z = f x y.
Proof.
  rewrite at_Some. intros (r & Hb & Hq). unfold bq_map2 in Hb.
  apply lookup_zip_with_Some in Hb as (r1 & r2 & -> & Hb1 & Hb2).
  apply lookup_zip_with_Some in Hq as (x & y & -> & Hq1 & Hq2).
  exists x, y. rewrite !at_Some. naive_solver.
Qed.

Lemma at_for_each {A B} (f : A → result B) t out b q x :
  for_each (for_each f) t = Ok out → at_ t b q = Some x →
  ∃ y, at_ out b q = Some y ∧ f x = Ok y.
Proof.
  rewrite at_Some. intros H (row & Hb & Hq).
  destruct (for_each_lookup _ _ _ _ _ H Hb) as (orow & Ho & Hrow).
  destruct (for_each_lookup _ _ _ _ _ Hrow Hq) as (y & Hy & Hf).
  exists y. rewrite at_Some. eauto.
Qed.

Lemma at_gather_incomplete2 {A} (tensor : list (list (list A))) I out b q k :
  gather_incomplete2 tensor I = Ok out → at_ I b q = Some k →
  ∃ row x, at_ tensor b q = Some row ∧ row !! k = Some x ∧ at_ out b q = Some x.
Proof.
  rewrite at_Some. intros H (Ib & Hb & Hq).
  destruct (gather_incomplete2_lookup _ _ _ _ _ _ _ H Hb Hq) as (t & row & x & ? & ? & ? & ?).
  exists row, x. rewrite at_Some. eauto.
Qed.

(** ** Quaternions *)

Section quaternions.
Import quat.
Local Open Scope R_scope.

Lemma quatprod_identity_r a : quatprod a identity = a.
Proof. destruct a. unfold quatprod, identity; simpl. f_equal; ring. Qed.

Lemma quatinv_l a : normsq a ≠ 0 → quatprod (quatinv a) a = identity.
Proof.
  destruct a as [x y z w]. unfold quatprod, quatinv, identity, normsq; simpl.
  intros Hn. f_equal; field; exact Hn.
Qed.

Lemma quatprodinv_quatprod a d : normsq a ≠ 0 → quatprodinv a (quatprod a d) = d.
Proof.
  destruct a as [x y z w], d as [dx dy dz dw].
  unfold quatprodinv, quatprod, quatinv, normsq; simpl.
  intros Hn. f_equal; field; exact Hn.
Qed.

Lemma quatprod_quatprodinv a b : normsq a ≠ 0 → quatprod a (quatprodinv a b) = b.
Proof.
  destruct a as [x y z w], b as [bx by_ bz bw].
  unfold quatprodinv, quatprod, quatinv, normsq; simpl.
  intros Hn. f_equal; field; exact Hn.
Qed.

(** The comment on lines 118-119 of [models.py] words the delta as
    [x = t * q ** -1] (so that [x * q = t]).  A delta built that way is not
    undone by the product [q * x] of line 102: the two conventions differ
    on rotations that do not commute. *)
Lemma right_division_not_recomposed :
  ∃ q t, is_unit q ∧ is_unit t ∧ quatprod q (quatprod t (quatinv q)) ≠ t
         ∧ quatprod q (quatprod t (quatinv q)) ≠ quatneg t.
Proof.
  exists (Quat 1 0 0 0), (Quat 0 (3 / 5) 0 (4 / 5)).
  unfold is_unit, normsq, quatprod, quatinv, quatneg; simpl.
  split_and!; [lra|lra| |]; intros [= H1 H2]; lra.
Qed.

Lemma is_unit_normsq a : is_unit a → normsq a ≠ 0.
Proof. unfold is_unit. intros ->. lra. Qed.

Lemma chordal_quatneg_l a b : chordal (quatneg a) b = chordal a (quatneg b).
Proof. destruct a, b. unfold chordal, quatneg; simpl. f_equal. ring. Qed.

Lemma quatneg_involutive b : quatneg (quatneg b) = b.
Proof. destruct b. unfold quatneg; simpl. f_equal; ring. Qed.

Lemma quatcdist_quatneg q A : quatcdist [quatneg q] A = quatcdist [q] A.
Proof.
  unfold quatcdist; simpl. f_equal. apply list_fmap_ext. intros _ b _.
  rewrite !chordal_quatneg_l, quatneg_involutive. apply Rmin_comm.
Qed.
End quaternions.

(** ** Training targets *)

Section targets.
Import quat Mask2CAD.
Local Open Scope R_scope.

(** What [compute_rotation_location_targets] returns at one detection:
    the nearest anchor of its category and the delta to it. *)
Lemma compute_rotation_location_targets_at self bbox loc rot cat bins deltas centers b q c r :
  compute_rotation_location_targets self bbox loc rot cat = Ok (bins, deltas, centers) →
  at_ cat b q = Some c → at_ rot b q = Some r →
  ∃ anchors A bin a,
    object_rotation_quat self = Some anchors ∧ anchors !! c = Some A
    ∧ argmin (mjoin (quatcdist [r] A)) = Ok bin ∧ at_ bins b q = Some bin
    ∧ A !! bin = Some a ∧ at_ deltas b q = Some (quatprodinv a r).
Proof.
  unfold compute_rotation_location_targets. intros H Hc Hr.
  destruct (object_rotation_quat self) as [anchors|] eqn:Ha; [|discriminate].
  simpl in H. bind_ok H. injection H as <- <- <-.
  destruct (at_for_each _ _ _ _ _ _ E Hc) as (A & HA & Hidx).
  unfold index in Hidx. destruct (anchors !! c) as [A'|] eqn:HA'; [|discriminate].
  injection Hidx as ->.
  pose proof (at_bq_map2 (λ q A, mjoin (quatcdist [q] A)) _ _ _ _ _ _ Hr HA) as Hrow.
  destruct (at_for_each _ _ _ _ _ _ E0 Hrow) as (bin & Hbin & Harg).
  destruct (at_gather_incomplete2 _ _ _ _ _ _ E1 Hbin) as (A' & anc & HA2 & Ha2 & Hsel).
  rewrite HA in HA2. injection HA2 as <-.
  exists anchors, A, bin, anc. repeat split; try done.
  by apply at_bq_map2.
Qed.

Lemma compute_rotation_location_targets_center self bbox loc rot cat bins deltas centers :
  compute_rotation_location_targets self bbox loc rot cat = Ok (bins, deltas, centers) →
  centers =
    bq_map2 (λ (l : location) (bx : box),
      let '(lx, ly, _) := l in
      let '(center_x, center_y, width, height) := bx in
      ((lx - center_x) / width, (ly - center_y) / height))
      loc (xyxy_to_cxcywh bbox).
Proof.
  unfold compute_rotation_location_targets. intros H.
  bind_ok H. by injection H as <- <- <-.
Qed.

(** The call returns whenever the anchors are there, every category has
    an anchor list, and no list is empty. *)
Lemma compute_rotation_location_targets_returns self bbox loc rot cat anchors :
  object_rotation_quat self = Some anchors →
  Forall (Forall (λ c, ∃ A, anchors !! c = Some A ∧ A ≠ [])) cat →
  returns (compute_rotation_location_targets self bbox loc rot cat).
Proof.
  intros Ha Hcat. unfold compute_rotation_location_targets. rewrite Ha.
  unfold unwrap. rewrite bind_Ok.
  destruct (for_each_returns (for_each (index anchors)) cat) as [anchor_quat E].
  { eapply Forall_impl; [exact Hcat|]. intros row Hrow. apply for_each_returns.
    eapply Forall_impl; [exact Hrow|]. intros c (A & HA & _).
    exists A. unfold index. by rewrite HA. }
  rewrite E, bind_Ok.
  assert (∀ b q A, at_ anchor_quat b q = Some A → A ≠ []) as Hne.
  { intros b q A HA. apply at_Some in HA as (Ab & Hb & Hq).
    apply for_each_Forall2 in E.
    destruct (Forall2_lookup_r _ _ _ _ _ E Hb) as (cb & Hcb & Hrow).
    apply for_each_Forall2 in Hrow.
    destruct (Forall2_lookup_r _ _ _ _ _ Hrow Hq) as (c & Hc & Hidx).
    rewrite Forall_lookup in Hcat. specialize (Hcat _ _ Hcb).
    rewrite Forall_lookup in Hcat. destruct (Hcat _ _ Hc) as (A' & HA' & Hn).
    unfold index in Hidx. rewrite HA' in Hidx. by injection Hidx as <-. }
  set (rows := bq_map2 (λ q A, mjoin (quatcdist [q] A)) rot anchor_quat).
  destruct (for_each_returns (for_each argmin) rows) as [bins E0].
  { apply Forall_lookup. intros b row Hb. apply for_each_returns.
    apply Forall_lookup. intros q d Hq.
    assert (at_ rows b q = Some d) as Hd by (apply at_Some; eauto).
    apply at_bq_map2_inv in Hd as (r & A & _ & HA & ->).
    apply Hne in HA. destruct A as [|a0 A]; [done|]. simpl. by eexists. }
  rewrite E0, bind_Ok.
  destruct (gather_incomplete2_returns anchor_quat bins) as [sel E1].
  { apply for_each_Forall2, Forall2_length in E0. unfold rows, bq_map2 in E0.
    rewrite length_zip_with in E0. lia. }
  { intros b q bin Hbin.
    assert (∃ d, at_ rows b q = Some d ∧ argmin d = Ok bin) as (d & Hd & Harg).
    { apply at_Some in Hbin as (Ib & Hb & Hq).
      apply for_each_Forall2 in E0.
      destruct (Forall2_lookup_r _ _ _ _ _ E0 Hb) as (row & Hrow & Hfe).
      apply for_each_Forall2 in Hfe.
      destruct (Forall2_lookup_r _ _ _ _ _ Hfe Hq) as (d & Hd & Harg).
      exists d. split; [apply at_Some; eauto|done]. }
    apply at_bq_map2_inv in Hd as (r & A & _ & HA & ->).
    exists A. split; [done|].
    apply argmin_lt in Harg. revert Harg. unfold quatcdist. simpl.
    by rewrite app_nil_r, length_fmap. }
  rewrite E1, bind_Ok. by eexists.
Qed.
End targets.

Section target_claims.
Import quat Mask2CAD.
Local Open Scope R_scope.

Lemma bq_map2_bq_map_l {A A' B C} (f : A' → B → C) (g : A → A') t u :
  bq_map2 f (bq_map g t) u = bq_map2 (λ x, f (g x)) t u.
Proof.
  unfold bq_map2, bq_map. rewrite zip_with_fmap_l.
  apply zip_with_ext; [|done..]. intros r1 r2. by rewrite zip_with_fmap_l.
Qed.

Lemma bq_map2_ext {A B C} (f g : A → B → C) t u :
  (∀ x y, f x y = g x y) → bq_map2 f t u = bq_map2 g t u.
Proof.
  intros E. unfold bq_map2. apply zip_with_ext; [|done..].
  intros r1 r2. by apply zip_with_ext.
Qed.

Lemma chordal_self a : chordal a a = 0.
Proof.
  destruct a. unfold chordal. simpl.
  rewrite <- sqrt_0. f_equal. ring.
Qed.

Lemma chordal_pos a b : a ≠ b → 0 < chordal a b.
Proof.
  destruct a as [x y z w], b as [x' y' z' w']. intros Hne. unfold chordal. simpl.
  apply sqrt_lt_R0.
  pose proof (Rle_0_sqr (x - x')) as Hx0. pose proof (Rle_0_sqr (y - y')) as Hy0.
  pose proof (Rle_0_sqr (z - z')) as Hz0. pose proof (Rle_0_sqr (w - w')) as Hw0.
  assert (0 < Rsqr (x - x') ∨ 0 < Rsqr (y - y') ∨ 0 < Rsqr (z - z') ∨ 0 < Rsqr (w - w'))
    as Hpos.
  { destruct (Req_dec x x') as [->|Hx]; [|left; apply Rsqr_pos_lt; lra].
    destruct (Req_dec y y') as [->|Hy]; [|right; left; apply Rsqr_pos_lt; lra].
    destruct (Req_dec z z') as [->|Hz]; [|right; right; left; apply Rsqr_pos_lt; lra].
    destruct (Req_dec w w') as [->|Hw]; [done|].
    right; right; right. apply Rsqr_pos_lt; lra. }
  unfold Rsqr in *. lra.
Qed.

(** The training targets of the rotation (-1, 0, 0, 0) under the anchors
    (0, 0, 0, 1) and (1, 0, 0, 0): the second anchor, which is the
    rotation up to sign, and the delta (0, 0, 0, -1). *)
Lemma two_anchor_targets training :
  compute_rotation_location_targets (RotationExamples.two_anchor_model training)
    [[(0, 0, 2, 4)]] [[(3, 1, 5)]] [[Quat (-1) 0 0 0]] [[0%nat]]
  = Ok ([[1%nat]], [[quatprodinv (Quat 1 0 0 0) (Quat (-1) 0 0 0)]],
        [[((3 - (0 + (2 - 0) / 2)) / (2 - 0), (1 - (0 + (4 - 0) / 2)) / (4 - 0))]]).
Proof.
  unfold compute_rotation_location_targets. simpl.
  assert (chordal (Quat (-1) 0 0 0) (quatneg (Quat 1 0 0 0)) = 0) as Hzero.
  { replace (quatneg (Quat 1 0 0 0)) with (Quat (-1) 0 0 0); [apply chordal_self|].
    unfold quatneg. simpl. f_equal; lra. }
  assert (0 < chordal (Quat (-1) 0 0 0) identity) as H1.
  { apply chordal_pos. intros [= H]. lra. }
  assert (0 < chordal (Quat (-1) 0 0 0) (quatneg identity)) as H2.
  { apply chordal_pos. unfold quatneg, identity. simpl. intros [= H]. lra. }
  assert (0 <= chordal (Quat (-1) 0 0 0) (Quat 1 0 0 0)) as H3 by apply sqrt_pos.
  rewrite decide_True; [done|].
  rewrite Hzero. rewrite (Rmin_right _ 0) by done.
  apply Rmin_glb_lt; done.
Qed.

(** The delta of a training target, composed with its anchor by the
    product of section 4.1, is the true rotation. *)
Lemma training_delta_recomposed self bbox loc rot cat bins deltas centers b q c r :
  (∀ anchors, object_rotation_quat self = Some anchors → Forall (Forall is_unit) anchors) →
  compute_rotation_location_targets self bbox loc rot cat = Ok (bins, deltas, centers) →
  at_ cat b q = Some c → at_ rot b q = Some r →
  ∃ anchors A bin anchor delta,
    object_rotation_quat self = Some anchors ∧ anchors !! c = Some A
    ∧ at_ bins b q = Some bin ∧ A !! bin = Some anchor
    ∧ at_ deltas b q = Some delta ∧ delta = quatprodinv anchor r
    ∧ quatprod anchor delta = r.
Proof.
  intros Hunit H Hc Hr.
  destruct (compute_rotation_location_targets_at _ _ _ _ _ _ _ _ _ _ _ _ H Hc Hr)
    as (anchors & A & bin & anchor & Hanc & HA & _ & Hbin & Hanchor & Hdelta).
  exists anchors, A, bin, anchor, (quatprodinv anchor r). repeat split; try done.
  apply quatprod_quatprodinv, is_unit_normsq.
  specialize (Hunit _ Hanc). rewrite Forall_lookup in Hunit.
  specialize (Hunit _ _ HA). rewrite Forall_lookup in Hunit. by eapply Hunit.
Qed.

(** Line 102 is the one place where [forward] would compose an anchor
    with a delta: a call that is not in training mode ends there with
    [NameError], unless an earlier line has raised. *)
Lemma eval_forward_raises self img rendered tg loss_weights P N :
  training self = false →
  forward self img rendered tg loss_weights P N = Raise (NameError "quatprod")
  ∨ ∃ e, eval_predictions self img = Raise e
         ∧ forward self img rendered tg loss_weights P N = Raise e.
Proof.
  intros Heval. unfold forward, forward_eval. rewrite Heval.
  destruct (eval_predictions self img) as [[[[[[ds bx] se] aq] rd] cd]|e]; simpl.
  - by left.
  - right. by exists e.
Qed.




(** C3.  The rotation bin is invariant under negation of the ground-truth
    quaternion: the distances of [-q] to the anchors of a category are
    those of [q], so the argmin is the same, and
    [compute_rotation_location_targets] returns the same bins (or raises
    alike) for a batch and for its negation. *)
Theorem rotation_bin_negation_invariant :
  (∀ q A, argmin (mjoin (quatcdist [quatneg q] A)) = argmin (mjoin (quatcdist [q] A)))
  ∧ ∀ self bbox loc rot cat,
      (λ out, out.1.1) <$> compute_rotation_location_targets self bbox loc (bq_map quatneg rot) cat
      = (λ out, out.1.1) <$> compute_rotation_location_targets self bbox loc rot cat.
Proof.
  split.
  { intros q A. by rewrite quatcdist_quatneg. }
  intros self bbox loc rot cat. unfold compute_rotation_location_targets.
  destruct (unwrap TypeError (object_rotation_quat self)) as [anchors|e]; [|done].
  rewrite !bind_Ok.
  destruct (for_each (for_each (index anchors)) cat) as [anchor_quat|e]; [|done].
  rewrite !bind_Ok, bq_map2_bq_map_l.
  rewrite (bq_map2_ext _ (λ q A, mjoin (quatcdist [q] A))).
  2:{ intros q A. by rewrite quatcdist_quatneg. }
  destruct (for_each (for_each argmin) _) as [bins|e]; [|done].
  rewrite !bind_Ok.
  destruct (gather_incomplete2 anchor_quat bins) as [sel|e]; done.
Qed.

(** C7.  For a detection whose box (x1, y1, x2, y2) has positive width
    and height, [compute_rotation_location_targets] returns the center
    target ((lx - cx) / w, (ly - cy) / h) with (cx, cy, w, h) as
    [xyxy_to_cxcywh] computes them: cx = x1 + (x2 - x1) / 2,
    cy = y1 + (y2 - y1) / 2, w = x2 - x1, h = y2 - y1.  The call returns
    when every category of the batch has anchors.  Scaled by the box
    size and added to the box center, the target is the true location. *)
Theorem center_regression_target
    self bbox loc rot cat anchors b q x1 y1 x2 y2 lx ly lz :
  object_rotation_quat self = Some anchors →
  Forall (Forall (λ c, ∃ A, anchors !! c = Some A ∧ A ≠ [])) cat →
  at_ bbox b q = Some (x1, y1, x2, y2) → at_ loc b q = Some (lx, ly, lz) →
  x2 - x1 > 0 → y2 - y1 > 0 →
  ∃ bins deltas centers center_x center_y width height dx dy,
    compute_rotation_location_targets self bbox loc rot cat = Ok (bins, deltas, centers)
    ∧ at_ (xyxy_to_cxcywh bbox) b q = Some (center_x, center_y, width, height)
    ∧ center_x = x1 + (x2 - x1) / 2 ∧ center_y = y1 + (y2 - y1) / 2
    ∧ width = x2 - x1 ∧ height = y2 - y1
    ∧ at_ centers b q = Some (dx, dy)
    ∧ dx = (lx - center_x) / width ∧ dy = (ly - center_y) / height
    ∧ center_x + dx * width = lx ∧ center_y + dy * height = ly.
Proof.
  intros Ha Hcat Hbox Hloc Hw Hh.
  destruct (compute_rotation_location_targets_returns self bbox loc rot cat anchors Ha Hcat)
    as [[[bins deltas] centers] H].
  pose proof (compute_rotation_location_targets_center _ _ _ _ _ _ _ _ H) as ->.
  assert (at_ (xyxy_to_cxcywh bbox) b q
          = Some (x1 + (x2 - x1) / 2, y1 + (y2 - y1) / 2, x2 - x1, y2 - y1)) as Hc.
  { unfold xyxy_to_cxcywh. by rewrite at_bq_map, Hbox. }
  eexists bins, deltas, _, _, _, _, _, _, _. split; [exact H|].
  split; [exact Hc|]. do 4 (split; [reflexivity|]).
  split; [by rewrite (at_bq_map2 _ _ _ _ _ _ _ Hloc Hc)|].
  do 2 (split; [reflexivity|]). split; field; lra.
Qed.

Lemma center_regression_target_witness :
  ∃ bins deltas centers center_x center_y width height dx dy,
    compute_rotation_location_targets (Examples.example_model true)
      [[(0, 0, 2, 4)]] [[(3, 1, 5)]] [[identity]] [[0%nat]] = Ok (bins, deltas, centers)
    ∧ at_ (xyxy_to_cxcywh [[(0, 0, 2, 4)]]) 0 0 = Some (center_x, center_y, width, height)
    ∧ center_x = 0 + (2 - 0) / 2 ∧ center_y = 0 + (4 - 0) / 2
    ∧ width = 2 - 0 ∧ height = 4 - 0
    ∧ at_ centers 0 0 = Some (dx, dy)
    ∧ dx = (3 - center_x) / width ∧ dy = (1 - center_y) / height
    ∧ center_x + dx * width = 3 ∧ center_y + dy * height = 1.
Proof.
  apply (center_regression_target (Examples.example_model true)
           [[(0, 0, 2, 4)]] [[(3, 1, 5)]] [[identity]] [[0%nat]] [[identity]]
           0%nat 0%nat 0 0 2 4 3 1 5).
  - reflexivity.
  - repeat constructor. by exists [identity].
  - reflexivity.
  - reflexivity.
  - lra.
  - lra.
Defined.
End target_claims.

(** ** Sorting a masked row *)

#[global] Instance fle_total : Total fle.
Proof. intros [a| | |] [b| | |]; simpl; auto. destruct (Rle_dec a b); [auto|right; lra]. Qed.
#[global] Instance fle_trans : Transitive fle.
Proof. intros [a| | |] [b| | |] [c| | |]; simpl; auto; try tauto. apply Rle_trans. Qed.
#[global] Instance fle_antisymm : AntiSymm (=) fle.
Proof.
  intros [a| | |] [b| | |]; simpl; try tauto; try done.
  intros. f_equal. by apply Rle_antisym.
Qed.
#[global] Instance Rle_total : Total Rle.
Proof. intros a b. destruct (Rle_dec a b); [auto|right; lra]. Qed.
#[global] Instance Rle_trans_inst : Transitive Rle.
Proof. intros a b c. apply Rle_trans. Qed.
#[global] Instance flip_total {A} (R : relation A) `{!Total R} : Total (flip R).
Proof. intros a b. unfold flip. destruct (total R a b); auto. Qed.
#[global] Instance flip_antisymm {A} (R : relation A) `{!AntiSymm (=) R} : AntiSymm (=) (flip R).
Proof. intros a b H1 H2. unfold flip in *. by apply (anti_symm R). Qed.

Section masked_sort.
Context {V : Type} (Rf : relation fnum) (rr : relation R) (fill : fnum).
Context `{∀ x y, Decision (Rf x y)} `{∀ x y, Decision (rr x y)}.
Context `{!Transitive Rf, !Total Rf, !AntiSymm (=) Rf, !Transitive rr, !Total rr}.
Context (Rf_Fin : ∀ a b, rr a b → Rf (Fin a) (Fin b)).
Context (Rf_fill : ∀ a, Rf (Fin a) fill).
Context (P : V → Prop) `{∀ v, Decision (P v)} (val : V → R).

Local Abbreviation masked := (λ v : V, if bool_decide (P v) then Fin (val v) else fill).

Lemma masked_Permutation vs :
  masked <$> vs
  ≡ₚ (Fin <$> (val <$> filter P vs)) ++ replicate (length vs - length (filter P vs)) fill.
Proof.
  induction vs as [|v vs IH]; [done|]. csimpl.
  pose proof (length_filter P vs) as Hle.
  rewrite filter_cons. case_bool_decide as HP.
  - rewrite decide_True by done. csimpl. by rewrite IH.
  - rewrite decide_False by done.
    replace (S (length vs) - length (filter P vs))
      with (S (length vs - length (filter P vs))) by lia.
    simpl. rewrite IH. by rewrite Permutation_middle.
Qed.

Lemma StronglySorted_Fin l : StronglySorted rr l → StronglySorted Rf (Fin <$> l).
Proof.
  induction 1 as [|a l _ IH Hall]; csimpl; constructor; [done|].
  apply Forall_fmap. eapply Forall_impl; [exact Hall|]. intros b. apply Rf_Fin.
Qed.

Lemma StronglySorted_replicate n : StronglySorted Rf (replicate n fill).
Proof.
  induction n as [|n IH]; simpl; constructor; [done|].
  apply Forall_replicate. destruct (total Rf fill fill); done.
Qed.

(** A sorted masked row: the selected values in order, then the fill. *)
Lemma merge_sort_masked vs :
  merge_sort Rf (masked <$> vs)
  = (Fin <$> merge_sort rr (val <$> filter P vs))
      ++ replicate (length vs - length (filter P vs)) fill.
Proof.
  apply (StronglySorted_unique Rf).
  - apply StronglySorted_merge_sort; apply _.
  - apply StronglySorted_app. split_and!.
    + intros x1 x2 [a [-> _]]%list_elem_of_fmap [-> _]%elem_of_replicate. apply Rf_fill.
    + apply StronglySorted_Fin, StronglySorted_merge_sort; apply _.
    + apply StronglySorted_replicate.
  - rewrite merge_sort_Permutation, masked_Permutation.
    by rewrite (merge_sort_Permutation rr).
Qed.

Lemma take_merge_sort_masked k vs :
  k ≤ length (filter P vs) →
  take k (merge_sort Rf (masked <$> vs))
  = Fin <$> take k (merge_sort rr (val <$> filter P vs)).
Proof.
  intros Hk. rewrite merge_sort_masked, take_app_le.
  - by rewrite fmap_take.
  - rewrite length_fmap. erewrite Permutation_length by apply merge_sort_Permutation.
    by rewrite length_fmap.
Qed.

Lemma fill_in_take_merge_sort_masked k vs :
  length (filter P vs) < k → k ≤ length vs →
  fill ∈ take k (merge_sort Rf (masked <$> vs)).
Proof.
  intros Hlt Hk. rewrite merge_sort_masked.
  set (sel := Fin <$> merge_sort rr (val <$> filter P vs)).
  assert (length sel = length (filter P vs)) as Hsel.
  { unfold sel. rewrite length_fmap.
    erewrite Permutation_length by apply merge_sort_Permutation. by rewrite length_fmap. }
  rewrite take_app_ge by lia. apply elem_of_app. right.
  rewrite take_replicate. apply elem_of_replicate. split; [done|]. lia.
Qed.
End masked_sort.

(** ** The contrastive objective *)

Section contrastive.
Import Spec.

Lemma fmap_mjoin {A B} (f : A → B) (t : list (list A)) :
  f <$> mjoin t = mjoin ((λ row : list A, f <$> row) <$> t).
Proof. induction t as [|row t IH]; csimpl; [done|]. by rewrite fmap_app, IH. Qed.

Lemma shape1_fmap {A B} (f : list A → list B) (t : list (list A)) :
  (∀ row, length (f row) = length row) → shape1 (f <$> t) = shape1 t.
Proof. intros Hf. destruct t as [|row t]; [done|]. unfold shape1. simpl. apply Hf. Qed.

(** The flattened batch as the code sees it is the projection of the
    detections and the views of the specification. *)
Lemma detections_embed img cat shp :
  length (mjoin cat) = length (mjoin img) → length (mjoin shp) = length (mjoin img) →
  normalize <$> mjoin img = det_embed <$> detections img cat shp.
Proof.
  unfold detections.
  generalize (mjoin img) (mjoin cat) (mjoin shp). intros feats.
  induction feats as [|e feats IH]; intros [|c cats] [|s shapes] Hc Hs; try done.
  csimpl. f_equal. apply IH; simpl in *; lia.
Qed.

Lemma detections_shape img cat shp :
  length (mjoin cat) = length (mjoin img) → length (mjoin shp) = length (mjoin img) →
  mjoin shp = det_shape <$> detections img cat shp.
Proof.
  unfold detections.
  generalize (mjoin img) (mjoin cat) (mjoin shp). intros feats.
  induction feats as [|e feats IH]; intros [|c cats] [|s shapes] Hc Hs; try done.
  csimpl. f_equal. apply IH; simpl in *; lia.
Qed.

Lemma detections_category img cat shp :
  length (mjoin cat) = length (mjoin img) → length (mjoin shp) = length (mjoin img) →
  mjoin cat = det_category <$> detections img cat shp.
Proof.
  unfold detections.
  generalize (mjoin img) (mjoin cat) (mjoin shp). intros feats.
  induction feats as [|e feats IH]; intros [|c cats] [|s shapes] Hc Hs; try done.
  csimpl. f_equal. apply IH; simpl in *; lia.
Qed.

Lemma views_embed rvf cat shp :
  length (mjoin cat) = length (mjoin rvf) → length (mjoin shp) = length (mjoin rvf) →
  normalize <$> mjoin (mjoin rvf) = view_embed <$> views rvf cat shp.
Proof.
  unfold views.
  generalize (mjoin rvf) (mjoin cat) (mjoin shp). intros groups.
  induction groups as [|g groups IH]; intros [|c cats] [|s shapes] Hc Hs; try done.
  csimpl. rewrite !fmap_app. f_equal.
  - rewrite <-list_fmap_compose. by apply list_fmap_ext.
  - apply IH; simpl in *; lia.
Qed.

Lemma views_shape V rvf cat shp :
  length (mjoin cat) = length (mjoin rvf) → length (mjoin shp) = length (mjoin rvf) →
  Forall (λ g, length g = V) (mjoin rvf) →
  mjoin shp ≫= replicate V = view_shape <$> views rvf cat shp.
Proof.
  unfold views.
  generalize (mjoin rvf) (mjoin cat) (mjoin shp). intros groups.
  induction groups as [|g groups IH]; intros [|c cats] [|s shapes] Hc Hs HV; try done.
  apply Forall_cons in HV as [Hg HV].
  csimpl. rewrite !fmap_app. f_equal.
  - rewrite <-list_fmap_compose. simpl. rewrite <-Hg.
    clear. induction g as [|v g IH]; [done|]. csimpl. by rewrite IH.
  - apply IH; simpl in *; try lia. done.
Qed.

Lemma views_category V rvf cat shp :
  length (mjoin cat) = length (mjoin rvf) → length (mjoin shp) = length (mjoin rvf) →
  Forall (λ g, length g = V) (mjoin rvf) →
  mjoin cat ≫= replicate V = view_category <$> views rvf cat shp.
Proof.
  unfold views.
  generalize (mjoin rvf) (mjoin cat) (mjoin shp). intros groups.
  induction groups as [|g groups IH]; intros [|c cats] [|s shapes] Hc Hs HV; try done.
  apply Forall_cons in HV as [Hg HV].
  csimpl. rewrite !fmap_app. f_equal.
  - rewrite <-list_fmap_compose. simpl. rewrite <-Hg.
    clear. induction g as [|v g IH]; [done|]. csimpl. by rewrite IH.
  - apply IH; simpl in *; try lia. done.
Qed.

(** The masked rows of the similarity matrix, one per detection: a view
    keeps its similarity when its key (shape or category) is the
    detection's, and holds the fill value otherwise. *)
Lemma masked_rows (dkey : detection → nat) (vkey : view → nat) fill tau
    (ds : list detection) (vs : list view) :
  zip_with (λ m d, where_ m d fill)
    ((λ i, (λ j, bool_decide (i = j)) <$> (vkey <$> vs)) <$> (dkey <$> ds))
    ((λ u, (λ v, dot u v / tau)%R <$> (view_embed <$> vs)) <$> (det_embed <$> ds))
  = (λ d, (λ v, if bool_decide (dkey d = vkey v) then Fin (similarity tau d v) else fill)
            <$> vs) <$> ds.
Proof.
  rewrite <-!list_fmap_compose, zip_with_fmap_l, zip_with_fmap_r, zip_with_diag.
  apply list_fmap_ext. intros _ d _. simpl. unfold where_.
  by rewrite <-!list_fmap_compose, zip_with_fmap_l, zip_with_fmap_r, zip_with_diag.
Qed.
End contrastive.


Section mining.
Import Spec.
Local Abbreviation pos_row tau vs d :=
  (merge_sort fle ((λ v, if bool_decide (det_shape d = view_shape v)
                         then Fin (similarity tau d v) else PInf) <$> vs)).
Local Abbreviation neg_row tau vs d :=
  (merge_sort (flip fle) ((λ v, if bool_decide (det_category d = view_category v)
                                then Fin (similarity tau d v) else NInf) <$> vs)).
Local Abbreviation mined_loss C tau P N vs d :=
  (fneg (fsum ((λ p, flog (fdiv p (fadd p (fmul (Fin C) (fsum (take N (neg_row tau vs d)))))))
                 <$> take P (pos_row tau vs d)))).

Lemma shape_embedding_loss_mined img rvf cat shp C tau P N :
  well_shaped img rvf cat shp →
  Mask2CAD.shape_embedding_loss img rvf cat shp C tau P N
  = (let vs := views rvf cat shp in
     if decide (P ≤ length vs) then
       if decide (N ≤ length vs) then
         Ok (fmean ((λ d, mined_loss C tau P N vs d) <$> detections img cat shp))
       else Raise RuntimeError
     else Raise RuntimeError).
Proof.
  intros (Hc & Hs & Hr & HV).
  unfold Mask2CAD.shape_embedding_loss, Mask2CAD.topk_rows, Mask2CAD.same,
    Mask2CAD.expand_views, bq_map. cbv zeta.
  rewrite <-!fmap_mjoin.
  rewrite (shape1_fmap (fmap normalize)) by (intros; apply length_fmap).
  rewrite (views_embed rvf cat shp) by congruence.
  rewrite (views_shape _ rvf cat shp), (views_category _ rvf cat shp) by (congruence || done).
  rewrite (detections_embed img cat shp) by done.
  rewrite (detections_shape img cat shp Hc Hs).
  rewrite (detections_category img cat shp Hc Hs).
  rewrite !masked_rows, length_fmap.
  destruct (decide (P ≤ _)); [|reflexivity]. rewrite bind_Ok.
  destruct (decide (N ≤ _)); [|reflexivity]. rewrite bind_Ok.
  do 2 f_equal.
  rewrite zip_with_fmap_l, zip_with_fmap_r, zip_with_fmap_l, zip_with_fmap_r, zip_with_diag.
  done.
Qed.

Lemma fneg_fadd x y : fneg (fadd x y) = fadd (fneg x) (fneg y).
Proof. destruct x, y; simpl; try done. f_equal. lra. Qed.

Lemma fneg_fsum l : fneg (fsum l) = fsum (fneg <$> l).
Proof.
  unfold fsum. induction l as [|x l IH]; csimpl.
  - f_equal. lra.
  - by rewrite fneg_fadd, IH.
Qed.

Lemma fsum_Fin l : fsum (Fin <$> l) = Fin (Rsum l).
Proof. unfold fsum, Rsum. induction l as [|x l IH]; csimpl; [done|]. by rewrite IH. Qed.

Lemma fadd_NaN_r x : fadd x NaN = NaN.
Proof. by destruct x. Qed.

Lemma fadd_NaN_l x : fadd NaN x = NaN.
Proof. by destruct x. Qed.

Lemma fsum_NaN l : NaN ∈ l → fsum l = NaN.
Proof.
  unfold fsum. induction l as [|x l IH]; [by intros ?%elem_of_nil|].
  intros [<-|Hl]%elem_of_cons; cbn [foldr].
  - apply fadd_NaN_l.
  - by rewrite IH, fadd_NaN_r.
Qed.

Lemma log_ratio_PInf X : flog (fdiv PInf (fadd PInf X)) = NaN.
Proof. by destruct X. Qed.

(** C1.  On a batch in which every detection has at least [P] rendered
    views of its shape and at least [N] rendered views of its category,
    [shape_embedding_loss] is the loss of section 4.4: embeddings
    L2-normalized, D[i,j] = dot(detEmbed_i, viewEmbed_j) / temperature, per
    detection the [P] smallest same-shape and the [N] largest same-category
    similarities, and the mean over detections of the sum over the
    positives of -log(Dpos / (Dpos + C * sum(Dneg))) on the raw
    similarities. *)
Theorem shape_embedding_loss_refines_spec img rvf cat shp C tau P N :
  well_shaped img rvf cat shp → mjoin img ≠ [] →
  (∀ d, d ∈ detections img cat shp →
     P ≤ length (same_shape_similarities tau (views rvf cat shp) d)
     ∧ N ≤ length (same_category_similarities tau (views rvf cat shp) d)) →
  Mask2CAD.shape_embedding_loss img rvf cat shp C tau P N
  = Ok (Spec.shape_embedding_loss img rvf cat shp C tau P N).
Proof.
  intros Hwf Hne Henough. rewrite shape_embedding_loss_mined by done. cbv zeta.
  unfold same_shape_similarities, same_category_similarities in Henough.
  assert (∃ d, d ∈ detections img cat shp) as [d0 Hd0].
  { destruct Hwf as (Hc & Hs & _). destruct (detections img cat shp) as [|d ds] eqn:E.
    - apply (f_equal (fmap det_embed)) in E.
      rewrite <-detections_embed in E by done. destruct (mjoin img); done.
    - exists d. left. }
  destruct (Henough _ Hd0) as [HP HN]. rewrite !length_fmap in HP, HN.
  pose proof (length_filter (λ v, det_shape d0 = view_shape v) (views rvf cat shp)).
  pose proof (length_filter (λ v, det_category d0 = view_category v) (views rvf cat shp)).
  rewrite !decide_True by lia. f_equal. unfold Spec.shape_embedding_loss. f_equal.
  apply list_fmap_ext. intros _ d Hd%list_elem_of_lookup_2.
  destruct (Henough _ Hd) as [HPd HNd]. rewrite !length_fmap in HPd, HNd.
  rewrite (take_merge_sort_masked fle Rle PInf) by (simpl; done).
  rewrite (take_merge_sort_masked (flip fle) (flip Rle) NInf) by (simpl; done).
  unfold detection_loss, hardest_positives, hardest_negatives,
    same_shape_similarities, same_category_similarities.
  rewrite fsum_Fin, fneg_fsum, <-!list_fmap_compose.
  reflexivity.
Qed.

(** A detection short of same-shape views has [inf] among its hardest
    positives, and the loss is not a number. *)
Lemma shape_embedding_loss_short img rvf cat shp C tau P N d :
  well_shaped img rvf cat shp → d ∈ detections img cat shp →
  length (same_shape_similarities tau (views rvf cat shp) d) < P →
  Mask2CAD.shape_embedding_loss img rvf cat shp C tau P N
  = (if decide (P ≤ length (views rvf cat shp) ∧ N ≤ length (views rvf cat shp))
     then Ok NaN else Raise RuntimeError).
Proof.
  intros Hwf Hd Hshort. rewrite shape_embedding_loss_mined by done. cbv zeta.
  unfold same_shape_similarities in Hshort. rewrite length_fmap in Hshort.
  destruct (decide (P ≤ _)) as [HP|HP]; [|by rewrite decide_False by tauto].
  destruct (decide (N ≤ _)) as [HN|HN]; [|by rewrite decide_False by tauto].
  rewrite decide_True by done. f_equal. unfold fmean.
  rewrite fsum_NaN; [done|].
  apply list_elem_of_fmap. exists d. split; [|done].
  rewrite fsum_NaN; [done|].
  apply list_elem_of_fmap. exists PInf. split; [by rewrite log_ratio_PInf|].
  by apply (fill_in_take_merge_sort_masked fle Rle PInf).
Qed.
End mining.

Section mining_claims.
Import Spec.
Local Open Scope R_scope.

Lemma normalize_one : normalize [1] = [1].
Proof.
  unfold normalize, norm, dot, Rsum. simpl.
  replace (1 * 1 + 0) with 1 by lra. rewrite sqrt_1.
  rewrite Rmax_left by (unfold normalize_eps; lra).
  f_equal. lra.
Qed.

Lemma fdiv_Fin a b : b ≠ 0 → fdiv (Fin a) (Fin b) = Fin (a / b).
Proof. intros Hb. simpl. by rewrite decide_False. Qed.

Lemma flog_Fin a : 0 < a → flog (Fin a) = Fin (ln a).
Proof. intros Ha. simpl. by rewrite decide_True. Qed.

Lemma shape_embedding_loss_refines_spec_witness :
  Mask2CAD.shape_embedding_loss [[ [1] ]] [[ [[1]] ]] [[0%nat]] [[0%nat]] 1.5 0.15 1 1
  = Ok (Spec.shape_embedding_loss [[ [1] ]] [[ [[1]] ]] [[0%nat]] [[0%nat]] 1.5 0.15 1 1).
Proof.
  apply (shape_embedding_loss_refines_spec [[ [1] ]] [[ [[1]] ]] [[0%nat]] [[0%nat]]
           1.5 0.15 1 1).
  - repeat split; repeat constructor.
  - done.
  - intros d ->%list_elem_of_singleton. simpl. lia.
Defined.

(** Without enough candidates the equation fails: on a batch of two
    detections of different shapes with one view each and [P = 2], the
    second hardest positive of a detection is the [inf] that masks the
    other detection's view. *)
Lemma hardest_positives_counterexample :
  Mask2CAD.shape_embedding_loss [[ [1]; [1] ]] [[ [[1]]; [[1]] ]] [[0; 1]]%nat [[0; 1]]%nat
    1 1 2 1
  ≠ Ok (Spec.shape_embedding_loss [[ [1]; [1] ]] [[ [[1]]; [[1]] ]] [[0; 1]]%nat [[0; 1]]%nat
          1 1 2 1).
Proof.
  rewrite (shape_embedding_loss_short _ _ _ _ _ _ _ _ (Detection (normalize [1]) 0 0)).
  - rewrite decide_True by (simpl; lia).
    intros [= H]. revert H.
    unfold Spec.shape_embedding_loss, detections, views. simpl.
    unfold detection_loss, hardest_positives, hardest_negatives,
      same_shape_similarities, same_category_similarities, similarity. simpl.
    rewrite normalize_one. unfold dot, Rsum, fmean, fsum. simpl.
    rewrite decide_False by lra.
    replace ((1 * 1 + 0) / 1 / ((1 * 1 + 0) / 1 + 1 * ((1 * 1 + 0) / 1 + 0))) with (1 / 2)
      by lra.
    rewrite flog_Fin by lra. simpl. rewrite decide_False by lra. done.
  - repeat split; repeat constructor.
  - simpl. left.
  - simpl. lia.
Qed.

(** A detection's own views are among the views of its shape and of its
    category: when none matches, the batch has no view at all. *)
Lemma views_nil_of_no_match img rvf cat shp d :
  well_shaped img rvf cat shp → d ∈ detections img cat shp →
  filter (λ v, det_shape d = view_shape v) (views rvf cat shp) = []
  ∨ filter (λ v, det_category d = view_category v) (views rvf cat shp) = [] →
  views rvf cat shp = [].
Proof.
  intros (Hc & Hs & Hr & HV). unfold detections, views.
  revert HV Hc Hs Hr. generalize (shape1 (mjoin rvf)).
  generalize (mjoin img) (mjoin rvf) (mjoin cat) (mjoin shp).
  intros feats groups cats shapes V HV Hc Hs Hr Hd Hnone.
  apply elem_of_lookup_zip_with in Hd as (i & e & [s c] & -> & He & Hsc).
  destruct (lookup_lt_is_Some_2 groups i) as [g Hg].
  { apply lookup_lt_Some in He. lia. }
  assert (g = []) as ->.
  { destruct g as [|v g]; [done|]. exfalso.
    assert (View (normalize v) s c
            ∈ mjoin (zip_with (λ (vs : list vec) '(s, c), (λ v, View (normalize v) s c) <$> vs)
                       groups (zip shapes cats))) as Hv.
    { apply list_elem_of_join.
      exists ((λ v, View (normalize v) s c) <$> (v :: g)). split; [left|].
      apply list_elem_of_lookup. exists i.
      by rewrite lookup_zip_with, Hg, Hsc. }
    destruct Hnone as [Hnone|Hnone];
      (eapply (filter_nil_not_elem_of _ _ _ Hnone); [|exact Hv]); done. }
  rewrite Forall_lookup in HV. specialize (HV _ _ Hg) as HV0. simpl in HV0. subst V.
  apply join_nil_2, Forall_lookup. intros j blk Hj.
  apply lookup_zip_with_Some in Hj as (g & [s' c'] & -> & Hg' & _).
  apply HV in Hg'. by destruct g.
Qed.

(** C4.  [shape_embedding_loss] has no case for an empty or short mining
    set.  When a detection of the batch has fewer than [P] same-shape
    rendered views, or no same-category rendered view while [N] is
    positive, the call raises [RuntimeError] or returns NaN; it does not
    return a finite loss. *)
Theorem short_mining_set_not_handled img rvf cat shp C tau P N d :
  well_shaped img rvf cat shp → d ∈ detections img cat shp →
  (length (same_shape_similarities tau (views rvf cat shp) d) < P)%nat
  ∨ (same_category_similarities tau (views rvf cat shp) d = [] ∧ (0 < N)%nat) →
  Mask2CAD.shape_embedding_loss img rvf cat shp C tau P N = Raise RuntimeError
  ∨ Mask2CAD.shape_embedding_loss img rvf cat shp C tau P N = Ok NaN.
Proof.
  intros Hwf Hd [Hshort|[Hnone HN]].
  - rewrite (shape_embedding_loss_short _ _ _ _ _ _ _ _ d) by done.
    case_decide; auto.
  - apply fmap_nil_inv in Hnone.
    rewrite shape_embedding_loss_mined by done. cbv zeta.
    rewrite (views_nil_of_no_match img rvf cat shp d) by auto. simpl.
    left. destruct (decide (P ≤ 0)%nat); [|done]. by rewrite decide_False by lia.
Qed.

Lemma short_mining_set_not_handled_witness :
  Mask2CAD.shape_embedding_loss [[ [1]; [1] ]] [[ [[1]]; [[1]] ]] [[0; 1]]%nat [[0; 1]]%nat
    1.5 0.15 2 1 = Raise RuntimeError
  ∨ Mask2CAD.shape_embedding_loss [[ [1]; [1] ]] [[ [[1]]; [[1]] ]] [[0; 1]]%nat [[0; 1]]%nat
      1.5 0.15 2 1 = Ok NaN.
Proof.
  apply (short_mining_set_not_handled _ _ _ _ _ _ _ _ (Detection (normalize [1]) 0 0)).
  - repeat split; repeat constructor.
  - simpl. left.
  - left. simpl. lia.
Defined.

(** A detection without any rendered view gets no finite loss: the
    similarity matrix has no column, and [topk] refuses [P = 1]. *)
Lemma empty_mining_set_counterexample :
  Detection (normalize [1]) 0 0 ∈ detections [[ [1] ]] [[0%nat]] [[0%nat]]
  ∧ same_shape_similarities 0.15 (views [[ [] ]] [[0%nat]] [[0%nat]])
      (Detection (normalize [1]) 0 0) = []
  ∧ ¬ ∃ loss, finite loss ∧
      Mask2CAD.shape_embedding_loss [[ [1] ]] [[ [] ]] [[0%nat]] [[0%nat]] 1.5 0.15 1 1
      = Ok loss.
Proof.
  split; [simpl; left|]. split; [done|].
  by intros (loss & _ & H).
Qed.
End mining_claims.

(** ** forward *)

Section eval_shapes.
Import Mask2CAD.

Lemma for_each_length {A B} (f : A → result B) l ys :
  for_each f l = Ok ys → length ys = length l.
Proof. intros H%for_each_Forall2. symmetry. by eapply Forall2_length. Qed.

Lemma chunks_length {A} B Q (t : list A) : length (chunks B Q t) = B.
Proof. revert t. induction B as [|B IH]; intros t; simpl; [done|]. by rewrite IH. Qed.

Lemma unflatten_Ok {A} B Q (t : list A) out :
  unflatten B Q t = Ok out → length t = B * Q ∧ length out = B.
Proof.
  unfold unflatten. case_decide; [|done]. intros [= <-]. by rewrite chunks_length.
Qed.

Lemma gather_incomplete_Ok_length {A} (tensor : list (list A)) I out :
  gather_incomplete tensor I = Ok out → length I ≤ length tensor.
Proof. unfold gather_incomplete. by case_decide. Qed.

(** On a batch with an image the rotation composition is not reached:
    line 82 wants 4 B rows from the branches, line 86 gathers along the
    batch with the concatenated labels and wants at most B of them. *)
Lemma eval_predictions_raises self img :
  img ≠ [] → ¬ returns (eval_predictions self img).
Proof.
  intros Himg [out H]. unfold eval_predictions in H.
  destruct (eval_box_features self img) as [[[[ds feats] cats] bx]|] eqn:Ef; [|done].
  simpl in H.
  destruct (branches self (length img) 4 feats) as [[[[se bins] delta] center]|] eqn:Eb;
    [|done].
  simpl in H. destruct (gather_incomplete bins cats) as [gb|] eqn:Eg; [|done].
  clear H. apply gather_incomplete_Ok_length in Eg.
  unfold branches in Eb.
  destruct (unflatten (length img) 4 (shape_embedding_branch self <$> feats))
    as [se'|] eqn:E1; [|done].
  apply unflatten_Ok in E1 as [Hn _]. rewrite length_fmap in Hn.
  simpl in Eb.
  destruct (unflatten (length img) 4 (pose_classification_branch self <$> feats))
    as [t|] eqn:E2; [|done].
  apply unflatten_Ok in E2 as [_ Ht]. simpl in Eb.
  destruct (for_each _ t) as [bins'|] eqn:E3; [|done].
  apply for_each_length in E3. simpl in Eb.
  destruct (unflatten (length img) 4 (pose_refinement_branch self <$> feats) ≫= _);
    [|done].
  simpl in Eb.
  destruct (unflatten (length img) 4 (center_regression_branch self <$> feats) ≫= _);
    [|done].
  injection Eb as _ <- _ _.
  assert (length feats ≤ length cats) as Hfeats.
  { unfold eval_box_features in Ef.
    destruct (detect _ _ _ _) as [[[ds' rp] pr]|]; [|done]. simpl in Ef.
    destruct (unwrap TypeError _) as [args|]; [|done]. simpl in Ef.
    destruct (cat (labels <$> ds')) as [cats'|]; [|done]. simpl in Ef.
    destruct (unwrap (AttributeError "gather") _) as [logits|]; [|done]. simpl in Ef.
    destruct (gather_incomplete logits cats') as [selected|] eqn:Es; [|done]. simpl in Ef.
    destruct (cat (boxes <$> ds')) as [bb|]; [|done]. simpl in Ef.
    injection Ef as _ <- <- _. rewrite length_zip_with, length_fmap.
    unfold gather_incomplete in Es. case_decide; [|done].
    apply for_each_length in Es. rewrite length_zip_with in Es. lia. }
  destruct img; [done|]. simpl in *. lia.
Qed.
End eval_shapes.

Section forward_claims.
Import Mask2CAD.

Lemma lookup_name_quatprod : lookup_name "quatprod" = Raise (NameError "quatprod").
Proof. reflexivity. Qed.

(** C9.  When [self.training] does not hold, [forward] returns no
    detections on any input: every call raises.  The rotation composition
    reads the name [quatprod], which the module does not bind, so a call
    that gets through lines 72-101 raises [NameError] there; a call that
    does not, raises what those lines raise. *)
Theorem eval_forward_never_returns self img rendered tg loss_weights P N :
  training self = false →
  ¬ returns (forward self img rendered tg loss_weights P N)
  ∧ forward self img rendered tg loss_weights P N
    = (eval_predictions self img ≫= λ _, Raise (NameError "quatprod")).
Proof.
  intros Heval. unfold forward, forward_eval. rewrite Heval.
  destruct (eval_predictions self img) as [[[[[[ds bx] se] aq] rd] cd]|e]; simpl.
  - split; [by intros [out H]|done].
  - split; [by intros [out H]|done].
Qed.

Lemma eval_forward_never_returns_witness :
  ¬ returns (forward (Examples.example_model false) [Examples.example_image] [] None ∅ 4 8)
  ∧ forward (Examples.example_model false) [Examples.example_image] [] None ∅ 4 8
    = (eval_predictions (Examples.example_model false) [Examples.example_image]
         ≫= λ _, Raise (NameError "quatprod")).
Proof.
  apply (eval_forward_never_returns (Examples.example_model false)
           [Examples.example_image] [] None ∅ 4 8).
  reflexivity.
Defined.

(** The exception is not always [NameError]: on one image with one
    detection the branch outputs have one row, and [unflatten(0, (B, Q))]
    with B = 1 and Q = bbox.shape[1] = 4 raises before the rotation
    composition. *)
Lemma eval_forward_counterexample :
  forward (Examples.example_model false) [Examples.example_image] [] None ∅ 4 8
  = Raise RuntimeError
  ∧ forward (Examples.example_model false) [Examples.example_image] [] None ∅ 4 8
    ≠ Raise (NameError "quatprod").
Proof. split; [reflexivity|discriminate]. Qed.
End forward_claims.


Section loss_claims.
Import Mask2CAD.
Local Open Scope R_scope.

Lemma weighted_loss_Ok lw w_shape w_class w_reg se pc pr cr :
  lw !! "shape_embedding" = Some w_shape → lw !! "pose_classification" = Some w_class →
  lw !! "pose_regression" = Some w_reg →
  weighted_loss lw se pc pr cr
  = Ok (fadd (fadd (fadd (fmul (Fin w_shape) se) (fmul (Fin w_class) pc))
                   (fmul (Fin w_reg) pr))
             (fmul (Fin w_reg) cr)).
Proof. intros H1 H2 H3. unfold weighted_loss, getitem. by rewrite H1, H2, H3. Qed.

(** C6.  In training mode [forward] returns one scalar, the weighted sum
    of the shape-embedding loss, the pose-classification loss, the
    rotation-refinement loss and the center-regression loss.  The caller
    sets three weights, the entries [shape_embedding],
    [pose_classification] and [pose_regression] of [loss_weights]; the
    rotation-refinement loss and the center-regression loss are both scaled
    by [pose_regression]. *)
Theorem training_loss_weighted_sum
    self img rendered tg loss_weights P N w_shape w_class w_reg out :
  training self = true →
  loss_weights !! "shape_embedding" = Some w_shape →
  loss_weights !! "pose_classification" = Some w_class →
  loss_weights !! "pose_regression" = Some w_reg →
  forward self img rendered (Some tg) loss_weights P N = Ok out →
  ∃ shape_embedding views all_bins all_delta all_center bins delta center
    true_bins true_delta true_center shape_loss class_loss rotation_loss center_loss,
    branches self (length img) (shape1 (bbox tg)) (training_box_features self img (bbox tg))
    = Ok (shape_embedding, all_bins, all_delta, all_center)
    ∧ gather_incomplete2 all_bins (category_idx tg) = Ok bins
    ∧ gather_incomplete2 all_delta (category_idx tg) = Ok delta
    ∧ gather_incomplete2 all_center (category_idx tg) = Ok center
    ∧ shape_embedding_loss shape_embedding views (category_idx tg) (tshape_idx tg)
        1.5 0.15 P N = Ok shape_loss
    ∧ compute_rotation_location_targets self (bbox tg) (object_location tg)
        (tobject_rotation_quat tg) (category_idx tg) = Ok (true_bins, true_delta, true_center)
    ∧ pose_estimation_loss bins delta center true_bins true_delta true_center 0.15
      = Ok (class_loss, rotation_loss, center_loss)
    ∧ out = Loss (fadd (fadd (fadd (fmul (Fin w_shape) shape_loss)
                                   (fmul (Fin w_class) class_loss))
                             (fmul (Fin w_reg) rotation_loss))
                       (fmul (Fin w_reg) center_loss)).
Proof.
  intros Htrain H1 H2 H3 H. unfold forward in H. rewrite Htrain in H.
  unfold forward_training in H. simpl in H.
  destruct (branches _ _ _ _) as [[[[se bins] delta] center]|] eqn:Eb; [|discriminate].
  simpl in H. bind_ok H. destruct a5 as [[tb td] tc]. bind_ok H.
  destruct a6 as [[pc pr] cr]. rewrite (weighted_loss_Ok _ _ _ _ _ _ _ _ H1 H2 H3) in H.
  injection H as <-.
  by exists se, a4, bins, delta, center, a, a0, a1, tb, td, tc, a5, pc, pr, cr.
Qed.

Lemma training_loss_weighted_sum_witness :
  ∃ out,
    forward (Examples.example_model true) [Examples.example_image] [[Examples.example_image]]
      (Some Examples.example_targets) default_loss_weights 1 1 = Ok out
    ∧ ∃ shape_embedding views all_bins all_delta all_center bins delta center
        true_bins true_delta true_center shape_loss class_loss rotation_loss center_loss,
        branches (Examples.example_model true) 1 1
          (training_box_features (Examples.example_model true) [Examples.example_image]
             (bbox Examples.example_targets))
        = Ok (shape_embedding, all_bins, all_delta, all_center)
        ∧ gather_incomplete2 all_bins (category_idx Examples.example_targets) = Ok bins
        ∧ gather_incomplete2 all_delta (category_idx Examples.example_targets) = Ok delta
        ∧ gather_incomplete2 all_center (category_idx Examples.example_targets) = Ok center
        ∧ shape_embedding_loss shape_embedding views (category_idx Examples.example_targets)
            (tshape_idx Examples.example_targets) 1.5 0.15 1 1 = Ok shape_loss
        ∧ compute_rotation_location_targets (Examples.example_model true)
            (bbox Examples.example_targets) (object_location Examples.example_targets)
            (tobject_rotation_quat Examples.example_targets)
            (category_idx Examples.example_targets)
          = Ok (true_bins, true_delta, true_center)
        ∧ pose_estimation_loss bins delta center true_bins true_delta true_center 0.15
          = Ok (class_loss, rotation_loss, center_loss)
        ∧ out = Loss (fadd (fadd (fadd (fmul (Fin 0.5) shape_loss)
                                       (fmul (Fin 0.25) class_loss))
                                 (fmul (Fin 5) rotation_loss))
                           (fmul (Fin 5) center_loss)).
Proof.
  eexists. split; [reflexivity|].
  eapply (training_loss_weighted_sum (Examples.example_model true) [Examples.example_image]
            [[Examples.example_image]] Examples.example_targets default_loss_weights 1 1
            0.5 0.25 5); reflexivity.
Defined.

(** The four weights are not independent: no [loss_weights] scales the
    rotation-refinement loss by 1 and the center-regression loss by 0. *)
Lemma independent_weights_counterexample :
  ¬ ∃ loss_weights, ∀ shape_loss class_loss rotation_loss center_loss,
      weighted_loss loss_weights shape_loss class_loss rotation_loss center_loss
      = Ok (fadd (fadd (fadd (fmul (Fin 0) shape_loss) (fmul (Fin 0) class_loss))
                       (fmul (Fin 1) rotation_loss))
                 (fmul (Fin 0) center_loss)).
Proof.
  intros [lw H].
  pose proof (H (Fin 0) (Fin 0) (Fin 1) (Fin 0)) as Ha.
  pose proof (H (Fin 0) (Fin 0) (Fin 0) (Fin 1)) as Hb.
  unfold weighted_loss, getitem in Ha, Hb.
  destruct (lw !! "shape_embedding") as [w1|]; [|discriminate].
  destruct (lw !! "pose_classification") as [w2|]; [|discriminate].
  destruct (lw !! "pose_regression") as [w3|]; [|discriminate].
  simpl in Ha, Hb. injection Ha as Ha. injection Hb as Hb. lra.
Qed.

(** C5.  The feature tensor the four branches read is the product with
    the foreground-probability map only when [self.training] does not
    hold.  In training mode the branches read the pooled region features
    as they are: nothing of the mask heads enters the result of [forward],
    and on the same image and box the two modes feed different features,
    [[1]] against [[1 * sigmoid 0]]. *)
Theorem training_features_not_masked :
  (∀ self img rendered tg loss_weights P N roi_pool predictor detect,
     forward_training self img rendered tg loss_weights P N
     = forward_training
         (Build (training self) (object_rotation_quat self) (num_rotation_clusters self)
            (num_categories_with_bg self) (rendered_view_encoder self)
            (Detector (transform (object_detector self)) (backbone (object_detector self))
               (box_roi_pool (object_detector self)) roi_pool predictor detect)
            (shape_embedding_branch self) (pose_classification_branch self)
            (pose_refinement_branch self) (center_regression_branch self))
         img rendered tg loss_weights P N)
  ∧ training_box_features (Examples.example_model true) [Examples.example_image]
      [[(0, 0, 2, 2)]] = [ [[[1]]] ]
  ∧ eval_box_features (Examples.example_model false) [Examples.example_image]
    = Ok ([Detection [(0, 0, 2, 2)] [0%nat] None None None None],
          [ [[[1 * sigmoid 0]]] ], [0%nat], [(0, 0, 2, 2)]).
Proof. split; [|split]; reflexivity. Qed.
End loss_claims.


(** ** ShapeRetrieval *)

Section retrieval_claims.
Import ShapeRetrieval.
Local Open Scope R_scope.

(** The attributes while the constructor loops: the model and the two
    lists, and nothing named [shape_idx]. *)
Local Abbreviation collecting model rows idx :=
  (<["shape_indices" := AIndices idx]>
     (<["shape_embedding" := AList rows]> (<["model" := AModel model]> (∅ : t)))).

Lemma collect_collecting model rows idx (it : item) :
  collect model (collecting model rows idx) it
  = match it.1.2 !! "shape_idx" with
    | Some i =>
        Ok (collecting model (rows ++ (Mask2CAD.rendered_view_encoder model <$> it.2))
              (idx ++ i))
    | None => Raise (KeyError "shape_idx")
    end.
Proof.
  destruct it as [[img extra] views]. unfold collect, extend_rows, extend_indices, getitem.
  simpl. by destruct (extra !! "shape_idx").
Qed.

Lemma for_fold_collecting model ds rows idx self :
  for_fold (collect model) (collecting model rows idx) ds = Ok self →
  ∃ idx', self = collecting model
                   (rows ++ mjoin ((λ it : item, Mask2CAD.rendered_view_encoder model <$> it.2)
                                     <$> ds)) idx'.
Proof.
  revert rows idx. induction ds as [|it ds IH]; intros rows idx H; simpl in H.
  - injection H as <-. exists idx. simpl. by rewrite app_nil_r.
  - rewrite collect_collecting in H.
    destruct (it.1.2 !! "shape_idx") as [i|]; [|discriminate]. simpl in H.
    apply IH in H as [idx' ->]. exists idx'. csimpl. by rewrite app_assoc.
Qed.

Lemma for_fold_collecting_returns model ds rows idx :
  Forall (λ it : item, is_Some (it.1.2 !! "shape_idx")) ds →
  returns (for_fold (collect model) (collecting model rows idx) ds).
Proof.
  intros Hkeys. revert rows idx.
  induction Hkeys as [|it ds [i Hi] _ IH]; intros rows idx; simpl; [by eexists|].
  rewrite collect_collecting, Hi. simpl. apply IH.
Qed.

(** C10.  [ShapeRetrieval.__init__] constructs no instance, whatever the
    model and the dataset: every call raises.  The loop fills
    [shape_indices], no attribute [shape_idx] is set before line 20 reads
    it, and the call raises [AttributeError] there when the loop has gone
    through (every target has its [shape_idx]) and has collected at least
    one view; otherwise an earlier line raises. *)
Theorem init_never_constructs model (ds : list item) :
  ¬ returns (__init__ model ds)
  ∧ (Forall (λ it : item, is_Some (it.1.2 !! "shape_idx")) ds →
     Exists (λ it : item, it.2 ≠ []) ds →
     __init__ model ds = Raise (AttributeError "shape_idx")).
Proof.
  unfold __init__.
  destruct (for_fold (collect model) _ ds) as [self|e] eqn:E; simpl.
  - apply for_fold_collecting in E as [idx ->]. simpl.
    destruct (mjoin _) as [|row rows] eqn:Hrows; simpl.
    + split; [by intros [? ?]|]. intros _ Hview. exfalso.
      apply join_nil_1 in Hrows. rewrite Forall_fmap in Hrows.
      apply Exists_exists in Hview as (it & Hit & Hne).
      rewrite Forall_forall in Hrows. specialize (Hrows _ Hit). simpl in Hrows.
      apply fmap_nil_inv in Hrows. done.
    + split; [by intros [? ?]|done].
  - split; [by intros [? ?]|]. intros Hkeys _. exfalso.
    destruct (for_fold_collecting_returns model ds [] [] Hkeys) as [self Hself].
    rewrite Hself in E. discriminate.
Qed.

Lemma init_never_constructs_witness :
  ¬ returns (__init__ (Examples.example_model false)
               [(Examples.example_image, {["shape_idx" := [7%nat]]}, [Examples.example_image])])
  ∧ __init__ (Examples.example_model false)
      [(Examples.example_image, {["shape_idx" := [7%nat]]}, [Examples.example_image])]
    = Raise (AttributeError "shape_idx").
Proof.
  destruct (init_never_constructs (Examples.example_model false)
              [(Examples.example_image, {["shape_idx" := [7%nat]]}, [Examples.example_image])])
    as [Hnever Hattr].
  split; [exact Hnever|]. apply Hattr.
  - repeat constructor. by eexists.
  - left. done.
Defined.

(** The exception is not always [AttributeError]: on an empty dataset
    [torch.cat] refuses the empty list of embeddings on line 19. *)
Lemma init_counterexample :
  __init__ (Examples.example_model false) [] = Raise RuntimeError
  ∧ __init__ (Examples.example_model false) [] ≠ Raise (AttributeError "shape_idx").
Proof. split; [reflexivity|discriminate]. Qed.
End retrieval_claims.


Section retrieval_path.
Import ShapeRetrieval.

Lemma forward_training_Loss self img rendered tg loss_weights P N out :
  Mask2CAD.forward_training self img rendered tg loss_weights P N = Ok out →
  ∃ loss, out = Mask2CAD.Loss loss.
Proof.
  unfold Mask2CAD.forward_training. intros H.
  destruct (unwrap _ tg) as [tg'|]; [|done]. simpl in H.
  destruct (Mask2CAD.branches _ _ _ _) as [[[[se bins] delta] center]|]; [|done].
  simpl in H. bind_ok H.
  repeat match type of H with
         | (let '(_, _) := ?p in _) = _ => destruct p; simpl in H; bind_ok H
         end.
  injection H as <-. by eexists.
Qed.

(** Through [ShapeRetrieval.forward] no query completes when the wrapped
    model is a [Mask2CAD]: in training mode the model returns a loss, which
    is not a list of detections, and otherwise it raises. *)
Lemma retrieval_forward_never_returns self img rendered tg loss_weights P N :
  ¬ returns (forward self img rendered tg loss_weights P N).
Proof.
  intros [ds H]. unfold forward in H.
  destruct (getattr self "model") as [[model| | | |]|]; try done. simpl in H.
  destruct (Mask2CAD.forward model img rendered tg loss_weights P N) as [out|] eqn:E;
    [|done].
  simpl in H. unfold Mask2CAD.forward in E. destruct (Mask2CAD.training model).
  - apply forward_training_Loss in E as [loss ->]. done.
  - unfold Mask2CAD.forward_eval in E.
    destruct (Mask2CAD.eval_predictions model img) as [[[[[[? ?] ?] ?] ?] ?]|]; done.
Qed.
End retrieval_path.

Section retrieval_query.
Import ShapeRetrieval.
Local Open Scope R_scope.

Local Ltac argmax_fin :=
  first [done | lia | lra | (simpl; constructor; [first [done | lra] | done])].

Lemma argmax_from_spec best_i best i row :
  (argmax_from best_i best i row = best_i ∧ Forall (λ x, x <= best) row)
  ∨ ∃ k m, argmax_from best_i best i row = (i + k)%nat ∧ row !! k = Some m ∧ best < m
           ∧ Forall (λ x, x <= m) row ∧ Forall (λ x, x < m) (take k row).
Proof.
  revert best_i best i. induction row as [|x row IH]; intros best_i best i; simpl.
  { left. split; [done|constructor]. }
  case_decide as Hlt.
  - right. destruct (IH i x (S i)) as [[-> Hall]|(k & m & -> & Hk & Hm & Hall & Hbefore)].
    + exists 0%nat, x. split_and!; argmax_fin.
    + exists (S k), m. split_and!; argmax_fin.
  - destruct (IH best_i best (S i)) as [[-> Hall]|(k & m & -> & Hk & Hm & Hall & Hbefore)].
    + left. split; argmax_fin.
    + right. exists (S k), m. split_and!; argmax_fin.
Qed.

(** [argmax] is the position of the first maximal entry. *)
Lemma argmax_first_maximum row i :
  argmax row = Ok i →
  ∃ m, row !! i = Some m ∧ Forall (λ x, x <= m) row ∧ Forall (λ x, x < m) (take i row).
Proof.
  destruct row as [|x row]; [done|]. intros [= <-].
  destruct (argmax_from_spec 0 x 1 row) as [[-> Hall]|(k & m & -> & Hk & Hm & Hall & Hbefore)].
  - exists x. split_and!; argmax_fin.
  - exists m. split_and!; argmax_fin.
Qed.

(** The retrieval reads the instance through its catalog only: the shape
    ids collected by the constructor do not enter the result. *)
Lemma retrieve_ignores_shape_ids self self' detections :
  catalog self = catalog self' → retrieve self detections = retrieve self' detections.
Proof. intros H. unfold retrieve. by rewrite H. Qed.
End retrieval_query.


Section retrieval_reach.
Import ShapeRetrieval ShapeRetrievalCatalog.
Local Open Scope R_scope.

(** The constructor is lines 12-19 followed by line 20. *)
Lemma init_lines model (ds : list item) :
  __init__ model ds
  = (self ← lines_12_19 model ds;
     shape_idx ← getattr self "shape_idx";
     shape_idx ← cat_attr shape_idx;
     Ok (<["shape_idx" := AVector shape_idx]> self)).
Proof.
  unfold __init__, lines_12_19.
  destruct (for_fold (collect model) _ ds) as [self|]; [|done]. simpl.
  destruct (getattr self "shape_embedding") as [a|]; [|done]. simpl.
  by destruct (cat_attr a).
Qed.

(** When line 20 is reached, the catalog is a one-dimensional tensor and
    no attribute is named [shape_idx]. *)
Lemma lines_12_19_state model (ds : list item) self :
  lines_12_19 model ds = Ok self →
  (∃ v, self !! "shape_embedding" = Some (AVector v)) ∧ self !! "shape_idx" = None.
Proof.
  unfold lines_12_19. intros H.
  destruct (for_fold (collect model) _ ds) as [self0|] eqn:E; [|done]. simpl in H.
  apply for_fold_collecting in E as [idx ->]. simpl in H.
  destruct (mjoin _) as [|row rows]; simpl in H; [done|]. injection H as <-.
  split; [by eexists|done].
Qed.

Lemma retrieve_one_dimensional self detections v :
  self !! "shape_embedding" = Some (AVector v) → ¬ returns (retrieve self detections).
Proof.
  intros Hv [out H]. unfold retrieve in H.
  destruct (for_each _ detections) as [embeddings|]; [|done]. simpl in H.
  destruct (cat embeddings) as [rows|]; [|done]. simpl in H.
  unfold catalog, getattr in H. by rewrite Hv in H.
Qed.

(** C8.  No query returns a shape id.  Building the catalog and asking
    never returns, whatever the model, the dataset and the query;
    [forward] returns on no instance, since the wrapped model gives a
    loss or raises and never gives detections; and when lines 12-19 of
    the constructor go through, line 20 raises [AttributeError] and the
    catalog held at that point is one-dimensional, so that lines 24-31
    would raise on any detections. *)
Theorem retrieval_query_never_returns model (ds : list item) img rendered tg loss_weights P N :
  ¬ returns (query model ds img rendered tg loss_weights P N)
  ∧ (∀ self, ¬ returns (forward self img rendered tg loss_weights P N))
  ∧ (∀ self, lines_12_19 model ds = Ok self →
       __init__ model ds = Raise (AttributeError "shape_idx")
       ∧ ∀ detections, ¬ returns (retrieve self detections)).
Proof.
  split_and!.
  - intros [out H]. unfold query in H.
    destruct (__init__ model ds) as [self|]; [|done]. simpl in H.
    by eapply retrieval_forward_never_returns; eexists.
  - intros self. apply retrieval_forward_never_returns.
  - intros self Hself. destruct (lines_12_19_state _ _ _ Hself) as [[v Hv] Hnone]. split.
    + rewrite init_lines, Hself. simpl. unfold getattr. by rewrite Hnone.
    + intros detections. by eapply retrieve_one_dimensional.
Qed.

Lemma retrieval_query_never_returns_witness :
  ¬ returns (query (RotationExamples.two_anchor_model false) RotationExamples.two_view_dataset
               [Examples.example_image] [] None ∅ 4 8)
  ∧ (∀ self, ¬ returns (forward self [Examples.example_image] [] None ∅ 4 8))
  ∧ (∀ self,
       lines_12_19 (RotationExamples.two_anchor_model false) RotationExamples.two_view_dataset
       = Ok self →
       __init__ (RotationExamples.two_anchor_model false) RotationExamples.two_view_dataset
       = Raise (AttributeError "shape_idx")
       ∧ ∀ detections, ¬ returns (retrieve self detections)).
Proof.
  apply (retrieval_query_never_returns (RotationExamples.two_anchor_model false)
           RotationExamples.two_view_dataset [Examples.example_image] [] None ∅ 4 8).
Defined.

(** The catalog {v1 = [1, 0], v2 = [0, 1]} of the shapes 5 and 9 and the
    query [0.9, 0.1]: the views are encoded and joined into the one
    vector [1, 0, 0, 1], normalized as a whole; the constructor then
    raises, and the query is not made. *)
Lemma retrieval_query_example :
  lines_12_19 (RotationExamples.two_anchor_model false) RotationExamples.two_view_dataset
  = Ok (<["shape_embedding" := AVector (normalize [1; 0; 0; 1])]>
          (<["shape_indices" := AIndices [5; 9]%nat]>
             (<["shape_embedding" := AList [[1; 0]; [0; 1]]]>
                (<["model" := AModel (RotationExamples.two_anchor_model false)]> ∅))))
  ∧ query (RotationExamples.two_anchor_model false) RotationExamples.two_view_dataset
      [Examples.example_image] [] None ∅ 4 8
    = Raise (AttributeError "shape_idx").
Proof. split; reflexivity. Qed.
End retrieval_reach.


(** * Further properties of [models.py] *)

(** ** gather_incomplete *)

Section gather.

(** A loop that raises, raises what one of its iterations raised. *)
Lemma for_each_Raise {X Y} (f : X → result Y) l e :
  for_each f l = Raise e → ∃ x, x ∈ l ∧ f x = Raise e.
Proof.
  induction l as [|x l IH]; simpl; [done|].
  destruct (f x) as [y|e'] eqn:Hx; simpl.
  - destruct (for_each f l) as [ys|e'']; simpl; [done|].
    intros [= ->]. destruct IH as (x' & ? & ?); [done|]. exists x'. split; [by right|done].
  - intros [= ->]. exists x. split; [by left|done].
Qed.

(** X1.  When [gather_incomplete] returns, the result has one entry per
    index and entry [i] is [tensor[i][I[i]]]: the slice of row [i] that the
    category of detection [i] selects. *)
Theorem gather_incomplete_selects {A} (tensor : list (list A)) I out :
  gather_incomplete tensor I = Ok out →
  length out = length I
  ∧ ∀ i k, I !! i = Some k →
      ∃ row x, tensor !! i = Some row ∧ row !! k = Some x ∧ out !! i = Some x.
Proof.
  intros H. split.
  - pose proof (gather_incomplete_Ok_length _ _ _ H) as Hlen.
    unfold gather_incomplete in H. rewrite decide_True in H by done.
    apply for_each_length in H. rewrite length_zip_with in H. lia.
  - intros i k Hk. eapply gather_incomplete_lookup; eauto.
Qed.

Lemma gather_incomplete_selects_witness :
  length [2; 3]%nat = length [1; 0]%nat
  ∧ ∀ i k, [1; 0]%nat !! i = Some k →
      ∃ row x, [[1; 2]; [3; 4]]%nat !! i = Some row ∧ row !! k = Some x
               ∧ [2; 3]%nat !! i = Some x.
Proof. apply (gather_incomplete_selects (A:=nat) [[1; 2]; [3; 4]] [1; 0] [2; 3]). reflexivity. Defined.

(** X2.  [gather_incomplete] returns exactly when the index is no longer
    than the tensor along the first dimension and every entry is a valid
    position of its row; in every other case it raises [RuntimeError], and
    never another exception. *)
Theorem gather_incomplete_bounds {A} (tensor : list (list A)) I :
  let in_bounds :=
    length I ≤ length tensor
    ∧ ∀ i k, I !! i = Some k → ∃ row, tensor !! i = Some row ∧ k < length row in
  (in_bounds ↔ returns (gather_incomplete tensor I))
  ∧ (¬ in_bounds ↔ gather_incomplete tensor I = Raise RuntimeError).
Proof.
  intros in_bounds.
  assert (in_bounds → returns (gather_incomplete tensor I)) as Hret.
  { intros [? ?]. by apply gather_incomplete_returns. }
  assert (returns (gather_incomplete tensor I) → in_bounds) as Hin.
  { intros [out H]. split; [by eapply gather_incomplete_Ok_length|].
    intros i k Hk. destruct (gather_incomplete_lookup _ _ _ _ _ H Hk) as (row & x & ? & Hx & _).
    exists row. split; [done|]. by eapply lookup_lt_Some. }
  assert (∀ e, gather_incomplete tensor I = Raise e → e = RuntimeError) as Hexn.
  { unfold gather_incomplete. intros e. case_decide; [|by intros [= <-]].
    intros (x & _ & Hx)%for_each_Raise. destruct x as [row k].
    by destruct (row !! k); simplify_eq. }
  split; [split; done|]. split.
  - intros Hout. destruct (gather_incomplete tensor I) as [out|e] eqn:E.
    + destruct Hout. apply Hin. by eexists.
    + by rewrite (Hexn e).
  - intros H [out Hout]%Hret. congruence.
Qed.

End gather.


(** ** reset_parameters *)

Section parameters.
Import Mask2CAD.
Local Open Scope R_scope.

Local Arguments Nat.modulo : simpl never.

Lemma fourth_from_fourth i :
  (3 ≤ S (S (S (S i))) ∧ (S (S (S (S i))) - 3) mod 4 = 0)%nat ↔ (3 ≤ i ∧ (i - 3) mod 4 = 0)%nat.
Proof.
  destruct (decide (3 ≤ i)%nat) as [Hi|Hi].
  - replace (S (S (S (S i))) - 3)%nat with ((i - 3) + 1 * 4)%nat by lia.
    rewrite Nat.Div0.mod_add. intuition lia.
  - assert (i = 0 ∨ i = 1 ∨ i = 2)%nat as [->|[->| ->]] by lia;
      (split; intros [? H]; [by vm_compute in H|lia]).
Qed.

Lemma reset_parameters_cons4 f a b c d bias :
  reset_parameters f (a :: b :: c :: d :: bias) = 0 :: 0 :: 0 :: f :: reset_parameters f bias.
Proof.
  unfold reset_parameters, set_slice. rewrite !fmap_cons. cbn [imap]. do 4 f_equal.
  apply imap_ext. intros i x _. unfold compose.
  destruct (decide (3 ≤ i ∧ _)%nat) as [H|H].
  - by rewrite decide_True by (by apply fourth_from_fourth).
  - by rewrite decide_False by (by rewrite fourth_from_fourth).
Qed.

(** X3.  After [reset_parameters] the bias of the rotation-refinement
    head, read as one quaternion (x, y, z, w) per category the way line 84
    unflattens the head's output, is (0, 0, 0, quat_fill) for every
    category, whatever the bias held before. *)
Theorem reset_parameters_identity_delta quat_fill K (bias : vec) :
  length bias = (K * 4)%nat →
  unflatten K 4 (reset_parameters quat_fill bias) = Ok (replicate K [0; 0; 0; quat_fill]).
Proof.
  intros Hlen. unfold unflatten. rewrite decide_True.
  2:{ unfold reset_parameters, set_slice. by rewrite length_imap, length_fmap. }
  f_equal. revert bias Hlen. induction K as [|K IH]; intros bias Hlen; [done|].
  destruct bias as [|a [|b [|c [|d bias]]]]; simpl in Hlen; try lia.
  rewrite reset_parameters_cons4. simpl. f_equal. apply IH. lia.
Qed.

Lemma reset_parameters_identity_delta_witness :
  unflatten 2 4 (reset_parameters 0.95 [1; 2; 3; 4; 5; 6; 7; 8])
  = Ok [[0; 0; 0; 0.95]; [0; 0; 0; 0.95]].
Proof. apply (reset_parameters_identity_delta 0.95 2 [1; 2; 3; 4; 5; 6; 7; 8]). reflexivity. Defined.

End parameters.


(** ** xyxy_to_cxcywh *)

Section boxes.
Import Mask2CAD.
Local Open Scope R_scope.

(** X4.  In exact arithmetic (coordinates as real numbers, no rounding)
    [xyxy_to_cxcywh] loses nothing: the corners of every box are
    recovered from its center and size as center -/+ size / 2. *)
Theorem xyxy_to_cxcywh_invertible (bbox : list (list box)) :
  bq_map (λ '(center_x, center_y, width, height),
            (center_x - width / 2, center_y - height / 2,
             center_x + width / 2, center_y + height / 2))
    (xyxy_to_cxcywh bbox) = bbox.
Proof.
  unfold xyxy_to_cxcywh, bq_map. rewrite <- list_fmap_compose.
  rewrite <- (list_fmap_id bbox) at 2. apply list_fmap_ext. intros _ row _. simpl.
  rewrite <- list_fmap_compose. rewrite <- (list_fmap_id row) at 2.
  apply list_fmap_ext. intros _ [[[x1 y1] x2] y2] _. simpl.
  repeat f_equal; lra.
Qed.

End boxes.


(** ** pose_estimation_loss *)

Section pose_losses.
Import quat Mask2CAD.
Local Open Scope R_scope.

Lemma huber_nonneg delta x y : 0 < delta → 0 <= huber delta x y.
Proof.
  intros Hd. unfold huber. pose proof (Rabs_pos (x - y)) as Ha.
  case_decide as Hlt.
  - apply Rmult_le_pos; [|lra]. by apply Rmult_le_pos.
  - apply Rmult_le_pos; lra.
Qed.

Lemma huber_zero_iff delta x y : 0 < delta → huber delta x y = 0 ↔ x = y.
Proof.
  intros Hd. unfold huber. pose proof (Rabs_pos (x - y)) as Ha. split.
  - case_decide as Hlt; intros H.
    + assert (Rabs (x - y) = 0) as H0.
      { destruct (Rmult_integral (Rabs (x - y) * Rabs (x - y)) (/ 2)) as [H1|H1];
          [exact H| |lra].
        by destruct (Rmult_integral _ _ H1). }
      destruct (Req_dec (x - y) 0) as [?|Hne]; [lra|]. by apply Rabs_no_R0 in Hne.
    + exfalso. destruct (Rmult_integral _ _ H); lra.
  - intros ->. replace (y - y) with 0 by lra. rewrite Rabs_R0.
    rewrite decide_True by done. lra.
Qed.

Lemma Rsum_nonneg l : Forall (λ x, 0 <= x) l → 0 <= Rsum l.
Proof. induction 1; simpl; [lra|]. unfold Rsum in *. simpl. lra. Qed.

Lemma Rsum_zero_iff l : Forall (λ x, 0 <= x) l → Rsum l = 0 ↔ Forall (λ x, x = 0) l.
Proof.
  induction 1 as [|x l Hx Hl IH]; [done|]. unfold Rsum in *. simpl.
  pose proof (Rsum_nonneg l Hl) as Hs. unfold Rsum in Hs. split.
  - intros H. constructor; [lra|]. apply IH. lra.
  - intros [-> H0]%Forall_cons. apply IH in H0. lra.
Qed.

Lemma fmean_Fin l :
  l ≠ [] → fmean (Fin <$> l) = Fin (Rsum l / INR (length l)).
Proof.
  intros Hl. unfold fmean. rewrite fsum_Fin, length_fmap. simpl.
  rewrite decide_False; [done|]. apply not_0_INR. by destruct l.
Qed.

Lemma mean_nonneg l : l ≠ [] → Forall (λ x, 0 <= x) l → 0 <= Rsum l / INR (length l).
Proof.
  intros Hl Hpos. apply Rmult_le_pos; [by apply Rsum_nonneg|].
  apply Rlt_le, Rinv_0_lt_compat, lt_0_INR. destruct l; [done|simpl; lia].
Qed.

Lemma huber_loss_nonneg delta pred true :
  0 < delta → pred ≠ [] → true ≠ [] →
  ∃ r, huber_loss delta pred true = Fin r ∧ 0 <= r.
Proof.
  intros Hd Hp Ht. unfold huber_loss.
  assert (zip_with (huber delta) pred true ≠ []) as Hz.
  { by destruct pred, true. }
  rewrite fmean_Fin by done. eexists. split; [done|].
  apply mean_nonneg; [done|]. apply Forall_forall. intros z Hz'.
  apply list_elem_of_lookup in Hz' as [i Hi].
  apply lookup_zip_with_Some in Hi as (x & y & -> & _ & _). by apply huber_nonneg.
Qed.

Lemma Rsum_elem_le l x : Forall (λ y, 0 <= y) l → x ∈ l → x <= Rsum l.
Proof.
  induction 1 as [|y l Hy Hl IH]; [by intros ?%elem_of_nil|].
  pose proof (Rsum_nonneg l Hl) as Hs. unfold Rsum in *. simpl.
  intros [->|Hin]%elem_of_cons; [lra|]. specialize (IH Hin). lra.
Qed.

Lemma cross_entropy_row_nonneg logits target x :
  cross_entropy_row logits target = Ok x → ∃ r, x = Fin r ∧ 0 <= r.
Proof.
  unfold cross_entropy_row. destruct (logits !! target) as [l|] eqn:Hl; [|done].
  intros [= <-]. eexists. split; [done|].
  assert (exp l <= Rsum (exp <$> logits)) as Hle.
  { apply Rsum_elem_le.
    - apply Forall_fmap, Forall_forall. intros y _. simpl. apply Rlt_le, exp_pos.
    - apply list_elem_of_fmap. exists l. split; [done|]. by eapply list_elem_of_lookup_2. }
  assert (l <= ln (Rsum (exp <$> logits))); [|lra].
  rewrite <- (ln_exp l) at 1.
  destruct Hle as [Hlt|Heq]; [|rewrite Heq; lra].
  apply Rlt_le, ln_increasing; [apply exp_pos|done].
Qed.

(** X5.  In exact arithmetic (tensor elements as real numbers, so that
    nothing overflows and no input is infinite or NaN), on a batch that
    holds a detection the three losses that [pose_estimation_loss]
    returns are numbers and not negative (for a positive Huber
    threshold). *)
Theorem pose_estimation_loss_nonneg pb pd pc tb td tc delta cl rl ctl :
  0 < delta →
  mjoin pb ≠ [] → mjoin tb ≠ [] → mjoin (mjoin pd) ≠ [] → mjoin td ≠ [] →
  mjoin (mjoin pc) ≠ [] → mjoin tc ≠ [] →
  pose_estimation_loss pb pd pc tb td tc delta = Ok (cl, rl, ctl) →
  ∃ a b c, cl = Fin a ∧ rl = Fin b ∧ ctl = Fin c ∧ 0 <= a ∧ 0 <= b ∧ 0 <= c.
Proof.
  intros Hd Hpb Htb Hpd Htd Hpc Htc H. unfold pose_estimation_loss in H.
  bind_ok H. injection H as <- <- <-.
  destruct (huber_loss_nonneg delta (mjoin (mjoin pd)) (mjoin (components <$> mjoin td)))
    as (b & -> & Hb); [done|done| |].
  { destruct (mjoin td); [done|]. done. }
  destruct (huber_loss_nonneg delta (mjoin (mjoin pc))
              (mjoin ((λ '(dx, dy), [dx; dy]) <$> mjoin tc))) as (c & -> & Hc); [done|done| |].
  { destruct (mjoin tc) as [|[??] ?]; [done|]. done. }
  apply for_each_Forall2 in E.
  assert (∃ rs, a = Fin <$> rs ∧ Forall (λ r, 0 <= r) rs) as (rs & -> & Hrs).
  { clear -E. induction E as [|[logits target] x l l' Hx _ (rs & -> & Hrs)].
    - by exists [].
    - apply cross_entropy_row_nonneg in Hx as (r & -> & Hr). exists (r :: rs).
      split; [done|]. by constructor. }
  assert (rs ≠ []) as Hne.
  { apply Forall2_length in E. rewrite length_fmap, length_zip_with in E.
    destruct (mjoin pb), (mjoin tb), rs; simpl in *; try done; lia. }
  rewrite fmean_Fin by done. exists (Rsum rs / INR (length rs)), b, c.
  split_and!; try done. by apply mean_nonneg.
Qed.

Lemma pose_estimation_loss_nonneg_witness :
  ∃ cl rl ctl,
    pose_estimation_loss [[ [0; 1] ]] [[ [0; 0; 0; 1] ]] [[ [0.5; 0] ]]
      [[1%nat]] [[identity]] [[(0, 0)]] 0.15 = Ok (cl, rl, ctl)
    ∧ ∃ a b c, cl = Fin a ∧ rl = Fin b ∧ ctl = Fin c ∧ 0 <= a ∧ 0 <= b ∧ 0 <= c.
Proof.
  eexists _, _, _. split; [reflexivity|].
  apply (pose_estimation_loss_nonneg [[ [0; 1] ]] [[ [0; 0; 0; 1] ]] [[ [0.5; 0] ]]
           [[1%nat]] [[identity]] [[(0, 0)]] 0.15); first [lra | done | reflexivity].
Defined.

Lemma huber_loss_zero_iff delta pred true :
  0 < delta → pred ≠ [] → length pred = length true →
  huber_loss delta pred true = Fin 0 ↔ pred = true.
Proof.
  intros Hd Hp Hlen. unfold huber_loss.
  assert (zip_with (huber delta) pred true ≠ []) as Hz.
  { destruct pred, true; simpl in *; done. }
  assert (Forall (λ x, 0 <= x) (zip_with (huber delta) pred true)) as Hpos.
  { apply Forall_forall. intros z Hz'.
    apply list_elem_of_lookup in Hz' as [i Hi].
    apply lookup_zip_with_Some in Hi as (x & y & -> & _ & _). by apply huber_nonneg. }
  rewrite fmean_Fin by done.
  assert (0 < INR (length (zip_with (huber delta) pred true))) as Hn.
  { apply lt_0_INR. destruct (zip_with _ _ _); [done|simpl; lia]. }
  split.
  - intros [= H].
    assert (Rsum (zip_with (huber delta) pred true) = 0) as H0.
    { apply (Rmult_eq_compat_r (INR (length (zip_with (huber delta) pred true)))) in H.
      unfold Rdiv in H. rewrite Rmult_assoc, Rinv_l, Rmult_1_r, Rmult_0_l in H by lra. done. }
    apply Rsum_zero_iff in H0; [|done]. clear -H0 Hlen Hd.
    revert true Hlen H0. induction pred as [|x pred IH]; intros [|y true] Hlen H0;
      simpl in *; try done.
    apply Forall_cons in H0 as [Hxy H0]. apply huber_zero_iff in Hxy as ->; [|done].
    f_equal. apply IH; [lia|done].
  - intros <-. f_equal.
    assert (Rsum (zip_with (huber delta) pred pred) = 0) as ->.
    { apply Rsum_zero_iff.
      { apply Forall_forall. intros z Hz'.
        apply list_elem_of_lookup in Hz' as [i Hi].
        apply lookup_zip_with_Some in Hi as (x & y & -> & _ & _). by apply huber_nonneg. }
      clear -Hd. induction pred as [|x pred IH]; simpl; constructor; [|done].
      by apply huber_zero_iff. }
    unfold Rdiv. lra.
Qed.



(** X7.  On tensors of matching shapes [pose_estimation_loss] returns
    exactly when every target rotation bin is a valid class of its row of
    logits; otherwise it raises [IndexError] ([F.cross_entropy] refuses the
    target). *)
Theorem pose_estimation_loss_bins_in_range pb pd pc tb td tc delta :
  length (mjoin pb) = length (mjoin tb) →
  length (mjoin (mjoin pd)) = length (mjoin (components <$> mjoin td)) →
  length (mjoin (mjoin pc)) = length (mjoin ((λ '(dx, dy), [dx; dy]) <$> mjoin tc)) →
  let in_range :=
    Forall (λ '(logits, target), (target < length logits)%nat) (zip (mjoin pb) (mjoin tb)) in
  (in_range ↔ returns (pose_estimation_loss pb pd pc tb td tc delta))
  ∧ (¬ in_range ↔ pose_estimation_loss pb pd pc tb td tc delta = Raise IndexError).
Proof.
  intros _ _ _ in_range. unfold pose_estimation_loss.
  destruct (for_each _ (zip (mjoin pb) (mjoin tb))) as [rows|e] eqn:E; simpl.
  - assert in_range as Hin.
    { apply for_each_Forall2 in E. apply Forall_forall. intros [logits target] Hx.
      apply list_elem_of_lookup in Hx as [i Hi].
      destruct (Forall2_lookup_l _ _ _ _ _ E Hi) as (y & _ & Hy).
      unfold cross_entropy_row in Hy.
      destruct (logits !! target) eqn:Hl; [|done]. by eapply lookup_lt_Some. }
    split; split; try done. by eexists.
  - apply for_each_Raise in E as ([logits target] & Hx & He).
    unfold cross_entropy_row in He.
    destruct (logits !! target) eqn:Hl; [done|]. injection He as <-.
    assert (¬ in_range) as Hout.
    { intros Hin. unfold in_range in Hin. rewrite Forall_forall in Hin.
      specialize (Hin _ Hx). simpl in Hin. apply lookup_ge_None in Hl. lia. }
    split; split; try done. by intros [? ?].
Qed.

Lemma pose_estimation_loss_bins_in_range_witness :
  (Forall (λ '(logits, target), (target < length logits)%nat) [([0; 1], 2%nat)]
   ↔ returns (pose_estimation_loss [[ [0; 1] ]] [[ [0; 0; 0; 1] ]] [[ [0.5; 0] ]]
                [[2%nat]] [[identity]] [[(0, 0)]] 0.15))
  ∧ (¬ Forall (λ '(logits, target), (target < length logits)%nat) [([0; 1], 2%nat)]
     ↔ pose_estimation_loss [[ [0; 1] ]] [[ [0; 0; 0; 1] ]] [[ [0.5; 0] ]]
         [[2%nat]] [[identity]] [[(0, 0)]] 0.15 = Raise IndexError).
Proof.
  by apply (pose_estimation_loss_bins_in_range [[ [0; 1] ]] [[ [0; 0; 0; 1] ]] [[ [0.5; 0] ]]
              [[2%nat]] [[identity]] [[(0, 0)]] 0.15).
Defined.

(** X8.  On a batch without a detection [pose_estimation_loss] does not
    raise: each of the three losses is a mean over no element, which is
    NaN. *)
Theorem pose_estimation_loss_empty_batch pb pd pc tb td tc delta :
  mjoin pb = [] → mjoin pd = [] → mjoin pc = [] →
  mjoin tb = [] → mjoin td = [] → mjoin tc = [] →
  pose_estimation_loss pb pd pc tb td tc delta = Ok (NaN, NaN, NaN).
Proof.
  intros Hpb Hpd Hpc Hb Hd Hc. unfold pose_estimation_loss.
  rewrite Hpb, Hpd, Hpc, Hb, Hd, Hc. simpl.
  unfold huber_loss, fmean, fsum, fdiv, signed_inf. simpl. by rewrite !decide_True by done.
Qed.

Lemma pose_estimation_loss_empty_batch_witness :
  pose_estimation_loss [[]; []] [[]; []] [[]; []] [[]; []] [[]; []] [[]; []] 0.15
  = Ok (NaN, NaN, NaN).
Proof.
  by apply (pose_estimation_loss_empty_batch [[]; []] [[]; []] [[]; []] [[]; []] [[]; []]
              [[]; []] 0.15).
Defined.

End pose_losses.


(** ** shape_embedding_loss *)

Section contrastive_more.
Import Mask2CAD.
Local Open Scope R_scope.

(** X9.  On well-shaped tensors [shape_embedding_loss] returns exactly
    when neither [P] nor [N] exceeds the number B * Q * V of rendered views
    in the batch; otherwise [topk] raises [RuntimeError]. *)
Theorem shape_embedding_loss_topk_bounds
    (img_region_features : list (list vec)) (rendered_view_features : list (list (list vec)))
    category_idx shape_idx C tau P N c :
  Spec.well_shaped img_region_features rendered_view_features category_idx shape_idx →
  Forall (λ e : vec, length e = c) (mjoin img_region_features) →
  Forall (λ e : vec, length e = c) (mjoin (mjoin rendered_view_features)) →
  let views := length (mjoin (mjoin rendered_view_features)) in
  ((P ≤ views ∧ N ≤ views)%nat
   ↔ returns (shape_embedding_loss img_region_features rendered_view_features
                category_idx shape_idx C tau P N))
  ∧ (¬ (P ≤ views ∧ N ≤ views)%nat
     ↔ shape_embedding_loss img_region_features rendered_view_features
         category_idx shape_idx C tau P N = Raise RuntimeError).
Proof.
  intros _ _ _ views. unfold shape_embedding_loss, topk_rows.
  assert (length (mjoin (mjoin (bq_map (λ views, normalize <$> views) rendered_view_features)))
          = views) as ->.
  { unfold views, bq_map. rewrite <- !fmap_mjoin, length_fmap. done. }
  destruct (decide (P ≤ views)%nat) as [HP|HP]; simpl.
  - destruct (decide (N ≤ views)%nat) as [HN|HN]; simpl.
    + split; split; try done; [by eexists|tauto].
    + split; split; try done; [tauto|by intros [??]|tauto].
  - split; split; try done; [tauto|by intros [??]|tauto].
Qed.

Lemma shape_embedding_loss_topk_bounds_witness :
  ((3 ≤ 2 ∧ 1 ≤ 2)%nat
   ↔ returns (shape_embedding_loss [[ [1; 0] ]] [[ [[1; 0]; [0; 1]] ]] [[0%nat]] [[0%nat]]
                1.5 0.15 3 1))
  ∧ (¬ (3 ≤ 2 ∧ 1 ≤ 2)%nat
     ↔ shape_embedding_loss [[ [1; 0] ]] [[ [[1; 0]; [0; 1]] ]] [[0%nat]] [[0%nat]]
         1.5 0.15 3 1 = Raise RuntimeError).
Proof.
  apply (shape_embedding_loss_topk_bounds [[ [1; 0] ]] [[ [[1; 0]; [0; 1]] ]] [[0%nat]]
           [[0%nat]] 1.5 0.15 3 1 2).
  - unfold Spec.well_shaped. simpl. repeat split; try done. by repeat constructor.
  - by repeat constructor.
  - by repeat constructor.
Defined.

Lemma dot_scale_l c u v : dot (Rmult c <$> u) v = c * dot u v.
Proof.
  unfold dot, Rsum. revert v. induction u as [|x u IH]; intros [|y v]; simpl; try lra.
  rewrite IH. lra.
Qed.

Lemma dot_scale_r c u v : dot u (Rmult c <$> v) = c * dot u v.
Proof.
  unfold dot, Rsum. revert v. induction u as [|x u IH]; intros [|y v]; simpl; try lra.
  rewrite IH. lra.
Qed.

Lemma norm_scale c v : 0 <= c → norm (Rmult c <$> v) = c * norm v.
Proof.
  intros Hc. unfold norm. rewrite dot_scale_l, dot_scale_r.
  rewrite <- Rmult_assoc, sqrt_mult_alt by nra.
  replace (c * c) with (c²) by (unfold Rsqr; lra). by rewrite sqrt_Rsqr.
Qed.

(** Above the clamp [eps], [F.normalize] sees the direction only. *)
Lemma normalize_scale c v :
  0 < c → normalize_eps <= norm v → normalize_eps <= c * norm v →
  normalize (Rmult c <$> v) = normalize v.
Proof.
  intros Hc Hv Hcv. unfold normalize.
  assert (0 < normalize_eps) as Heps.
  { unfold normalize_eps. apply Rinv_0_lt_compat. lra. }
  rewrite norm_scale by lra. rewrite !Rmax_left by done.
  rewrite <- list_fmap_compose. apply list_fmap_ext. intros _ x _. simpl.
  field. split; lra.
Qed.

(** X10.  In exact arithmetic (tensor elements as real numbers, no
    rounding or overflow) [shape_embedding_loss] depends on the directions
    of the embeddings only: scaling the region embeddings by one positive
    factor and the view embeddings by another leaves the loss unchanged,
    as long as every norm stays above the clamp of [F.normalize]. *)
Theorem shape_embedding_loss_scale_invariant c1 c2
    (img_region_features : list (list vec)) (rendered_view_features : list (list (list vec)))
    category_idx shape_idx C tau P N :
  0 < c1 → 0 < c2 →
  Forall (Forall (λ e, normalize_eps <= norm e ∧ normalize_eps <= c1 * norm e))
    img_region_features →
  Forall (Forall (Forall (λ e, normalize_eps <= norm e ∧ normalize_eps <= c2 * norm e)))
    rendered_view_features →
  shape_embedding_loss (bq_map (λ e : vec, Rmult c1 <$> e) img_region_features)
    (bq_map (λ views : list vec, (λ e : vec, Rmult c2 <$> e) <$> views) rendered_view_features)
    category_idx shape_idx C tau P N
  = shape_embedding_loss img_region_features rendered_view_features
      category_idx shape_idx C tau P N.
Proof.
  intros Hc1 Hc2 Hf Hr. unfold shape_embedding_loss.
  assert (bq_map normalize (bq_map (λ e : vec, Rmult c1 <$> e) img_region_features)
          = bq_map normalize img_region_features) as ->.
  { unfold bq_map. rewrite <- list_fmap_compose.
    apply Forall_fmap_ext_1. eapply Forall_impl; [exact Hf|]. intros row Hrow. simpl.
    rewrite <- list_fmap_compose. apply Forall_fmap_ext_1.
    eapply Forall_impl; [exact Hrow|]. intros e [??]. simpl. by apply normalize_scale. }
  assert (bq_map (λ views, normalize <$> views)
            (bq_map (λ views : list vec, (λ e : vec, Rmult c2 <$> e) <$> views) rendered_view_features)
          = bq_map (λ views, normalize <$> views) rendered_view_features) as ->; [|done].
  unfold bq_map. rewrite <- list_fmap_compose.
  apply Forall_fmap_ext_1. eapply Forall_impl; [exact Hr|]. intros row Hrow. simpl.
  rewrite <- list_fmap_compose. apply Forall_fmap_ext_1.
  eapply Forall_impl; [exact Hrow|]. intros vs Hvs. simpl.
  rewrite <- list_fmap_compose. apply Forall_fmap_ext_1.
  eapply Forall_impl; [exact Hvs|]. intros e [??]. simpl. by apply normalize_scale.
Qed.

Lemma norm_e1 : norm [1; 0] = 1.
Proof.
  unfold norm, dot, Rsum. simpl. replace (1 * 1 + (0 * 0 + 0)) with 1 by lra. apply sqrt_1.
Qed.

Lemma normalize_eps_le_1 : normalize_eps <= 1.
Proof.
  unfold normalize_eps. apply (Rmult_le_reg_r 1000000000000); [lra|].
  rewrite Rinv_l by lra. lra.
Qed.

Lemma shape_embedding_loss_scale_invariant_witness :
  shape_embedding_loss (bq_map (λ e : vec, Rmult 2 <$> e) [[ [1; 0] ]])
    (bq_map (λ views : list vec, (λ e : vec, Rmult 3 <$> e) <$> views) [[ [[1; 0]] ]])
    [[0%nat]] [[0%nat]] 1.5 0.15 1 1
  = shape_embedding_loss [[ [1; 0] ]] [[ [[1; 0]] ]] [[0%nat]] [[0%nat]] 1.5 0.15 1 1.
Proof.
  pose proof normalize_eps_le_1.
  apply (shape_embedding_loss_scale_invariant 2 3 [[ [1; 0] ]] [[ [[1; 0]] ]]
           [[0%nat]] [[0%nat]] 1.5 0.15 1 1); [lra|lra| |];
    rewrite !Forall_singleton, norm_e1; split; lra.
Defined.

End contrastive_more.


(** ** forward in training mode *)

Section weights.
Import quat Mask2CAD.
Local Open Scope R_scope.

(** Line 96 is the only place of the training path that reads
    [loss_weights]. *)
Lemma forward_training_weighted self img rendered tg P N :
  (∃ e, ∀ lw, forward_training self img rendered tg lw P N = Raise e)
  ∨ (∃ se pc pr cr, ∀ lw, forward_training self img rendered tg lw P N
                          = (loss ← weighted_loss lw se pc pr cr; Ok (Loss loss))).
Proof.
  unfold forward_training.
  destruct tg as [tg|]; simpl; [|left; by eexists].
  repeat match goal with
         | |- context [mbind _ ?m] =>
             lazymatch m with
             | weighted_loss _ _ _ _ _ => fail
             | _ => destruct m as [?|?]; simpl; [|left; by eexists]
             end
         | |- context [let '(_, _) := ?p in _] => destruct p; simpl
         end.
  right. by eexists _, _, _, _.
Qed.

(** X11.  [forward] reads [loss_weights] at the three keys
    [shape_embedding], [pose_classification] and [pose_regression] only:
    two dictionaries that agree there give the same result, whatever else
    they hold. *)
Theorem forward_reads_three_weights self img rendered tg lw lw' P N :
  lw !! "shape_embedding" = lw' !! "shape_embedding" →
  lw !! "pose_classification" = lw' !! "pose_classification" →
  lw !! "pose_regression" = lw' !! "pose_regression" →
  forward self img rendered tg lw P N = forward self img rendered tg lw' P N.
Proof.
  intros H1 H2 H3. unfold forward. destruct (training self); [|done].
  destruct (forward_training_weighted self img rendered tg P N)
    as [[e He]|(se & pc & pr & cr & Hw)].
  - by rewrite !He.
  - rewrite !Hw. unfold weighted_loss, getitem. by rewrite H1, H2, H3.
Qed.

Lemma forward_reads_three_weights_witness :
  forward (Examples.example_model true) [Examples.example_image] [[Examples.example_image]]
    (Some Examples.example_targets) default_loss_weights 1 1
  = forward (Examples.example_model true) [Examples.example_image] [[Examples.example_image]]
      (Some Examples.example_targets) (<["center_regression" := 0]> default_loss_weights) 1 1.
Proof.
  by apply (forward_reads_three_weights (Examples.example_model true) [Examples.example_image]
              [[Examples.example_image]] (Some Examples.example_targets) default_loss_weights
              (<["center_regression" := 0]> default_loss_weights) 1 1).
Defined.

(** X12.  A training call that returns had all three keys in
    [loss_weights].  The same call with a dictionary that misses one raises
    [KeyError] for the first missing key in the order [shape_embedding],
    [pose_classification], [pose_regression], after the losses have been
    computed. *)
Theorem forward_missing_weight self img rendered tg lw lw' P N out :
  training self = true →
  forward self img rendered tg lw P N = Ok out →
  (is_Some (lw !! "shape_embedding") ∧ is_Some (lw !! "pose_classification")
   ∧ is_Some (lw !! "pose_regression"))
  ∧ (lw' !! "shape_embedding" = None →
     forward self img rendered tg lw' P N = Raise (KeyError "shape_embedding"))
  ∧ (is_Some (lw' !! "shape_embedding") → lw' !! "pose_classification" = None →
     forward self img rendered tg lw' P N = Raise (KeyError "pose_classification"))
  ∧ (is_Some (lw' !! "shape_embedding") → is_Some (lw' !! "pose_classification") →
     lw' !! "pose_regression" = None →
     forward self img rendered tg lw' P N = Raise (KeyError "pose_regression")).
Proof.
  intros Htrain H. unfold forward in *. rewrite Htrain in *.
  destruct (forward_training_weighted self img rendered tg P N)
    as [[e He]|(se & pc & pr & cr & Hw)].
  { by rewrite He in H. }
  rewrite Hw in H. rewrite Hw. unfold weighted_loss, getitem in *. split_and!.
  - destruct (lw !! "shape_embedding"); [by eexists|done].
  - destruct (lw !! "shape_embedding"); [|done].
    destruct (lw !! "pose_classification"); [by eexists|done].
  - destruct (lw !! "shape_embedding"); [|done].
    destruct (lw !! "pose_classification"); [|done].
    destruct (lw !! "pose_regression"); [by eexists|done].
  - by intros ->.
  - by intros [? ->] ->.
  - by intros [? ->] [? ->] ->.
Qed.

Lemma forward_missing_weight_witness :
  ∃ out,
    forward (Examples.example_model true) [Examples.example_image] [[Examples.example_image]]
      (Some Examples.example_targets) default_loss_weights 1 1 = Ok out
    ∧ forward (Examples.example_model true) [Examples.example_image]
        [[Examples.example_image]] (Some Examples.example_targets)
        {["shape_embedding" := 1; "pose_classification" := 1]} 1 1
      = Raise (KeyError "pose_regression").
Proof.
  eexists. split; [reflexivity|].
  eapply (forward_missing_weight (Examples.example_model true) [Examples.example_image]
            [[Examples.example_image]] (Some Examples.example_targets) default_loss_weights
            {["shape_embedding" := 1; "pose_classification" := 1]} 1 1);
    first [reflexivity | by eexists].
Defined.

(** X13.  A model built without rotation anchors (the default
    [object_rotation_quat = None] of the constructor) returns no loss:
    every training call raises. *)
Theorem training_without_anchors_raises self img rendered tg lw P N :
  training self = true → object_rotation_quat self = None →
  ¬ returns (forward self img rendered tg lw P N).
Proof.
  intros Htrain Hnone [out H]. unfold forward in H. rewrite Htrain in H.
  unfold forward_training in H.
  destruct tg as [tg|]; simpl in H; [|done].
  destruct (branches _ _ _ _) as [[[[se bins] delta] center]|]; [|done].
  simpl in H. bind_ok H.
  match goal with
  | Hc : compute_rotation_location_targets _ _ _ _ _ = Ok _ |- _ =>
      unfold compute_rotation_location_targets in Hc; by rewrite Hnone in Hc
  end.
Qed.

Lemma training_without_anchors_raises_witness :
  ¬ returns (forward
               (Build true None 1 1 (λ _, [1]) Examples.example_detector (λ _, [1])
                  (λ _, [0]) (λ _, [0; 0; 0; 1]) (λ _, [0; 0]))
               [Examples.example_image] [[Examples.example_image]]
               (Some Examples.example_targets) default_loss_weights 1 1).
Proof.
  by apply (training_without_anchors_raises
              (Build true None 1 1 (λ _, [1]) Examples.example_detector (λ _, [1])
                 (λ _, [0]) (λ _, [0; 0; 0; 1]) (λ _, [0; 0]))
              [Examples.example_image] [[Examples.example_image]]
              (Some Examples.example_targets) default_loss_weights 1 1).
Defined.

End weights.


(** ** compute_rotation_location_targets *)

Section targets_more.
Import quat Mask2CAD.
Local Open Scope R_scope.

Lemma for_each_for_each_Raise {X Y} (f : X → result Y) (t : list (list X)) e :
  (∀ x e', f x = Raise e' → e' = e) →
  (∃ x, x ∈ mjoin t ∧ ¬ returns (f x)) →
  for_each (for_each f) t = Raise e.
Proof.
  intros Hexn (x & Hx & Hnot).
  destruct (for_each (for_each f) t) as [out|e'] eqn:E.
  - exfalso. apply Hnot. apply list_elem_of_join in Hx as (row & Hx & Hrow).
    apply list_elem_of_lookup in Hrow as [b Hb]. apply list_elem_of_lookup in Hx as [q Hq].
    destruct (at_for_each f t out b q x E) as (y & _ & Hy); [|by exists y].
    apply at_Some. eauto.
  - f_equal. apply for_each_Raise in E as (row & _ & Hrow).
    apply for_each_Raise in Hrow as (x' & _ & Hx'). eauto.
Qed.

(** X14.  A category index beyond the anchor table makes
    [compute_rotation_location_targets] raise [IndexError], whatever the
    other arguments are. *)
Theorem category_out_of_range self bbox loc rot cat anchors c :
  object_rotation_quat self = Some anchors →
  c ∈ mjoin cat → (length anchors ≤ c)%nat →
  compute_rotation_location_targets self bbox loc rot cat = Raise IndexError.
Proof.
  intros Ha Hc Hlen. unfold compute_rotation_location_targets. rewrite Ha. simpl.
  rewrite (for_each_for_each_Raise (index anchors) cat IndexError); [done| |].
  - intros x e. unfold index. destruct (anchors !! x); [done|]. by intros [= <-].
  - exists c. split; [done|]. intros [A HA]. unfold index in HA.
    by rewrite (lookup_ge_None_2 anchors c) in HA.
Qed.

Lemma category_out_of_range_witness :
  compute_rotation_location_targets (Examples.example_model true)
    [[(0, 0, 2, 2)]] [[(1, 1, 5)]] [[identity]] [[1%nat]] = Raise IndexError.
Proof.
  apply (category_out_of_range (Examples.example_model true)
           [[(0, 0, 2, 2)]] [[(1, 1, 5)]] [[identity]] [[1%nat]] [[identity]] 1).
  - reflexivity.
  - simpl. apply list_elem_of_singleton. reflexivity.
  - simpl. lia.
Defined.

Lemma argmin_from_spec best_i best i row :
  (argmin_from best_i best i row = best_i ∧ Forall (λ x, best <= x) row)
  ∨ ∃ k m, argmin_from best_i best i row = (i + k)%nat ∧ row !! k = Some m ∧ m < best
           ∧ Forall (λ x, m <= x) row ∧ Forall (λ x, m < x) (take k row).
Proof.
  revert best_i best i. induction row as [|x row IH]; intros best_i best i; simpl.
  { left. split; [done|constructor]. }
  case_decide as Hlt.
  - right. destruct (IH i x (S i)) as [[-> Hall]|(k & m & -> & Hk & Hm & Hall & Hbefore)].
    + exists 0%nat, x. split_and!; [lia|done|done|by constructor; [lra|]|constructor].
    + exists (S k), m. split_and!; [lia|done|lra|constructor; [lra|done]|].
      simpl. constructor; [lra|done].
  - destruct (IH best_i best (S i)) as [[-> Hall]|(k & m & -> & Hk & Hm & Hall & Hbefore)].
    + left. split; [done|]. constructor; [lra|done].
    + right. exists (S k), m. split_and!; [lia|done|done|constructor; [lra|done]|].
      simpl. constructor; [lra|done].
Qed.

(** [argmin] is the position of the first minimal entry. *)
Lemma argmin_first_minimum row i :
  argmin row = Ok i →
  ∃ m, row !! i = Some m ∧ Forall (λ x, m <= x) row ∧ Forall (λ x, m < x) (take i row).
Proof.
  destruct row as [|x row]; [done|]. intros [= <-].
  destruct (argmin_from_spec 0 x 1 row) as [[-> Hall]|(k & m & -> & Hk & Hm & Hall & Hbefore)].
  - exists x. split_and!; [done|constructor; [lra|done]|constructor].
  - exists m. split_and!; [done|constructor; [lra|done]|].
    simpl. constructor; [lra|done].
Qed.

(** X15.  The rotation bin of a detection is the anchor of its category
    nearest to the true rotation in the sign-invariant distance of
    [quatcdist], and the first such anchor when several are equally near. *)
Theorem rotation_bin_is_nearest_anchor
    self bbox loc rot cat bins deltas centers anchors b q c r A :
  compute_rotation_location_targets self bbox loc rot cat = Ok (bins, deltas, centers) →
  object_rotation_quat self = Some anchors →
  at_ cat b q = Some c → at_ rot b q = Some r → anchors !! c = Some A →
  let distance (a : quaternion) := Rmin (chordal r a) (chordal r (quatneg a)) in
  ∃ bin a, at_ bins b q = Some bin ∧ A !! bin = Some a
    ∧ (∀ a', a' ∈ A → distance a <= distance a')
    ∧ (∀ j a', (j < bin)%nat → A !! j = Some a' → distance a < distance a').
Proof.
  intros H Ha Hc Hr HA distance.
  destruct (compute_rotation_location_targets_at _ _ _ _ _ _ _ _ _ _ _ _ H Hc Hr)
    as (anchors' & A' & bin & a & Ha' & HA' & Harg & Hbin & Hsel & _).
  rewrite Ha in Ha'. injection Ha' as <-. rewrite HA in HA'. injection HA' as <-.
  exists bin, a. split; [done|]. split; [done|].
  apply argmin_first_minimum in Harg as (m & Hm & Hall & Hbefore).
  unfold quatcdist in Hm, Hall, Hbefore. simpl in Hm, Hall, Hbefore.
  rewrite app_nil_r in Hm, Hall, Hbefore.
  rewrite list_lookup_fmap, Hsel in Hm. injection Hm as <-. split.
  - intros a' Ha'. rewrite Forall_fmap, Forall_forall in Hall. by apply Hall.
  - intros j a' Hj Ha'. rewrite <- fmap_take, Forall_fmap, Forall_forall in Hbefore.
    apply Hbefore. apply list_elem_of_lookup. exists j. by rewrite lookup_take_lt.
Qed.

Lemma rotation_bin_is_nearest_anchor_witness :
  ∃ bin a, at_ [[1%nat]] 0 0 = Some bin ∧ [identity; Quat 1 0 0 0] !! bin = Some a
    ∧ (∀ a', a' ∈ [identity; Quat 1 0 0 0] →
         Rmin (chordal (Quat (-1) 0 0 0) a) (chordal (Quat (-1) 0 0 0) (quatneg a))
         <= Rmin (chordal (Quat (-1) 0 0 0) a') (chordal (Quat (-1) 0 0 0) (quatneg a')))
    ∧ (∀ j a', (j < bin)%nat → [identity; Quat 1 0 0 0] !! j = Some a' →
         Rmin (chordal (Quat (-1) 0 0 0) a) (chordal (Quat (-1) 0 0 0) (quatneg a))
         < Rmin (chordal (Quat (-1) 0 0 0) a') (chordal (Quat (-1) 0 0 0) (quatneg a'))).
Proof.
  eapply (rotation_bin_is_nearest_anchor (RotationExamples.two_anchor_model true)
            [[(0, 0, 2, 4)]] [[(3, 1, 5)]] [[Quat (-1) 0 0 0]] [[0%nat]]
            [[1%nat]] _ _ [[identity; Quat 1 0 0 0]] 0 0 0%nat (Quat (-1) 0 0 0)
            [identity; Quat 1 0 0 0]);
    [apply two_anchor_targets|reflexivity..].
Defined.

End targets_more.


(** ** CacheInputOutput *)

Section cache.
Import CacheInputOutput.

(** X19.  After any sequence of calls a [CacheInputOutput] holds the
    arguments and the output of the last call only, still wraps the same
    model, and answers as the wrapped model does. *)
Theorem cache_holds_last_call {A B} (m : A → B) (calls : list A) (a : A) :
  let after := foldl (λ self x, (forward self x).1) (init m) (calls ++ [a]) in
  model after = m ∧ args after = Some a ∧ output after = Some (m a)
  ∧ (forward after a).2 = m a.
Proof.
  intros after. unfold after. rewrite foldl_app. simpl.
  assert (∀ self, model self = m → model (foldl (λ self x, (forward self x).1) self calls) = m)
    as Hm.
  { induction calls as [|x calls IH]; intros self Hs; simpl; [done|]. by apply IH. }
  rewrite Hm by done. done.
Qed.

End cache.


(** * Properties of [datasets.py] *)

(** ** Dictionaries *)

Section dict_facts.
Context {K V : Type} `{EqDecision K}.
Implicit Types (d : list (K * V)) (k : K) (v : V).

Lemma dict_get_set d k v k' :
  dict.get (dict.set d k v) k' = if decide (k' = k) then Some v else dict.get d k'.
Proof.
  induction d as [|[k0 v0] d IH]; simpl.
  - by destruct (decide (k' = k)).
  - destruct (decide (k = k0)) as [->|Hne]; simpl.
    + by destruct (decide (k' = k0)).
    + destruct (decide (k' = k0)) as [->|?]; [|done].
      by rewrite decide_False by done.
Qed.

Lemma dict_keys_set d k v :
  dict.keys (dict.set d k v) = if decide (k ∈ dict.keys d) then dict.keys d
                               else dict.keys d ++ [k].
Proof.
  unfold dict.keys. induction d as [|[k0 v0] d IH].
  - destruct (decide (k ∈ [])) as [Hin|_]; [by apply elem_of_nil in Hin|done].
  - cbn [dict.set]. rewrite fmap_cons. cbn [fst].
    destruct (decide (k = k0)) as [->|Hne].
    + rewrite fmap_cons. cbn [fst]. rewrite decide_True; [done|]. by left.
    + rewrite fmap_cons. cbn [fst]. rewrite IH. destruct (decide (k ∈ d.*1)) as [Hin|Hin].
      * rewrite decide_True; [done|]. by right.
      * rewrite decide_False; [done|]. by intros [?|?]%elem_of_cons.
Qed.

Lemma dict_keys_set_NoDup d k v : NoDup (dict.keys d) → NoDup (dict.keys (dict.set d k v)).
Proof.
  intros Hd. rewrite dict_keys_set. case_decide; [done|].
  apply NoDup_app. split_and!; [done| |apply NoDup_singleton].
  intros x Hx ->%list_elem_of_singleton. done.
Qed.

Lemma dict_comprehension_snoc (kvs : list (K * V)) k v :
  dict.comprehension (kvs ++ [(k, v)]) = dict.set (dict.comprehension kvs) k v.
Proof. unfold dict.comprehension. by rewrite foldl_app. Qed.

Lemma dict_comprehension_NoDup (kvs : list (K * V)) : NoDup (dict.keys (dict.comprehension kvs)).
Proof.
  induction kvs as [|[k v] kvs IH] using rev_ind; [constructor|].
  rewrite dict_comprehension_snoc. by apply dict_keys_set_NoDup.
Qed.

(** A key holds the value it was given last. *)
Lemma dict_comprehension_get (kvs : list (K * V)) k v :
  dict.get (dict.comprehension kvs) k = Some v
  ↔ ∃ i, kvs !! i = Some (k, v) ∧ ∀ j v', kvs !! j = Some (k, v') → j ≤ i.
Proof.
  revert v. induction kvs as [|[k0 v0] kvs IH] using rev_ind; intros v.
  { split; [done|]. by intros (i & Hi & _). }
  rewrite dict_comprehension_snoc, dict_get_set.
  destruct (decide (k = k0)) as [->|Hne].
  - split.
    + intros [= <-]. exists (length kvs). split.
      * by rewrite lookup_app_r, Nat.sub_diag by lia.
      * intros j v' Hj. apply lookup_lt_Some in Hj. rewrite length_app in Hj. simpl in Hj. lia.
    + intros (i & Hi & Hlast).
      assert ((kvs ++ [(k0, v0)]) !! length kvs = Some (k0, v0)) as Hend.
      { by rewrite lookup_app_r, Nat.sub_diag by lia. }
      pose proof (Hlast _ _ Hend) as Hle.
      pose proof (lookup_lt_Some _ _ _ Hi) as Hlt. rewrite length_app in Hlt. simpl in Hlt.
      assert (i = length kvs) as -> by lia. rewrite Hend in Hi. by injection Hi as <-.
  - rewrite IH. split.
    + intros (i & Hi & Hlast). exists i. split.
      * by apply lookup_app_l_Some.
      * intros j v' Hj. apply lookup_app_Some in Hj as [Hj|[_ Hj]]; [by eapply Hlast|].
        apply list_lookup_singleton_Some in Hj as [_ [= ? _]]. done.
    + intros (i & Hi & Hlast). exists i.
      apply lookup_app_Some in Hi as [Hi|[_ Hi]].
      * split; [done|]. intros j v' Hj. eapply Hlast. by apply lookup_app_l_Some.
      * apply list_lookup_singleton_Some in Hi as [_ [= ? _]]. done.
Qed.

Lemma dict_get_elem_of d k v : dict.get d k = Some v → (k, v) ∈ d.
Proof.
  induction d as [|[k0 v0] d IH]; simpl; [done|].
  case_decide as Hk; [intros [= <-]; subst; by left|]. intros ?. right. by apply IH.
Qed.

Lemma dict_elem_of_get d k v : NoDup (dict.keys d) → (k, v) ∈ d → dict.get d k = Some v.
Proof.
  unfold dict.keys. induction d as [|[k0 v0] d IH]; simpl; [by intros _ ?%elem_of_nil|].
  intros [Hk0 Hd]%NoDup_cons [Heq|Hin]%elem_of_cons.
  - injection Heq as -> ->. by rewrite decide_True.
  - rewrite decide_False; [by apply IH|]. intros ->. apply Hk0.
    apply list_elem_of_fmap. by exists (k0, v).
Qed.

Lemma dict_comprehension_keys (kvs : list (K * V)) k :
  k ∈ dict.keys (dict.comprehension kvs) ↔ k ∈ kvs.*1.
Proof.
  induction kvs as [|[k0 v0] kvs IH] using rev_ind; [done|].
  rewrite dict_comprehension_snoc, dict_keys_set, fmap_app. simpl.
  case_decide as Hin; rewrite !elem_of_app, ?list_elem_of_singleton, <- ?IH.
  - split; [by left|]. intros [?| ->]; done.
  - done.
Qed.
End dict_facts.

(** ** Samplers *)

Section samplers.

Lemma enumerate_lookup {A} (l : list A) j i x :
  enumerate l !! j = Some (i, x) ↔ i = j ∧ l !! j = Some x.
Proof.
  unfold enumerate. rewrite list_lookup_imap.
  destruct (l !! j) as [y|]; simpl.
  - split; [by intros [= <- <-]|by intros [-> [= <-]]].
  - split; [done|by intros [_ ?]].
Qed.

Lemma swapped_enumerate_lookup (models : list string) j m i :
  ((λ '(i, m), (m, i)) <$> enumerate models) !! j = Some (m, i)
  ↔ i = j ∧ models !! j = Some m.
Proof.
  rewrite list_lookup_fmap. destruct (enumerate models !! j) as [[i' m']|] eqn:E; simpl.
  - apply enumerate_lookup in E as [-> E]. rewrite E.
    split; [by intros [= <- <-]|by intros [-> [= <-]]].
  - split; [done|]. intros [-> Hm].
    assert (enumerate models !! j = Some (j, m)) as E' by (by apply enumerate_lookup).
    congruence.
Qed.

(** X20.  The rows of the unique-shape sampler are pairwise distinct, and
    a row is there exactly when it is [i] followed by the view numbers
    [1 .. num_rendered_views], where [i] is the last position at which
    some shape path occurs in the metadata: every shape is listed once,
    through its last example. *)
Theorem unique_shape_rows (models : list string) (num_rendered_views : nat) :
  let rows := UniqueShapeRenderedViewsSequentialSampler.__iter__
                (UniqueShapeRenderedViewsSequentialSampler.__init__ models num_rendered_views) in
  NoDup rows
  ∧ ∀ row, row ∈ rows
      ↔ ∃ i m, row = i :: seq 1 num_rendered_views ∧ models !! i = Some m
               ∧ ∀ j, models !! j = Some m → j ≤ i.
Proof.
  intros rows. unfold rows, UniqueShapeRenderedViewsSequentialSampler.__iter__,
    UniqueShapeRenderedViewsSequentialSampler.__init__. simpl.
  set (kvs := (λ '(i, m), (m, i)) <$> enumerate models).
  set (d := dict.comprehension kvs).
  pose proof (dict_comprehension_NoDup kvs) as Hkeys. fold d in Hkeys.
  assert (∀ m i, (m, i) ∈ d ↔ models !! i = Some m ∧ ∀ j, models !! j = Some m → j ≤ i)
    as Hd.
  { intros m i. split.
    - intros Hin%(dict_elem_of_get _ _ _ Hkeys).
      apply dict_comprehension_get in Hin as (j & Hj & Hlast).
      apply swapped_enumerate_lookup in Hj as [-> Hm]. split; [done|].
      intros j' Hj'. apply (Hlast j' j'). by apply swapped_enumerate_lookup.
    - intros [Hm Hlast]. apply dict_get_elem_of. apply dict_comprehension_get.
      exists i. split; [by apply swapped_enumerate_lookup|].
      intros j v' [-> Hj]%swapped_enumerate_lookup. by apply Hlast. }
  split.
  - apply NoDup_fmap_2; [by intros i j [= ->]|].
    unfold dict.values. apply NoDup_fmap_2_strong; [|by eapply NoDup_fmap_1].
    intros [m1 i1] [m2 i2] [H1 _]%Hd [H2 _]%Hd. simpl. intros ->. congruence.
  - intros row. rewrite list_elem_of_fmap. unfold dict.values. split.
    + intros (i & -> & Hi). apply list_elem_of_fmap in Hi as ([m i'] & -> & Hin).
      apply Hd in Hin as [Hm Hlast]. by exists i', m.
    + intros (i & m & -> & Hm & Hlast). exists i. split; [done|].
      apply list_elem_of_fmap. exists (m, i). split; [done|]. by apply Hd.
Qed.
End samplers.

(** ** RenderedViewsRandomSampler *)

Section random_sampler.
Import RenderedViewsRandomSampler.

Lemma argsort_Permutation row : argsort row ≡ₚ seq 0 (length row).
Proof.
  unfold argsort. rewrite merge_sort_Permutation. rewrite snd_zip; [done|].
  by rewrite length_seq.
Qed.

Lemma chunks_lookup {A} B Q (t : list A) i :
  i < B → chunks B Q t !! i = Some (take Q (drop (i * Q) t)).
Proof.
  revert t i. induction B as [|B IH]; intros t i Hi; [lia|].
  destruct i as [|i]; simpl; [done|].
  rewrite IH by lia. by rewrite drop_drop.
Qed.

(** In a matrix whose rows have length [m], row [j] is the [j]-th block
    of [m] entries of the row-major order. *)
Lemma mjoin_block {A} (rows : list (list A)) m j row :
  Forall (λ row, length row = m) rows → rows !! j = Some row →
  take m (drop (j * m) (mjoin rows)) = row.
Proof.
  intros Hm. revert j. induction Hm as [|r rows Hr Hrows IH]; intros j Hj; [done|].
  change (mjoin (r :: rows)) with (r ++ mjoin rows).
  destruct j as [|j]; simpl in Hj.
  - injection Hj as ->. rewrite Nat.mul_0_l, drop_0. subst m. by rewrite take_app_length.
  - replace (S j * m) with (length r + j * m) by lia.
    rewrite drop_app_add'; [|done]. by apply IH.
Qed.

Lemma mjoin_uniform_length {A} (rows : list (list A)) m :
  Forall (λ row, length row = m) rows → length (mjoin rows) = length rows * m.
Proof.
  induction 1 as [|r rows Hr _ IH]; [done|].
  change (mjoin (r :: rows)) with (r ++ mjoin rows). rewrite length_app, IH. simpl. lia.
Qed.

(** X21.  When [torch.rand] gives a matrix of the requested shape and there
    is at least one example, [set_epoch] returns and stores one row per
    example: row [i] is [i] followed by
    [num_sampled_boxes * min(num_sampled_views, num_rendered_views)] view
    numbers, all between 1 and [num_rendered_views], without repetition
    inside the block of each box. *)
Theorem random_sampler_rows (rand : nat → nat → nat → list (list R)) E V Sv Bx epoch :
  (∀ seed r c, length (rand seed r c) = r ∧ Forall (λ row, length row = c) (rand seed r c)) →
  0 < E →
  ∃ rows,
    set_epoch rand (__init__ E V Sv Bx) epoch = Ok (Build E V Sv Bx (Some rows))
    ∧ length rows = E
    ∧ ∀ i row, rows !! i = Some row →
        ∃ views, row = i :: views
          ∧ length views = Bx * (Sv `min` V)
          ∧ Forall (λ k, 1 ≤ k ≤ V) views
          ∧ ∀ b, b < Bx → NoDup (take (Sv `min` V) (drop (b * (Sv `min` V)) views)).
Proof.
  intros Hrand HE. unfold set_epoch, __init__. simpl.
  destruct (Hrand epoch (E * Bx) V) as [Hrows Hcols].
  set (u := rand epoch (E * Bx) V) in *.
  set (m := Sv `min` V).
  set (sampled := (λ row, take Sv (argsort row)) <$> u).
  assert (Forall (λ row, length row = m) sampled) as Hm.
  { unfold sampled. apply Forall_fmap. eapply Forall_impl; [exact Hcols|].
    intros row Hrow. simpl in *. by rewrite length_take, argsort_Permutation, length_seq, Hrow. }
  assert (length sampled = E * Bx) as Hlen by (unfold sampled; by rewrite length_fmap).
  assert (Forall (λ row, NoDup row ∧ Forall (λ k, k < V) row) sampled) as Hsampled.
  { unfold sampled. apply Forall_fmap. eapply Forall_impl; [exact Hcols|].
    intros row Hrow. simpl in *. split.
    - eapply sublist_NoDup; [|apply sublist_take].
      rewrite argsort_Permutation. apply NoDup_seq.
    - apply Forall_take. rewrite argsort_Permutation. apply Forall_forall.
      intros k Hk%elem_of_seq. lia. }
  pose proof (mjoin_uniform_length _ _ Hm) as Hflat. rewrite Hlen in Hflat.
  unfold reshape_rows. rewrite decide_False by lia.
  replace (length (mjoin sampled)) with (E * (Bx * m)) by lia.
  rewrite Nat.mul_comm, Nat.Div0.mod_mul, decide_True by done.
  rewrite Nat.div_mul by lia. simpl.
  eexists. split; [done|]. split.
  { rewrite length_zip_with, length_seq, length_fmap, chunks_length. lia. }
  intros i row Hi. apply lookup_zip_with_Some in Hi as (i' & views & -> & Hi' & Hviews).
  apply lookup_seq in Hi' as [-> HiE]. simpl in *.
  rewrite list_lookup_fmap, chunks_lookup in Hviews by done. injection Hviews as <-.
  eexists. split; [done|]. split_and!.
  - rewrite length_fmap, length_take, length_drop. nia.
  - apply Forall_fmap. apply Forall_take, Forall_drop.
    apply Forall_forall. intros k (row & Hk & Hrow)%list_elem_of_join.
    rewrite Forall_forall in Hsampled. destruct (Hsampled _ Hrow) as [_ Hlt].
    rewrite Forall_forall in Hlt. specialize (Hlt _ Hk). simpl. lia.
  - intros b Hb. rewrite <- fmap_drop, <- fmap_take.
    apply NoDup_fmap_2; [by intros ?? [= ->]|].
    destruct (lookup_lt_is_Some_2 sampled (i * Bx + b)) as [row Hrow]; [nia|].
    assert (take m (drop (b * m) (take (Bx * m) (drop (i * (Bx * m)) (mjoin sampled)))) = row)
      as ->.
    { rewrite <- (mjoin_block sampled m (i * Bx + b) row Hm Hrow).
      rewrite (take_drop_commute _ m (b * m)), take_take.
      replace ((b * m + m) `min` (Bx * m)) with (b * m + m) by nia.
      rewrite <- take_drop_commute, drop_drop. do 2 f_equal. lia. }
    rewrite Forall_lookup in Hsampled. by destruct (Hsampled _ _ Hrow).
Qed.
End random_sampler.

(** ** RenderedViews *)

Section rendered_views.
Import RenderedViews.

Lemma random_sampler_rows_witness :
  ∃ rows,
    RenderedViewsRandomSampler.set_epoch (λ _ r c, replicate r (replicate c 0%R))
      (RenderedViewsRandomSampler.__init__ 2 3 2 1) 0
    = Ok (RenderedViewsRandomSampler.Build 2 3 2 1 (Some rows))
    ∧ length rows = 2
    ∧ ∀ i row, rows !! i = Some row →
        ∃ views, row = i :: views
          ∧ length views = 1 * (2 `min` 3)
          ∧ Forall (λ k, 1 ≤ k ≤ 3) views
          ∧ ∀ b, b < 1 → NoDup (take (2 `min` 3) (drop (b * (2 `min` 3)) views)).
Proof.
  apply (random_sampler_rows (λ _ r c, replicate r (replicate c 0%R)) 2 3 2 1 0); [|lia].
  intros _ r c. split; [apply length_replicate|].
  apply Forall_replicate, length_replicate.
Defined.

Lemma no_img_seq j n : 0 < j → no_img (seq j n) = seq j n.
Proof.
  unfold no_img. revert j. induction n as [|n IH]; intros j Hj; [done|].
  cbn [seq]. rewrite filter_cons_True by done. f_equal. apply IH. lia.
Qed.

(** X22.  Every row of the sequential sampler is the list of view numbers
    alone, so [RenderedViews.__getitem__] takes the first view number as
    the example: on any row it raises IndexError when there is no view,
    and otherwise reads the example 1 of the wrapped data set with the
    views [2 .. num_rendered_views]. *)
Theorem sequential_sampler_reads_example_one lib self num_examples num_rendered_views row :
  row ∈ RenderedViewsSequentialSampler.__iter__
          (RenderedViewsSequentialSampler.__init__ num_examples num_rendered_views) →
  __getitem__ lib self row
  = if decide (num_rendered_views = 0) then Raise IndexError
    else '(img, extra) ← dataset self 1;
         views ← read_views lib self extra (seq 2 (num_rendered_views - 1));
         Ok (img, extra, views).
Proof.
  unfold RenderedViewsSequentialSampler.__iter__, RenderedViewsSequentialSampler.__init__.
  simpl. intros [-> _]%elem_of_replicate. unfold __getitem__.
  destruct num_rendered_views as [|V]; [done|].
  rewrite decide_False by done. cbn [seq index lookup list_lookup drop].
  rewrite bind_Ok, drop_0, no_img_seq by lia.
  by replace (S V - 1) with V by lia.
Qed.

Lemma stack_Ok {A} (shape : A → list nat) ts out :
  stack shape ts = Ok out → out = ts ∧ ts ≠ [].
Proof. unfold stack. destruct ts as [|t ts]; [done|]. case_decide; [|done]. by intros [= <-]. Qed.

Lemma expand3_length view out : expand3 view = Ok out → length out = 3.
Proof.
  destruct view as [|c1 [|c2 [|c3 [|c4 view]]]]; simpl; try done; by intros [= <-].
Qed.

(** X23.  When [__getitem__] returns, the image and the target are those of
    the wrapped data set at [idx[0]], and there is one view per positive
    entry of [idx[1:]], at least one, each with three channels. *)
Theorem getitem_returns_views lib self idx img extra views :
  __getitem__ lib self idx = Ok (img, extra, views) →
  ∃ i, idx !! 0 = Some i ∧ dataset self i = Ok (img, extra)
    ∧ views ≠ []
    ∧ length views = length (no_img (drop 1 idx))
    ∧ Forall (λ view : image, length view = 3) views.
Proof.
  unfold __getitem__, index. intros H.
  destruct (idx !! 0) as [i|] eqn:Hi; [|done]. rewrite bind_Ok in H.
  destruct (dataset self i) as [[img' extra']|] eqn:Hd; [|done]. rewrite bind_Ok in H.
  destruct (read_views lib self extra' _) as [views'|] eqn:Hv; [|done].
  injection H as -> -> ->. exists i. split; [done|]. split; [done|].
  unfold read_views in Hv.
  destruct (getstr extra "shape_path") as [shape_path|]; [|done]. rewrite bind_Ok in Hv.
  destruct (for_each _ (no_img (drop 1 idx))) as [read|] eqn:Hread; [|done].
  rewrite bind_Ok in Hv.
  destruct (stack image_shape read) as [stacked|] eqn:Hs; [|done]. rewrite bind_Ok in Hv.
  destruct (for_each expand3 stacked) as [expanded|] eqn:He; [|done].
  injection Hv as <-. apply stack_Ok in Hs as [-> Hne].
  pose proof (for_each_length _ _ _ He) as Hlen.
  pose proof (for_each_length _ _ _ Hread) as Hlen'.
  unfold div255. split_and!.
  - destruct expanded; [|done]. by destruct read.
  - rewrite length_fmap. lia.
  - apply Forall_fmap. apply for_each_Forall2 in He.
    apply Forall_forall. intros view Hview. simpl. unfold bq_map. rewrite length_fmap.
    apply list_elem_of_lookup in Hview as [j Hj].
    destruct (Forall2_lookup_r _ _ _ _ _ He Hj) as (v0 & _ & Hv0).
    by eapply expand3_length.
Qed.

(** X24.  The views that are read depend on the target through its
    [shape_path] only: the branch that reads the photograph ([k == 0]) is
    never taken, because [no_img] has dropped the zeros. *)
Theorem views_depend_on_shape_path_only lib self (extra extra' : target) ks :
  extra !! "shape_path" = extra' !! "shape_path" →
  read_views lib self extra (no_img ks) = read_views lib self extra' (no_img ks).
Proof.
  intros Hsame. unfold read_views, getstr, getitem. rewrite Hsame.
  destruct (extra' !! "shape_path") as [[shape_path| | |]|]; try done. simpl.
  assert (∀ f g : nat → result image,
            (∀ k, 0 < k → f k = g k) → for_each f (no_img ks) = for_each g (no_img ks)) as Hext.
  { intros f g Hfg. unfold no_img. induction ks as [|k ks IH]; [done|].
    destruct (decide (0 < k)) as [Hk|Hk].
    - rewrite filter_cons_True by done. simpl. by rewrite Hfg, IH.
    - by rewrite filter_cons_False by done. }
  erewrite Hext; [done|]. intros k Hk. simpl. by rewrite !decide_False by lia.
Qed.

(** X25.  [__getitem__] raises IndexError on an empty index, and
    RuntimeError ([torch.stack] of no tensor) when the wrapped data set
    answers and the target names a shape but no entry of [idx[1:]] is
    positive. *)
Theorem getitem_without_views lib self :
  __getitem__ lib self [] = Raise IndexError
  ∧ ∀ idx i img extra shape_path,
      idx !! 0 = Some i → dataset self i = Ok (img, extra) →
      extra !! "shape_path" = Some (VStr shape_path) →
      Forall (λ k, k = 0) (drop 1 idx) →
      __getitem__ lib self idx = Raise RuntimeError.
Proof.
  split; [done|]. intros idx i img extra shape_path Hi Hd Hs Hzero.
  unfold __getitem__, index. rewrite Hi, bind_Ok, Hd, bind_Ok.
  unfold read_views, getstr, getitem. rewrite Hs. simpl.
  assert (no_img (drop 1 idx) = []) as ->; [|done].
  unfold no_img. induction Hzero as [|k ks -> _ IH]; [done|].
  by rewrite filter_cons_False by lia.
Qed.
End rendered_views.

(** ** Comprehensions and counters *)

Section comprehensions.

Lemma bind_Return {A B} (f : A → outcome B) a : (Return a ≫= f) = f a.
Proof. done. Qed.

Lemma comprehend_Forall2 {A B} (f : A → outcome B) l ys :
  comprehend f l = Return ys → Forall2 (λ x y, f x = Return y) l ys.
Proof.
  revert ys. induction l as [|x l IH]; intros ys H; simpl in H.
  - injection H as <-. constructor.
  - destruct (f x) as [y|] eqn:Hx; [|done]. simpl in H.
    destruct (comprehend f l) as [ys'|]; [|done]. injection H as <-. constructor; auto.
Qed.

Lemma comprehend_returns {A B} (f : A → outcome B) l :
  Forall (λ x, ∃ y, f x = Return y) l → ∃ ys, comprehend f l = Return ys.
Proof.
  induction 1 as [|x l [y Hy] _ [ys Hys]]; simpl; [by eexists|].
  rewrite Hy. simpl. rewrite Hys. by eexists.
Qed.

Lemma all__true {A} (f : A → outcome bool) l :
  all_ f l = Return true → Forall (λ x, f x = Return true) l.
Proof.
  induction l as [|x l IH]; simpl; [constructor|].
  destruct (f x) as [[|]|] eqn:Hx; simpl; try done. intros H. constructor; auto.
Qed.

Lemma all__Forall {A} (f : A → outcome bool) l :
  Forall (λ x, f x = Return true) l → all_ f l = Return true.
Proof. induction 1 as [|x l Hx _ IH]; simpl; [done|]. by rewrite Hx. Qed.

Lemma select_spec {A} (f : A → outcome bool) l xs :
  select f l = Return xs →
  xs `sublist_of` l ∧ Forall (λ x, f x = Return true) xs
  ∧ ∀ x, x ∈ l → f x = Return true → x ∈ xs.
Proof.
  revert xs. induction l as [|x l IH]; intros xs H; simpl in H.
  - injection H as <-. split_and!; [done|constructor|]. by intros x ?%elem_of_nil.
  - destruct (f x) as [b|] eqn:Hx; [|done]. simpl in H.
    destruct (select f l) as [xs'|]; [|done]. injection H as <-.
    destruct (IH _ eq_refl) as (Hsub & Hall & Hin). destruct b.
    + split_and!; [by constructor|by constructor|].
      intros y [->|Hy]%elem_of_cons Hfy; [by left|]. right. by apply Hin.
    + split_and!; [by constructor|done|].
      intros y [->|Hy]%elem_of_cons Hfy; [congruence|]. by apply Hin.
Qed.

Lemma select_all_false {A} (f : A → outcome bool) l :
  Forall (λ x, f x = Return false) l → select f l = Return [].
Proof. induction 1 as [|x l Hx _ IH]; simpl; [done|]. by rewrite Hx, IH. Qed.

Lemma min__bounds l lo : min_ l = Return lo → lo ∈ l ∧ Forall (λ x, lo ≤ x)%Z l.
Proof.
  destruct l as [|x l]; [done|]. simpl. intros [= <-].
  assert (∀ a, (foldl Z.min a l = a ∨ foldl Z.min a l ∈ l)
               ∧ (foldl Z.min a l ≤ a)%Z ∧ Forall (λ x, foldl Z.min a l ≤ x)%Z l) as Hfold.
  { induction l as [|y l IH]; intros a; simpl.
    - split_and!; [by left|lia|constructor].
    - destruct (IH (a `min` y)%Z) as (Hin & Hle & Hall). split_and!.
      + destruct Hin as [Heq|Hin]; [|right; by right].
        rewrite Heq. destruct (Z.min_spec a y) as [[_ ->]|[_ ->]]; [by left|right; by left].
      + lia.
      + constructor; [lia|done]. }
  destruct (Hfold x) as (Hin & Hle & Hall). split.
  - destruct Hin as [->|Hin]; [by left|by right].
  - by constructor.
Qed.

Lemma max__bounds l hi : max_ l = Return hi → hi ∈ l ∧ Forall (λ x, x ≤ hi)%Z l.
Proof.
  destruct l as [|x l]; [done|]. simpl. intros [= <-].
  assert (∀ a, (foldl Z.max a l = a ∨ foldl Z.max a l ∈ l)
               ∧ (a ≤ foldl Z.max a l)%Z ∧ Forall (λ x, x ≤ foldl Z.max a l)%Z l) as Hfold.
  { induction l as [|y l IH]; intros a; simpl.
    - split_and!; [by left|lia|constructor].
    - destruct (IH (a `max` y)%Z) as (Hin & Hle & Hall). split_and!.
      + destruct Hin as [Heq|Hin]; [|right; by right].
        rewrite Heq. destruct (Z.max_spec a y) as [[_ ->]|[_ ->]]; [right; by left|by left].
      + lia.
      + constructor; [lia|done]. }
  destruct (Hfold x) as (Hin & Hle & Hall). split.
  - destruct Hin as [->|Hin]; [by left|by right].
  - by constructor.
Qed.
End comprehensions.

Section counter.
Context {K : Type} `{EqDecision K}.

Lemma Counter_snoc (l : list K) x :
  Counter (l ++ [x]) = dict.set (Counter l) x (S (default 0 (dict.get (Counter l) x))).
Proof. unfold Counter. by rewrite foldl_app. Qed.

Lemma Counter_NoDup (l : list K) : NoDup (dict.keys (Counter l)).
Proof.
  induction l as [|x l IH] using rev_ind; [constructor|].
  rewrite Counter_snoc. by apply dict_keys_set_NoDup.
Qed.

Lemma filter_eq_absent (l : list K) x : x ∉ l → filter (x =.) l = [].
Proof.
  intros Hx. destruct (filter (x =.) l) as [|z zs] eqn:E; [done|].
  assert (z ∈ filter (x =.) l) as [<- Hz]%list_elem_of_filter by (rewrite E; by left).
  done.
Qed.

Lemma Counter_get (l : list K) x :
  dict.get (Counter l) x
  = if decide (x ∈ l) then Some (length (filter (x =.) l)) else None.
Proof.
  induction l as [|y l IH] using rev_ind.
  { destruct (decide (x ∈ [])) as [Hin|_]; [by apply elem_of_nil in Hin|done]. }
  rewrite Counter_snoc, dict_get_set, filter_app, length_app.
  destruct (decide (x = y)) as [->|Hne].
  - rewrite decide_True by (apply elem_of_app; right; by left).
    rewrite filter_cons_True, IH by done. simpl.
    destruct (decide (y ∈ l)) as [Hin|Hin]; simpl; [f_equal; lia|].
    f_equal. by rewrite filter_eq_absent.
  - rewrite IH, filter_cons_False, filter_nil by done. simpl. rewrite Nat.add_0_r.
    destruct (decide (x ∈ l)) as [Hin|Hin].
    + rewrite decide_True; [done|]. apply elem_of_app. by left.
    + rewrite decide_False; [done|]. intros [?|?%list_elem_of_singleton]%elem_of_app; done.
Qed.

Lemma filter_eq_length_NoDup (l : list K) :
  NoDup l ↔ ∀ x, x ∈ l → length (filter (x =.) l) = 1.
Proof.
  induction l as [|y l IH].
  { split; [by intros _ x ?%elem_of_nil|constructor]. }
  rewrite NoDup_cons, IH. split.
  - intros [Hy Hl] x [->|Hx]%elem_of_cons.
    + rewrite filter_cons_True by done. simpl. f_equal.
      by rewrite filter_eq_absent.
    + rewrite filter_cons_False; [by apply Hl|]. intros ->. done.
  - intros Hone. split.
    + intros Hy. specialize (Hone y (list_elem_of_here _ _)).
      rewrite filter_cons_True in Hone by done. simpl in Hone.
      assert (y ∈ filter (y =.) l) as Hin by (by apply list_elem_of_filter).
      destruct (filter (y =.) l); [by apply elem_of_nil in Hin|done].
    + intros x Hx. specialize (Hone x (list_elem_of_further _ _ _ Hx)).
      destruct (decide (x = y)) as [->|Hne].
      * rewrite filter_cons_True in Hone by done. simpl in Hone.
        assert (y ∈ filter (y =.) l) as Hin by (by apply list_elem_of_filter).
        destruct (filter (y =.) l); [by apply elem_of_nil in Hin|done].
      * by rewrite filter_cons_False in Hone by done.
Qed.

(** The assertion of line 94: every key is counted once, and there is a
    key. *)
Lemma Counter_all_one (l : list K) :
  (list_to_set (dict.values (Counter l)) : gset nat) = {[1]} ↔ l ≠ [] ∧ NoDup l.
Proof.
  assert (∀ n, n ∈ dict.values (Counter l) ↔ ∃ x, x ∈ l ∧ length (filter (x =.) l) = n)
    as Hvalues.
  { intros n. unfold dict.values. rewrite list_elem_of_fmap. split.
    - intros ([x n'] & -> & Hin). apply (dict_elem_of_get _ _ _ (Counter_NoDup l)) in Hin.
      rewrite Counter_get in Hin. case_decide; [|done]. injection Hin as <-. by exists x.
    - intros (x & Hx & <-). exists (x, length (filter (x =.) l)). split; [done|].
      apply dict_get_elem_of. rewrite Counter_get. by rewrite decide_True. }
  split.
  - intros Hset.
    assert (∀ n, n ∈ dict.values (Counter l) ↔ n = 1) as Hone.
    { intros n. rewrite <- (elem_of_list_to_set (C:=gset nat)), Hset.
      apply elem_of_singleton. }
    split.
    + intros ->. pose proof (proj2 (Hone 1) eq_refl) as H1. by apply elem_of_nil in H1.
    + apply filter_eq_length_NoDup. intros x Hx. apply Hone, Hvalues. by exists x.
  - intros [Hne Hnodup]. apply set_eq. intros n.
    rewrite elem_of_list_to_set, Hvalues, elem_of_singleton. split.
    + intros (x & Hx & <-). by apply filter_eq_length_NoDup.
    + intros ->. destruct l as [|x l]; [done|]. exists x. split; [by left|].
      apply filter_eq_length_NoDup; [done|by left].
Qed.
End counter.

(** ** Pix3d *)

Section pix3d_boxes.
Import Pix3d.
Local Open Scope Z_scope.

Lemma the_category_idx_get i (c : string) :
  categories !! i = Some c → dict.get the_category_idx c = Some i.
Proof.
  intros Hc. assert (i < 9)%nat as Hi by (by apply lookup_lt_Some in Hc).
  do 9 (destruct i as [|i]; [injection Hc as <-; reflexivity|]). lia.
Qed.

Lemma pyindex_categories (k : Z) :
  1 ≤ k ≤ 9 → pyindex categories (k - 1) = lift (index categories (Z.to_nat (k - 1))).
Proof.
  intros Hk. unfold pyindex. rewrite decide_True; [done|]. simpl. lia.
Qed.

Lemma images_by_id_get images key name size :
  dict.get (images_by_id images) key = Some (name, size) →
  ∃ w h, size = [w; h].
Proof.
  intros Hin%dict_get_elem_of. unfold images_by_id in Hin.
  assert (∀ kvs : list (Z * (string * list Z)),
            Forall (λ kv, ∃ w h, kv.2.2 = [w; h]) kvs →
            Forall (λ kv, ∃ w h, kv.2.2 = [w; h]) (dict.comprehension kvs)) as Hall.
  { intros kvs. induction kvs as [|[k v] kvs IH] using rev_ind; [done|].
    rewrite dict_comprehension_snoc. intros [Hkvs [Hv _]%Forall_cons]%Forall_app.
    specialize (IH Hkvs). clear Hkvs. induction IH as [|[k' v'] d Hd Hrest IHd]; simpl.
    - constructor; [done|constructor].
    - case_decide; constructor; done. }
  specialize (Hall ((λ i, (image_key i, (file_name i, [width i; height i]))) <$> images)).
  assert (Forall (λ kv : Z * (string * list Z), ∃ w h, kv.2.2 = [w; h])
            ((λ i, (image_key i, (file_name i, [width i; height i]))) <$> images)) as Hsrc.
  { apply Forall_fmap, Forall_forall. intros i _. by eexists _, _. }
  specialize (Hall Hsrc). rewrite Forall_forall in Hall.
  by destruct (Hall _ Hin) as (w & h & ?); eexists _, _.
Qed.

(** X28.  [loadAnns] undoes the conversion of a split annotation: for an
    entry made of the annotation [a] with a box of four numbers and a
    category id between 1 and 9, it returns the box of [a], the first
    entry of [K] of [a] (in exact arithmetic), its mask, shape and pose,
    and as category id the one of [a] less one. *)
Theorem loadAnns_restores_annotation images a entry self i info x y w h k0 :
  entry_of_annotation (images_by_id images) a = Return entry →
  a_bbox a = [x; y; w; h] → K a !! 0%nat = Some k0 → 1 ≤ category_id a ≤ 9 →
  dict.get (image_idx self) i = Some info → info_m info = entry →
  category_idx self = the_category_idx →
  ∃ l, loadAnns self [i] = Return [l]
    ∧ l_bbox l = [x; y; w; h]
    ∧ l_K l !! 0%nat = Some k0
    ∧ l_segmentation l = segmentation a ∧ l_model l = a_model a
    ∧ l_rot_mat l = a_rot_mat a ∧ l_trans_mat l = a_trans_mat a
    ∧ Z.of_nat (l_category_id l) = category_id a - 1.
Proof.
  intros Hentry Hbbox HK Hcat Hinfo Hm Hidx.
  unfold entry_of_annotation in Hentry. rewrite Hbbox in Hentry. simpl in Hentry.
  rewrite pyindex_categories in Hentry by done.
  unfold index in Hentry. rewrite HK in Hentry.
  destruct (categories !! _) as [c|] eqn:Hc; [|done]. simpl in Hentry.
  unfold lookup_key in Hentry.
  destruct (dict.get (images_by_id images) (image_id a)) as [[name size]|] eqn:Himg; [|done].
  simpl in Hentry. apply images_by_id_get in Himg as (W & H & ->). simpl in Hentry.
  destruct (decide (W = 0)) as [|HW0]; [done|]. simpl in Hentry.
  injection Hentry as <-.
  unfold loadAnns, comprehend, loadAnn, lookup_key. rewrite Hinfo. cbn -[the_category_idx].
  rewrite Hm, Hidx. cbn -[the_category_idx].
  rewrite (the_category_idx_get _ _ Hc). simpl.
  eexists. split; [done|]. simpl. split_and!; try done.
  - by replace (x + w - 1 - x + 1) with w by lia; replace (y + h - 1 - y + 1) with h by lia.
  - do 2 f_equal. field. by apply not_0_IZR.
  - lia.
Qed.

Lemma annotation_of_entry_shrinks {rle} (encode_mask : string → outcome rle)
    images a entry self image_idx x y w h ann :
  entry_of_annotation (images_by_id images) a = Return entry →
  a_bbox a = [x; y; w; h] → 1 ≤ category_id a ≤ 9 →
  category_idx self = the_category_idx →
  annotation_of_entry encode_mask self image_idx entry = Return ann →
  ann_bbox ann = [x; y; w - 1; h - 1]
  ∧ ann_area ann = (w - 1) * (h - 1)
  ∧ Z.of_nat (ann_category_id ann) = category_id a
  ∧ ann_id ann = (1 + image_idx)%nat
  ∧ ann_image_id ann = img entry.
Proof.
  intros Hentry Hbbox Hcat Hidx Hann.
  unfold entry_of_annotation in Hentry. rewrite Hbbox in Hentry. simpl in Hentry.
  rewrite pyindex_categories in Hentry by done.
  unfold index in Hentry.
  destruct (categories !! _) as [c|] eqn:Hc; [|done]. simpl in Hentry.
  destruct (K a !! 0%nat) as [k0|]; [|done]. simpl in Hentry.
  unfold lookup_key in Hentry.
  destruct (dict.get (images_by_id images) (image_id a)) as [[name size]|] eqn:Himg; [|done].
  simpl in Hentry. apply images_by_id_get in Himg as (W & H & ->). simpl in Hentry.
  destruct (decide (W = 0)) as [|HW0]; [done|]. simpl in Hentry.
  injection Hentry as <-.
  unfold annotation_of_entry, lookup_key in Hann. cbn -[the_category_idx] in Hann.
  rewrite Hidx in Hann.
  rewrite (the_category_idx_get _ _ Hc) in Hann. cbn -[the_category_idx] in Hann.
  destruct (encode_mask (segmentation a)) as [encoded|]; [|done]. simpl in Hann.
  injection Hann as <-. simpl. split_and!; try done.
  - by replace (x + w - 1 - x) with (w - 1) by lia; replace (y + h - 1 - y) with (h - 1) by lia.
  - f_equal; lia.
  - lia.
Qed.

End pix3d_boxes.

(** ** Pix3d.__init__ *)

Section pix3d_init.
Import Pix3d.
Local Open Scope Z_scope.

Lemma lift_Return {A} (r : result A) a : lift r = Return a → r = Ok a.
Proof. destruct r; simpl; [by intros [= ->]|done]. Qed.

Lemma index_Ok {A} (l : list A) i x : index l i = Ok x → l !! i = Some x.
Proof. unfold index. destruct (l !! i); [by intros [= ->]|done]. Qed.

Lemma bbox_ordered_true m :
  bbox_ordered m = Return true →
  ∃ x1 y1 x2 y2 rest, bbox m = x1 :: y1 :: x2 :: y2 :: rest ∧ x1 ≤ x2 ∧ y1 ≤ y2.
Proof.
  unfold bbox_ordered, index. destruct (bbox m) as [|x1 [|y1 [|x2 [|y2 rest]]]]; simpl; try done.
  - by case_decide.
  - case_decide as Hx; [|done]. simpl. intros [= Hy%bool_decide_eq_true].
    by eexists _, _, _, _, _.
Qed.

Lemma kept_true drop_images max_image_size m :
  kept drop_images max_image_size m = Return true →
  (img m ∉ drop_images)
  ∧ ∀ max_w max_h, max_image_size = Some [max_w; max_h] → max_w + max_h ≠ 0 →
      ∃ w h rest, img_size m = w :: h :: rest ∧ w ≤ max_w ∧ h ≤ max_h.
Proof.
  unfold kept. case_decide as Hdrop; [done|]. intros H. split; [done|].
  intros max_w max_h -> Hsum. simpl in H.
  rewrite bool_decide_true in H by lia. simpl in H.
  unfold index in H. destruct (img_size m) as [|w [|h rest]]; simpl in H; try done.
  - by case_decide.
  - case_decide as Hw; [|done]. simpl in H. injection H as Hh%bool_decide_eq_true.
    by eexists _, _, _.
Qed.

Lemma the_category_idx_Some c i : dict.get the_category_idx c = Some i → c ∈ categories.
Proof.
  intros Hin%dict_get_elem_of.
  assert (c ∈ dict.keys the_category_idx) as Hkey.
  { unfold dict.keys. apply list_elem_of_fmap. by exists (c, i). }
  unfold the_category_idx in Hkey. apply dict_comprehension_keys in Hkey.
  revert Hkey. vm_compute. done.
Qed.

Ltac bind_step H x E :=
  match type of H with
  | (mbind _ ?m = _) =>
      destruct m as [x|] eqn:E; [rewrite bind_Return in H|by simpl in H]
  end.

(** X26.  When the constructor returns, [pix3d.json] was not empty and
    named every image once, some entry is kept, the kept entries are a
    sublist of the file's when no split is given, and every kept entry is
    outside [drop_images], of a known category, with an ordered box of at
    least four numbers and an image size of non-zero height that lies
    inside [width_min_max] and [height_min_max] and, when a
    [max_image_size] with a non-zero sum is given, inside it. *)
Theorem init_invariants root metadata_full split max_image_size target_image_size
    drop_images read_image read_mask self :
  __init__ root metadata_full split max_image_size target_image_size drop_images
    read_image read_mask = Return self →
  metadata_full ≠ [] ∧ NoDup (img <$> metadata_full)
  ∧ metadata self ≠ []
  ∧ (split = None → metadata self `sublist_of` metadata_full)
  ∧ Forall (λ m,
      (img m ∉ drop_images)
      ∧ (category m ∈ categories)
      ∧ (∃ x1 y1 x2 y2 rest, bbox m = x1 :: y1 :: x2 :: y2 :: rest ∧ x1 ≤ x2 ∧ y1 ≤ y2)
      ∧ (∃ w h rest, img_size m = w :: h :: rest ∧ h ≠ 0
           ∧ (width_min_max self).1 ≤ w ≤ (width_min_max self).2
           ∧ (height_min_max self).1 ≤ h ≤ (height_min_max self).2
           ∧ ∀ max_w max_h, max_image_size = Some [max_w; max_h] → max_w + max_h ≠ 0 →
               w ≤ max_w ∧ h ≤ max_h))
      (metadata self).
Proof.
  unfold __init__. intros H.
  destruct (bool_decide _) eqn:Hunique; [|by simpl in H]. simpl in H.
  apply bool_decide_eq_true in Hunique. apply Counter_all_one in Hunique as [Hne Hnodup].
  assert (metadata_full ≠ []) as Hfull by (by intros ->).
  set (converted := match split with Some _ => _ | None => _ end) in H.
  destruct converted as [md0|] eqn:Hmd0; [|by simpl in H]. rewrite bind_Return in H.
  destruct (all_ bbox_ordered md0) as [[|]|] eqn:Hord; try done. simpl in H.
  bind_step H md Hsel. bind_step H infos Hinfos. bind_step H cats Hcats.
  bind_step H widths Hwidths. bind_step H wmin Hwmin. bind_step H wmax Hwmax.
  bind_step H heights Hheights. bind_step H hmin Hhmin. bind_step H hmax Hhmax.
  bind_step H ratios Hratios.
  injection H as <-. simpl.
  apply select_spec in Hsel as (Hsub & Hkept & _).
  apply all__true in Hord.
  apply comprehend_Forall2 in Hcats, Hwidths, Hheights, Hratios.
  apply min__bounds in Hwmin as [_ Hwmin]. apply max__bounds in Hwmax as [Hwin Hwmax].
  apply min__bounds in Hhmin as [_ Hhmin]. apply max__bounds in Hhmax as [_ Hhmax].
  split_and!; try done.
  - intros ->. apply Forall2_nil_inv_l in Hwidths as ->. by apply elem_of_nil in Hwin.
  - intros ->. unfold converted in Hmd0. by injection Hmd0 as <-.
  - apply Forall_lookup. intros j m Hm.
    rewrite Forall_lookup in Hkept. apply (Hkept _ _) in Hm as Hk.
    apply kept_true in Hk as [Hdrop Hsize].
    assert (m ∈ md0) as Hm0.
    { eapply elem_of_sublist; [|done]. by eapply list_elem_of_lookup_2. }
    rewrite Forall_forall in Hord. apply Hord, bbox_ordered_true in Hm0.
    destruct (Forall2_lookup_l _ _ _ _ _ Hcats Hm) as (cat & _ & Hcat).
    destruct (Forall2_lookup_l _ _ _ _ _ Hwidths Hm) as (w & Hw & Hiw).
    destruct (Forall2_lookup_l _ _ _ _ _ Hheights Hm) as (h & Hh & Hih).
    destruct (Forall2_lookup_l _ _ _ _ _ Hratios Hm) as (ratio & _ & Hratio).
    apply lift_Return, index_Ok in Hiw, Hih.
    split_and!; try done.
    + unfold lookup_key in Hcat.
      destruct (dict.get the_category_idx (category m)) as [i|] eqn:Hi; [|done].
      by eapply the_category_idx_Some.
    + destruct (img_size m) as [|w' [|h' rest]] eqn:Hsz; simpl in *; try done.
      injection Hiw as ->. injection Hih as ->. exists w, h, rest.
      rewrite Forall_lookup in Hwmin, Hwmax, Hhmin, Hhmax.
      specialize (Hwmin _ _ Hw). specialize (Hwmax _ _ Hw).
      specialize (Hhmin _ _ Hh). specialize (Hhmax _ _ Hh).
      split_and!; try done.
      * intros ->. by rewrite decide_True in Hratio.
      * intros max_w max_h Hmax Hsum.
        destruct (Hsize _ _ Hmax Hsum) as (w0 & h0 & rest0 & [= <- <- _] & ? & ?). done.
Qed.
End pix3d_init.

Section string_order.

Lemma string_compare_trans_le s1 s2 s3 :
  String.compare s1 s2 ≠ Gt → String.compare s2 s3 ≠ Gt → String.compare s1 s3 ≠ Gt.
Proof.
  revert s2 s3. induction s1 as [|c1 s1 IH]; intros [|c2 s2] [|c3 s3]; simpl; try done.
  unfold Ascii.compare.
  destruct (N.compare_spec (Ascii.N_of_ascii c1) (Ascii.N_of_ascii c2)) as [H12|H12|H12];
    destruct (N.compare_spec (Ascii.N_of_ascii c2) (Ascii.N_of_ascii c3)) as [H23|H23|H23];
    destruct (N.compare_spec (Ascii.N_of_ascii c1) (Ascii.N_of_ascii c3)) as [H13|H13|H13];
    try done; try lia.
  apply IH.
Qed.

#[local] Instance str_le_trans : Transitive str_le.
Proof.
  intros s1 s2 s3. unfold str_le, String.leb. intros H12 H23.
  pose proof (string_compare_trans_le s1 s2 s3) as H.
  destruct (String.compare s1 s2), (String.compare s2 s3), (String.compare s1 s3);
    try done; exfalso; by apply H.
Qed.

#[local] Instance str_le_total : Total str_le.
Proof. intros s1 s2. apply String.leb_total. Qed.

#[local] Instance str_le_antisymm : AntiSymm (=) str_le.
Proof. intros s1 s2. apply String.leb_antisym. Qed.

Lemma StronglySorted_lookup_lt {A} (R : relation A) l i j x y :
  StronglySorted R l → l !! i = Some x → l !! j = Some y → i < j → R x y.
Proof.
  intros Hl. revert i j. induction Hl as [|a l Hl IH Ha]; intros i j Hi Hj Hij; [done|].
  destruct j as [|j]; [lia|]. simpl in Hj. destruct i as [|i]; simpl in Hi.
  - injection Hi as ->. rewrite Forall_forall in Ha. apply Ha.
    by eapply list_elem_of_lookup_2.
  - eapply IH; [done..|lia].
Qed.

Lemma sorted_set_spec (l : list string) :
  NoDup (sorted_set l) ∧ StronglySorted str_le (sorted_set l)
  ∧ ∀ s, s ∈ sorted_set l ↔ s ∈ l.
Proof.
  unfold sorted_set. split_and!.
  - rewrite merge_sort_Permutation. apply NoDup_remove_dups.
  - apply StronglySorted_merge_sort; apply _.
  - intros s. rewrite merge_sort_Permutation. apply elem_of_remove_dups.
Qed.

Lemma ranks_get (ranked : list string) s i :
  NoDup ranked →
  dict.get (dict.comprehension ((λ '(i, t), (t, i)) <$> enumerate ranked)) s = Some i
  ↔ ranked !! i = Some s.
Proof.
  intros Hnodup. rewrite dict_comprehension_get. split.
  - by intros (j & [-> Hj]%swapped_enumerate_lookup & _).
  - intros Hi. exists i. split; [by apply swapped_enumerate_lookup|].
    intros j v' [-> Hj]%swapped_enumerate_lookup.
    by rewrite (NoDup_lookup _ _ _ _ Hnodup Hi Hj).
Qed.

(** X27.  When the constructor returns, [shape_idx] numbers the distinct
    shape paths of [pix3d.json] by their rank in the order of strings:
    every entry's shape has an index below the number of distinct paths,
    every such number is the index of some path, and the indices are
    ordered as the paths are. *)
Theorem shape_idx_is_rank root metadata_full split max_image_size target_image_size
    drop_images read_image read_mask self :
  Pix3d.__init__ root metadata_full split max_image_size target_image_size drop_images
    read_image read_mask = Return self →
  (∀ m, m ∈ metadata_full →
     ∃ i, dict.get (Pix3d.shape_idx self) (Pix3d.model m) = Some i
          ∧ i < length (remove_dups (Pix3d.model <$> metadata_full)))
  ∧ (∀ i, i < length (remove_dups (Pix3d.model <$> metadata_full)) →
       ∃ s, dict.get (Pix3d.shape_idx self) s = Some i)
  ∧ (∀ s1 s2 i1 i2,
       dict.get (Pix3d.shape_idx self) s1 = Some i1 →
       dict.get (Pix3d.shape_idx self) s2 = Some i2 →
       (i1 ≤ i2 ↔ str_le s1 s2)).
Proof.
  intros H.
  set (ranked := sorted_set (Pix3d.model <$> metadata_full)).
  assert (Pix3d.shape_idx self
          = dict.comprehension ((λ '(i, t), (t, i)) <$> enumerate ranked)) as ->.
  { unfold Pix3d.__init__ in H.
    destruct (bool_decide _); [|by simpl in H]. simpl in H.
    repeat match type of H with
           | (mbind _ ?m = _) => destruct m; [rewrite bind_Return in H|by simpl in H]
           end.
    by injection H as <-. }
  destruct (sorted_set_spec (Pix3d.model <$> metadata_full)) as (Hnodup & Hsorted & Hin).
  fold ranked in Hnodup, Hsorted, Hin.
  assert (length ranked = length (remove_dups (Pix3d.model <$> metadata_full))) as Hlen.
  { unfold ranked, sorted_set. by rewrite merge_sort_Permutation. }
  split_and!.
  - intros m Hm.
    assert (Pix3d.model m ∈ ranked) as [i Hi]%list_elem_of_lookup.
    { apply Hin, list_elem_of_fmap. by exists m. }
    exists i. split; [by apply ranks_get|]. rewrite <- Hlen. by eapply lookup_lt_Some.
  - intros i Hi. destruct (lookup_lt_is_Some_2 ranked i) as [s Hs]; [lia|].
    exists s. by apply ranks_get.
  - intros s1 s2 i1 i2 H1%ranks_get H2%ranks_get; [|done..]. split.
    + intros Hle. destruct (decide (i1 = i2)) as [->|Hne].
      * rewrite H1 in H2. injection H2 as ->. by destruct (total str_le s2 s2).
      * eapply StronglySorted_lookup_lt; [done..|lia].
    + intros Hle. destruct (decide (i1 ≤ i2)) as [|Hgt]; [done|]. exfalso.
      assert (str_le s2 s1) as Hge.
      { eapply StronglySorted_lookup_lt; [done..|lia]. }
      assert (s1 = s2) as -> by (by apply (anti_symm str_le)).
      pose proof (NoDup_lookup _ _ _ _ Hnodup H1 H2). lia.
Qed.
End string_order.

Section pix3d_raises.
Import Pix3d.
Local Open Scope Z_scope.

Lemma bbox_ordered_four m x1 y1 x2 y2 rest :
  bbox m = x1 :: y1 :: x2 :: y2 :: rest →
  bbox_ordered m = Return (bool_decide (x1 ≤ x2 ∧ y1 ≤ y2)).
Proof.
  intros Hb. unfold bbox_ordered. rewrite Hb. simpl.
  destruct (decide (x1 ≤ x2)) as [Hx|Hx]; simpl.
  - destruct (decide (y1 ≤ y2)) as [Hy|Hy].
    + by rewrite !bool_decide_eq_true_2.
    + rewrite !bool_decide_eq_false_2; [done| |done]. by intros [_ ?].
  - rewrite bool_decide_eq_false_2; [done|]. by intros [? _].
Qed.

Lemma all__false {A} (f : A → outcome bool) l :
  Forall (λ x, ∃ b, f x = Return b) l → Exists (λ x, f x = Return false) l →
  all_ f l = Return false.
Proof.
  induction 1 as [|x l [b Hb] _ IH]; intros Hex; [by apply Exists_nil in Hex|].
  simpl. rewrite Hb, bind_Return. destruct b; [|done].
  apply Exists_cons in Hex as [Hx|Hl]; [congruence|by apply IH].
Qed.

(** X30.  The constructor raises AssertionError when [pix3d.json] is empty
    or names an image twice, and, without a split, when the boxes have
    four numbers and one of them is inverted; it raises ValueError
    ([min] of nothing) when, without a split, the boxes are ordered and
    every image is in [drop_images]. *)
Theorem init_raises root metadata_full split max_image_size target_image_size
    drop_images read_image read_mask :
  (¬ (metadata_full ≠ [] ∧ NoDup (img <$> metadata_full)) →
     __init__ root metadata_full split max_image_size target_image_size drop_images
       read_image read_mask = Throw AssertionError)
  ∧ (metadata_full ≠ [] → NoDup (img <$> metadata_full) →
     Forall (λ m, (4 ≤ length (bbox m))%nat) metadata_full →
     Exists (λ m, ∃ x1 y1 x2 y2 rest,
               bbox m = x1 :: y1 :: x2 :: y2 :: rest ∧ (x2 < x1 ∨ y2 < y1)) metadata_full →
     __init__ root metadata_full None max_image_size target_image_size drop_images
       read_image read_mask = Throw AssertionError)
  ∧ (metadata_full ≠ [] → NoDup (img <$> metadata_full) →
     Forall (λ m, ∃ x1 y1 x2 y2 rest,
               bbox m = x1 :: y1 :: x2 :: y2 :: rest ∧ x1 ≤ x2 ∧ y1 ≤ y2) metadata_full →
     Forall (λ m, img m ∈ drop_images) metadata_full →
     __init__ root metadata_full None max_image_size target_image_size drop_images
       read_image read_mask = Throw ValueError).
Proof.
  split_and!.
  - intros Hnot. unfold __init__. rewrite bool_decide_eq_false_2; [done|].
    intros [Hc ?]%Counter_all_one. apply Hnot. split; [|done]. by intros ->.
  - intros Hne Hnodup Hfour Hex. unfold __init__.
    rewrite bool_decide_eq_true_2
      by (apply Counter_all_one; split; [by destruct metadata_full|done]). simpl.
    rewrite all__false; [done|..].
    + eapply Forall_impl; [exact Hfour|]. intros m Hm. simpl in Hm.
      destruct (bbox m) as [|x1 [|y1 [|x2 [|y2 rest]]]] eqn:Hb; simpl in Hm; try lia.
      eexists. by eapply bbox_ordered_four.
    + eapply Exists_impl; [exact Hex|]. intros m (x1 & y1 & x2 & y2 & rest & Hb & Hinv).
      rewrite (bbox_ordered_four _ _ _ _ _ _ Hb). f_equal.
      apply bool_decide_eq_false_2. lia.
  - intros Hne Hnodup Hord Hdrop. unfold __init__.
    rewrite bool_decide_eq_true_2
      by (apply Counter_all_one; split; [by destruct metadata_full|done]). simpl.
    rewrite all__Forall; [simpl|].
    + rewrite select_all_false; [done|].
      eapply Forall_impl; [exact Hdrop|]. intros m Hm. simpl in Hm.
      unfold kept. by rewrite decide_True.
    + eapply Forall_impl; [exact Hord|]. intros m (x1 & y1 & x2 & y2 & rest & Hb & Hx & Hy).
      rewrite (bbox_ordered_four _ _ _ _ _ _ Hb). f_equal.
      by apply bool_decide_eq_true_2.
Qed.
End pix3d_raises.

(** ** The properties on the small data set *)

Section dataset_witnesses.
Import DatasetExamples.
Lemma sequential_sampler_reads_example_one_witness :
  RenderedViews.__getitem__ example_library example_views [1; 2; 3]
  = '(img, extra) ← RenderedViews.dataset example_views 1;
    views ← RenderedViews.read_views example_library example_views extra (seq 2 (3 - 1));
    Ok (img, extra, views).
Proof.
  apply (sequential_sampler_reads_example_one example_library example_views 2 3 [1; 2; 3]).
  vm_compute. apply list_elem_of_here.
Defined.

Lemma getitem_returns_views_witness :
  ∃ i, [0; 1; 2] !! 0 = Some i
    ∧ RenderedViews.dataset example_views i
      = Ok (Examples.example_image, example_target "img/chair/0001.png")
    ∧ RenderedViews.div255 [[[[255%R]]; [[255%R]]; [[255%R]]]; [[[255%R]]; [[255%R]]; [[255%R]]]]
      ≠ []
    ∧ length (RenderedViews.div255
                [[[[255%R]]; [[255%R]]; [[255%R]]]; [[[255%R]]; [[255%R]]; [[255%R]]]])
      = length (RenderedViews.no_img (drop 1 [0; 1; 2]))
    ∧ Forall (λ view : image, length view = 3)
        (RenderedViews.div255
           [[[[255%R]]; [[255%R]]; [[255%R]]]; [[[255%R]]; [[255%R]]; [[255%R]]]]).
Proof.
  apply (getitem_returns_views example_library example_views [0; 1; 2]).
  reflexivity.
Defined.

Lemma views_depend_on_shape_path_only_witness :
  RenderedViews.read_views example_library example_views
    (example_target "img/chair/0001.png") (RenderedViews.no_img [0; 1])
  = RenderedViews.read_views example_library example_views
      (example_target "img/chair/0002.png") (RenderedViews.no_img [0; 1]).
Proof.
  apply (views_depend_on_shape_path_only example_library example_views
           (example_target "img/chair/0001.png") (example_target "img/chair/0002.png") [0; 1]).
  reflexivity.
Defined.
End dataset_witnesses.

Section pix3d_witnesses.
Import DatasetExamples.
Import Pix3d.
Local Open Scope Z_scope.

Lemma init_invariants_witness :
  ∃ self,
    __init__ "data" example_metadata None (Some [640; 480]) None [] true true = Return self
    ∧ example_metadata ≠ [] ∧ NoDup (img <$> example_metadata)
    ∧ metadata self ≠ []
    ∧ ((None : option split) = None → metadata self `sublist_of` example_metadata)
    ∧ Forall (λ m,
        (img m ∉ [])
        ∧ (category m ∈ categories)
        ∧ (∃ x1 y1 x2 y2 rest, bbox m = x1 :: y1 :: x2 :: y2 :: rest ∧ x1 ≤ x2 ∧ y1 ≤ y2)
        ∧ (∃ w h rest, img_size m = w :: h :: rest ∧ h ≠ 0
             ∧ (width_min_max self).1 ≤ w ≤ (width_min_max self).2
             ∧ (height_min_max self).1 ≤ h ≤ (height_min_max self).2
             ∧ ∀ max_w max_h, Some [640; 480] = Some [max_w; max_h] → max_w + max_h ≠ 0 →
                 w ≤ max_w ∧ h ≤ max_h))
        (metadata self).
Proof.
  eexists. split; [reflexivity|].
  apply (init_invariants "data" example_metadata None (Some [640; 480]) None [] true true).
  reflexivity.
Defined.

Lemma shape_idx_is_rank_witness :
  ∃ self,
    __init__ "data" example_metadata None None None [] true true = Return self
    ∧ (∀ m, m ∈ example_metadata →
         ∃ i, dict.get (shape_idx self) (model m) = Some i
              ∧ (i < length (remove_dups (model <$> example_metadata)))%nat)
    ∧ (∀ i, (i < length (remove_dups (model <$> example_metadata)))%nat →
         ∃ s, dict.get (shape_idx self) s = Some i)
    ∧ (∀ s1 s2 i1 i2,
         dict.get (shape_idx self) s1 = Some i1 →
         dict.get (shape_idx self) s2 = Some i2 →
         ((i1 ≤ i2)%nat ↔ str_le s1 s2)).
Proof.
  eexists. split; [reflexivity|].
  apply (shape_idx_is_rank "data" example_metadata None None None [] true true).
  reflexivity.
Defined.

Lemma loadAnns_restores_annotation_witness :
  entry_of_annotation (images_by_id (images example_split)) example_annotation
  = Return example_split_entry
  ∧ ∃ l, loadAnns example_pix3d ["img/chair/0001.png"] = Return [l]
      ∧ l_bbox l = [10; 20; 101; 201]
      ∧ l_K l !! 0%nat = Some 700%R
      ∧ l_segmentation l = segmentation example_annotation
      ∧ l_model l = a_model example_annotation
      ∧ l_rot_mat l = a_rot_mat example_annotation
      ∧ l_trans_mat l = a_trans_mat example_annotation
      ∧ Z.of_nat (l_category_id l) = category_id example_annotation - 1.
Proof.
  split; [reflexivity|].
  apply (loadAnns_restores_annotation (images example_split) example_annotation
           example_split_entry example_pix3d "img/chair/0001.png"
           (ImageInfo example_split_entry "img/chair/0001.png" 640 480) 10 20 101 201 700%R);
    first [reflexivity | simpl; lia].
Defined.


Lemma init_raises_witness :
  __init__ "data" [] None None None [] true true = Throw AssertionError
  ∧ __init__ "data" [example_entry "img/chair/0001.png" "model/chair/a/model.obj";
                     Entry "img/chair/0002.png" [640; 480] [110; 20; 10; 220]
                       "mask/chair/0002.png" "model/chair/a/model.obj" "chair" [] [] 35%R]
      None None None [] true true = Throw AssertionError
  ∧ __init__ "data" example_metadata None None None
      ["img/chair/0001.png"; "img/chair/0002.png"] true true = Throw ValueError.
Proof.
  split_and!.
  - destruct (init_raises "data" [] None None None [] true true) as (Hempty & _ & _).
    apply Hempty. by intros [? _].
  - destruct (init_raises "data"
                [example_entry "img/chair/0001.png" "model/chair/a/model.obj";
                 Entry "img/chair/0002.png" [640; 480] [110; 20; 10; 220]
                   "mask/chair/0002.png" "model/chair/a/model.obj" "chair" [] [] 35%R]
                None None None [] true true) as (_ & Hinverted & _).
    apply Hinverted; [done|by apply (bool_decide_unpack _)|repeat constructor|].
    apply Exists_cons_tl, Exists_cons_hd. eexists _, _, _, _, _. split; [reflexivity|lia].
  - destruct (init_raises "data" example_metadata None None None
                ["img/chair/0001.png"; "img/chair/0002.png"] true true) as (_ & _ & Hdropped).
    apply Hdropped; [done|by apply (bool_decide_unpack _)| |].
    + repeat constructor; eexists _, _, _, _, _; (split; [reflexivity|lia]).
    + repeat constructor; by apply (bool_decide_unpack _).
Defined.
End pix3d_witnesses.
